(** * SysEx dump -> ZPK1 container pipeline: shallow embedding and properties

    Embedded sources:
    - [plugins/_tools/sysex_pack.py]    (module [SysexPack])
    - [plugins/_tools/pack_index.py]    (module [PackIndex])
    - [plugins/_tools/dump_layer_filters.py] (module [DumpLayerFilters])
    - [tools/extraction/syx_tools.py]   (module [SyxTools])

    Conventions.  A Python [bytes] object is a [list byte]; Python integers
    are [Z]; a call that may raise returns a [result]; the dictionaries the
    pipeline builds for its records have a closed set of shapes and are
    modelled by the record [Entry] with the tagged variant [Meta]; the
    assembler's [dict] keyed by sequence number is a [gmap Z (list byte)].
    Python floats are binary64 values ([PrimFloat.float]) with the kernel's
    operations and their specification ([FloatAxioms]); [math.cos], a
    function of the C library, is a parameter of the coefficient
    synthesizer. *)

From Stdlib Require Import ZArith List Lia Bool String.
From Stdlib.Strings Require Import Byte.
From Corelib Require Import PrimFloat SpecFloat FloatOps FloatAxioms.
From stdpp Require Import base gmap list sorting.

Local Open Scope Z_scope.

(* Decimal literals such as [1.999] denote the nearest binary64 value, as in
   Python. *)
Set Warnings "-inexact-float".

(** ** Python exceptions and fallible computations *)

Inductive exn : Set :=
  TypeError | ValueError | IndexError | StructError | AttributeError.

Inductive result (A : Type) : Type :=
| Ok (a : A)
| Raise (e : exn).
Arguments Ok {A} a.
Arguments Raise {A} e.

#[global] Instance result_ret : MRet result := fun A a => Ok a.
#[global] Instance result_bind : MBind result := fun A B k r =>
  match r with
  | Ok a => k a
  | Raise e => Raise e
  end.

(** ** Bytes as integers *)

Definition byte_to_Z (b : byte) : Z := Z.of_N (Byte.to_N b).

Definition byte_of_Z (z : Z) : byte :=
  default x00 (Byte.of_N (Z.to_N (z mod 256))).

#[global] Instance byte_eq_decision : EqDecision byte := Byte.byte_eq_dec.

(** [bytes([...])] and [bytearray([...])]: [ValueError] unless every element
    is in [range(256)]. *)
Definition bytes_of (l : list Z) : result (list byte) :=
  if forallb (fun v => (0 <=? v) && (v <? 256)) l then Ok (byte_of_Z <$> l)
  else Raise ValueError.

(** [l[k]] on a bytes object: the integer value, or [IndexError]. *)
Definition index (l : list byte) (k : nat) : result Z :=
  match l !! k with
  | Some b => Ok (byte_to_Z b)
  | None => Raise IndexError
  end.

(** [l[a:b]] for non-negative [a], [b] (Python clamps both to [len l]). *)
Definition slice (l : list byte) (a b : nat) : list byte :=
  take (b - a) (drop a l).

(** [l[a:-1]] for non-negative [a]. *)
Definition slice_to_last (l : list byte) (a : nat) : list byte :=
  slice l a (length l - 1).

(** [l[-n:]] for [n > 0]: the last [n] elements (all of [l] when [n >= len l]). *)
Definition slice_tail (l : list byte) (n : nat) : list byte :=
  drop (length l - n) l.

(** ** The [struct] module, little-endian standard sizes *)

Module Struct.

Fixpoint le_bytes (n : nat) (v : Z) : list byte :=
  match n with
  | O => []
  | S n' => byte_of_Z v :: le_bytes n' (v / 256)
  end.

Fixpoint le_value (bs : list byte) : Z :=
  match bs with
  | [] => 0
  | b :: bs' => byte_to_Z b + 256 * le_value bs'
  end.

(** An unsigned field of [n] bytes; [struct.error] when out of range. *)
Definition pack_uint (n : nat) (v : Z) : result (list byte) :=
  if (0 <=? v) && (v <? 256 ^ Z.of_nat n) then Ok (le_bytes n v)
  else Raise StructError.

(** [struct.pack('<H', v)] *)
Definition pack_H (v : Z) : result (list byte) := pack_uint 2 v.

(** [struct.pack('<I', v)] *)
Definition pack_I (v : Z) : result (list byte) := pack_uint 4 v.

(** [struct.pack('<IHHHII', a, b, c, d, e, f)]: 4+2+2+2+4+4 = 18 bytes, no
    padding. *)
Definition pack_IHHHII (a b c d e f : Z) : result (list byte) :=
  ba ← pack_I a; bb ← pack_H b; bc ← pack_H c; bd ← pack_H d;
  be ← pack_I e; bf ← pack_I f;
  mret (ba ++ bb ++ bc ++ bd ++ be ++ bf).

(** The field of [n] bytes at position [off] of [buf]. *)
Definition field (buf : list byte) (off n : nat) : Z :=
  le_value (take n (drop off buf)).

(** [struct.unpack_from('<HH', buf, off)]: needs 4 bytes from [off]. *)
Definition unpack_from_HH (buf : list byte) (off : nat) : result (Z * Z) :=
  if (length buf <? off + 4)%nat then Raise StructError
  else Ok (field buf off 2, field buf (off + 2) 2).

(** [struct.unpack_from('<IHHHII', buf, off)]: needs 18 bytes from [off]. *)
Definition unpack_from_IHHHII (buf : list byte) (off : nat)
  : result (Z * Z * Z * Z * Z * Z) :=
  if (length buf <? off + 18)%nat then Raise StructError
  else Ok (field buf off 4, field buf (off + 4) 2, field buf (off + 6) 2,
           field buf (off + 8) 2, field buf (off + 10) 4,
           field buf (off + 14) 4).

End Struct.

(** ** Records of the pipeline *)

(** The value stored under a dictionary key that may hold [None]. *)
Inductive pyint : Set :=
| PyNone
| PyInt (z : Z).

(** The four shapes of the ["meta"] dictionary built by the pipeline. *)
Inductive Meta : Set :=
| MetaParsed (family dev cmd : Z) (sub : pyint) (validChecksum : bool)
    (* canonize: {family, dev, cmd, sub, validChecksum} *)
| MetaAssembled
    (* assemble_preset: {"sub": 0xFE, "assembled": True} *)
| MetaLayerFilter (idx : Z)
    (* segment_assembled: {'sub': 0x22, 'heuristic': True, 'idx': i} *)
| MetaZmf1 (model : string) (source_id : Z).
    (* augment_with_zmf1: {'zmf1': True, 'model': .., 'source_id': ..} *)

(** [meta.get('sub')] as a lookup: [None] when the key is absent. *)
Definition meta_sub (m : Meta) : option pyint :=
  match m with
  | MetaParsed _ _ _ sub _ => Some sub
  | MetaAssembled => Some (PyInt 0xFE)
  | MetaLayerFilter _ => Some (PyInt 0x22)
  | MetaZmf1 _ _ => None
  end.

(** A record dictionary: keys ["id"], ["type"], ["flags"], ["data"] are
    always present, ["meta"] only on parsed and synthetic records. *)
Record Entry : Set := mkEntry {
  e_id : Z;
  e_type : Z;
  e_flags : Z;
  e_meta : option Meta;
  e_data : list byte
}.

(** [(e.get('meta') or {}).get('sub')] *)
Definition entry_sub (e : Entry) : option pyint :=
  match e_meta e with
  | Some m => meta_sub m
  | None => None
  end.

(** [(e.get('meta') or {}).get('sub') == v] *)
Definition entry_sub_is (e : Entry) (v : Z) : bool :=
  match entry_sub e with
  | Some (PyInt z) => z =? v
  | _ => false
  end.

(** [int(meta.get('sub') or 0)] *)
Definition entry_sub_or0 (e : Entry) : Z :=
  match entry_sub e with
  | Some (PyInt z) => z
  | _ => 0
  end.

(** [max([e.get('id', 0) for e in entries] + [0])] *)
Definition max_id (entries : list Entry) : Z :=
  foldr Z.max 0 (e_id <$> entries).

(** The value stored under the key ["checksum"] of a device specification. *)
Inductive ChecksumSpec : Set :=
| ChkObject (type_ : option string)
    (* an object; [type_] is its ["type"] when that is a string *)
| ChkNotObject.
    (* [null], a number, a string or a list: a value without [.get] *)

(** The device specification read from the JSON file given by [--spec]: an
    object whose ["manufacturerId"] is a list of integers (the empty list
    when the key is absent), whose ["familyId"] and ["editor"] are integers
    ([None] when the key is absent or [null]), and whose ["checksum"] is any
    value ([None] when the key is absent). *)
Record DeviceSpec : Set := mkSpec {
  manufacturerId : list Z;
  familyId : option Z;
  editor : option Z;
  checksum_value : option ChecksumSpec
}.

(** ** [plugins/_tools/sysex_pack.py] *)

Module SysexPack.

Definition MAGIC : list byte := [x5a; x50; x4b; x31].  (* b'ZPK1' *)

(** *** Message canonicalizer *)

(** What [_proteus_parse] returns: the dictionary
    [{family, dev, cmd, sub, validChecksum, data}]. *)
Record Parsed : Set := mkParsed {
  p_family : Z;
  p_dev : Z;
  p_cmd : Z;
  p_sub : pyint;
  p_validChecksum : bool;
  p_data : list byte
}.

(** [payload[k]] where the guard on [len(payload)] keeps [k] in range. *)
Definition at_ (payload : list byte) (k : nat) : Z :=
  byte_to_Z (nth k payload x00).

(** [cmd in (0x10, 0x11, 0x18, 0x1A, 0x1B, 0x61)] *)
Definition carries_sub (cmd : Z) : bool :=
  existsb (Z.eqb cmd) [0x10; 0x11; 0x18; 0x1A; 0x1B; 0x61].

(** [sum(b & 0x7F for b in bs)] *)
Definition sum7 (bs : list byte) : Z :=
  foldr (fun b acc => Z.land (byte_to_Z b) 0x7F + acc) 0 bs.

(** [s = sum(b & 0x7F for b in data[:-1]) & 0x7F; chk = (~s) & 0x7F] *)
Definition checksum (data : list byte) : Z :=
  let s := Z.land (sum7 (take (length data - 1) data)) 0x7F in
  Z.land (Z.lnot s) 0x7F.

(** [exp = data[-1] & 0x7F] *)
Definition trailer (data : list byte) : Z :=
  Z.land (byte_to_Z (List.last data x00)) 0x7F.

(** [chkspec = spec.get('checksum', {}); chkspec.get('type')]: the type when
    it is a string, [AttributeError] when [chkspec] is not an object. *)
Definition chkspec_type (spec : DeviceSpec) : result (option string) :=
  match checksum_value spec with
  | None => Ok None
  | Some (ChkObject ty) => Ok ty
  | Some ChkNotObject => Raise AttributeError
  end.

(** The value of ["validChecksum"] in the returned dictionary. *)
Definition checksum_flag (spec : DeviceSpec) (data : list byte) : result bool :=
  ty ← chkspec_type spec;
  match ty with
  | Some ty =>
      if String.eqb ty "ones_complement_7bit" && (1 <=? length data)%nat then
        let exp := trailer data in
        if negb (exp =? 0x7F) then          (* 0x7F can mean ignore *)
          let chk := checksum data in
          if negb (chk =? exp) then Ok false   (* keep but flag invalid *)
          else Ok true
        else Ok true
      else Ok true
  | None => Ok true
  end.

Definition _proteus_parse (payload : list byte) (spec : DeviceSpec)
  : result (option Parsed) :=
  mids ← bytes_of (manufacturerId spec);
  match mids, familyId spec, editor spec with
  | _ :: _, Some fam, Some editor_ =>
      if (length payload <? length mids + 4)%nat then Ok None
      else if negb (bool_decide (take (length mids) payload = mids)) then Ok None
      else
        let off := length mids in
        let family := at_ payload off in
        let dev_id := at_ payload (off + 1) in
        let ed := at_ payload (off + 2) in
        let cmd := at_ payload (off + 3) in
        let data := drop (off + 4) payload in
        let sub :=
          if (1 <=? length data)%nat && carries_sub cmd
          then PyInt (at_ data 0) else PyNone in
        if negb (family =? fam) || negb (ed =? editor_) then Ok None
        else
          valid ← checksum_flag spec data;
          Ok (Some (mkParsed family dev_id cmd sub valid data))
  | _, _, _ => Ok None
  end.

(** [f[1:-1] if len(f) >= 2 else b''] *)
Definition frame_payload (f : list byte) : list byte :=
  if (2 <=? length f)%nat then slice_to_last f 1 else [].

(** One iteration of the loop of [canonize]: the record appended for
    frame [f] with ordinal [idx], or [None] on [continue]. *)
Definition canonize_frame (idx : Z) (f : list byte) (spec : option DeviceSpec)
  : result (option Entry) :=
  let payload := frame_payload f in
  match spec with
  | Some sp =>
      match familyId sp with
      | Some _ =>
          meta ← _proteus_parse payload sp;
          match meta with
          | None => Ok None
          | Some meta =>
              Ok (Some (mkEntry idx (p_cmd meta) 0
                          (Some (MetaParsed (p_family meta) (p_dev meta) (p_cmd meta)
                                   (p_sub meta) (p_validChecksum meta)))
                          (p_data meta)))
          end
      | None => Ok (Some (mkEntry idx 0 0 None payload))
      end
  | None => Ok (Some (mkEntry idx 0 0 None payload))
  end.

(** The loop of [canonize] from ordinal [idx] on; an exception raised for
    one frame ends the loop. *)
Fixpoint canonize_from (idx : Z) (frames : list (list byte))
    (spec : option DeviceSpec) : result (list Entry) :=
  match frames with
  | [] => Ok []
  | f :: fs =>
      kept ← canonize_frame idx f spec;
      arr ← canonize_from (idx + 1) fs spec;
      match kept with
      | Some e => Ok (e :: arr)
      | None => Ok arr
      end
  end.

Definition canonize (frames : list (list byte)) (spec : option DeviceSpec)
  : result (list Entry) :=
  canonize_from 0 frames spec.

(** *** Preset assembler *)

(** [t == 0x10 and sub in (0x02, 0x04) and len(data) >= 3] *)
Definition is_packet (e : Entry) : bool :=
  (e_type e =? 0x10)
  && ((entry_sub_or0 e =? 0x02) || (entry_sub_or0 e =? 0x04))
  && (3 <=? length (e_data e))%nat.

(** [seq = data[0] | (data[1] << 7)] *)
Definition packet_seq (data : list byte) : Z :=
  Z.lor (at_ data 0) (Z.shiftl (at_ data 1) 7).

(** [payload = data[2:-1]] (drops the checksum byte) *)
Definition packet_payload (data : list byte) : list byte :=
  slice_to_last data 2.

(** The loop over [entries].  [groups] is the [defaultdict]: [None] while it
    is still empty, [Some parts] once [groups[0]] exists.  The list
    [headers] the loop also fills is never read and is left out. *)
Definition collect (groups : option (gmap Z (list byte))) (e : Entry)
  : option (gmap Z (list byte)) :=
  if is_packet e then
    Some (<[packet_seq (e_data e) := packet_payload (e_data e)]>
            (default ∅ groups))
  else groups.

(** [for i in sorted(parts.keys()): assembled += parts[i]] *)
Definition concat_sorted (parts : gmap Z (list byte)) : list byte :=
  concat ((fun i => default [] (parts !! i))
            <$> merge_sort Z.le (fst <$> map_to_list parts)).

(** The synthetic record holding the reassembled blob. *)
Definition assembled_entry (id : Z) (assembled : list byte) : Entry :=
  mkEntry id 0x10 0 (Some MetaAssembled) assembled.

Definition assemble_preset (entries : list Entry) : list Entry :=
  match foldl collect None entries with
  | Some parts =>
      let assembled := concat_sorted parts in
      match assembled with
      | _ :: _ => entries ++ [assembled_entry (max_id entries + 1) assembled]
      | [] => entries
      end
  | None => entries
  end.

(** *** Header-driven segmenter *)

Record Counts : Set := mkCounts {
  PCGen : Z; Reserved : Z; PCEfx : Z; PCLinks : Z; Layers : Z;
  LayGen : Z; LayFilt : Z; LayLFO : Z; LayEnv : Z; LayCords : Z
}.

Record PresetHeader : Set := mkPresetHeader {
  h_sub : Z;
  h_preset : Z;
  h_data_bytes : Z;
  h_counts : Counts
}.

Definition _parse_preset_header_blob (blob : list byte) : option PresetHeader :=
  if (length blob <? 1 + 2 + 4 + 10)%nat then None
  else
    let sub := at_ blob 0 in
    let preset := Z.lor (at_ blob 1) (Z.shiftl (at_ blob 2) 8) in
    let data_bytes :=
      Z.lor (Z.lor (Z.lor (at_ blob 3) (Z.shiftl (at_ blob 4) 8))
               (Z.shiftl (at_ blob 5) 16)) (Z.shiftl (at_ blob 6) 24) in
    let counts := slice blob 7 17 in
    Some (mkPresetHeader sub preset data_bytes
            (mkCounts (at_ counts 0) (at_ counts 1) (at_ counts 2) (at_ counts 3)
               (at_ counts 4) (at_ counts 5) (at_ counts 6) (at_ counts 7)
               (at_ counts 8) (at_ counts 9))).

(** [next((e for e in entries if int(e['type']) == 0x10 and
          (e.get('meta') or {}).get('sub') == v), None)] *)
Definition find_sub (entries : list Entry) (v : Z) : option Entry :=
  List.find (fun e => (e_type e =? 0x10) && entry_sub_is e v) entries.

(** The synthetic record of one carved layer-filter chunk. *)
Definition layer_filter_entry (id i : Z) (chunk : list byte) : Entry :=
  mkEntry id 0x10 0 (Some (MetaLayerFilter i)) chunk.

(** [for i in range(lay_filt)]: [n] iterations are left, the next has
    index [i]; every iteration appends one record and bumps [next_id]. *)
Fixpoint carve (n : nat) (i : nat) (filt_blob : list byte)
    (entries : list Entry) (next_id : Z) : list Entry :=
  match n with
  | O => entries
  | S n' =>
      let chunk := slice filt_blob (i * 14) ((i + 1) * 14) in
      carve n' (S i) filt_blob
        (entries ++ [layer_filter_entry next_id (Z.of_nat i) chunk])
        (next_id + 1)
  end.

Definition segment_assembled (entries : list Entry) : list Entry :=
  match find_sub entries 0x01, find_sub entries 0xFE with
  | Some header, Some assembled =>
      let hdr_data := e_data header in
      let asm_data := e_data assembled in
      match _parse_preset_header_blob hdr_data with
      | None => entries
      | Some hdr =>
          let lay_filt := LayFilt (h_counts hdr) in
          let lay_env := LayEnv (h_counts hdr) in
          let need := lay_filt * 14 + lay_env * 92 in
          if (need =? 0) || (need >? Z.of_nat (length asm_data)) then entries
          else
            let tail := slice_tail asm_data (Z.to_nat need) in
            let filt_blob := slice tail 0 (Z.to_nat (lay_filt * 14)) in
            let next_id := max_id entries + 1 in
            carve (Z.to_nat lay_filt) 0 filt_blob entries next_id
      end
  | _, _ => entries
  end.

(** *** Coefficient synthesizer hook *)

Section Zmf1.

(** The pole tables of [models.json] and the bytes [generate_zmf1_entry]
    serialises from them are floating-point data; the pipeline only
    moves them around, so they are taken as given. *)
Variable ModelData : Type.

(** [load_zplane_models()]: [None] when the file is missing, unreadable
    or empty, otherwise the table it holds under the key ["models"] (a
    loaded file is taken to have that key and well-formed pole tables). *)
Variable models : option (gmap string ModelData).

(** [generate_zmf1_entry(model_idx, model_data)] *)
Variable generate_zmf1_entry : Z -> ModelData -> list byte.

(** [['vowel_pair', 'bell_pair', 'low_pair'][model_idx]] *)
Definition model_name (model_idx : Z) : string :=
  if model_idx =? 0 then "vowel_pair"%string
  else if model_idx =? 1 then "bell_pair"%string
  else "low_pair"%string.

(** The loop over [entries]: [augmented] grows, [next_id] is bumped after
    every appended record. *)
Fixpoint augment_loop (table : gmap string ModelData) (todo : list Entry)
    (augmented : list Entry) (next_id : Z) : list Entry :=
  match todo with
  | [] => augmented
  | entry :: todo' =>
      if (e_type entry =? 0x10) && entry_sub_is entry 0x22 then
        let data := e_data entry in
        if (14 <=? length data)%nat then
          let model_idx := at_ data 0 mod 3 in
          let name := model_name model_idx in
          match table !! name with
          | Some model_data =>
              let zmf1_data := generate_zmf1_entry model_idx model_data in
              augment_loop table todo'
                (augmented ++
                   [mkEntry next_id 0x5A4D 0x4631
                      (Some (MetaZmf1 name (e_id entry))) zmf1_data])
                (next_id + 1)
          | None => augment_loop table todo' augmented next_id
          end
        else augment_loop table todo' augmented next_id
      else augment_loop table todo' augmented next_id
  end.

Definition augment_with_zmf1 (entries : list Entry) : list Entry :=
  match models with
  | None => entries
  | Some table => augment_loop table entries entries (max_id entries + 1)
  end.

(** The record pipeline of [main], from frames to the packer's input. *)
Definition pipeline (frames : list (list byte)) (spec : option DeviceSpec)
  : result (list Entry) :=
  entries ← canonize frames spec;
  Ok (augment_with_zmf1 (segment_assembled (assemble_preset entries))).

End Zmf1.

(** *** Container packer *)

(** [int((e.get('meta', {}) or {}).get('sub', 0))]: the default [0] is
    used only when the key is absent; a stored [None] reaches [int]. *)
Definition pack_sub (e : Entry) : result Z :=
  match entry_sub e with
  | None => Ok 0
  | Some (PyInt z) => Ok z
  | Some PyNone => Raise TypeError
  end.

Definition entry_size : nat := 4 + 2 + 2 + 2 + 4 + 4.

(** The loop over [entries] with its three accumulators. *)
Fixpoint pack_loop (entries : list Entry) (table blobs : list byte)
    (offset : Z) : result (list byte * list byte) :=
  match entries with
  | [] => Ok (table, blobs)
  | e :: rest =>
      let data := e_data e in
      let etype := e_type e in
      sub ← pack_sub e;
      let flags := e_flags e in
      row ← Struct.pack_IHHHII (e_id e) etype sub flags offset
              (Z.of_nat (length data));
      pack_loop rest (table ++ row) (blobs ++ data)
        (offset + Z.of_nat (length data))
  end.

Definition pack (entries : list Entry) : result (list byte) :=
  version ← Struct.pack_H 1;
  count ← Struct.pack_H (Z.of_nat (length entries));
  let header := MAGIC ++ version ++ count in
  let offset := Z.of_nat (4 + 2 + 2 + length entries * entry_size) in
  '(table, blobs) ← pack_loop entries [] [] offset;
  mret (header ++ table ++ blobs).

(** *** Pole pair to biquad coefficients *)

(** Python's two-argument [max] and [min] keep their first argument unless
    the second is strictly greater (smaller); a NaN never is. *)
Definition py_max (a b : float) : float := if PrimFloat.ltb a b then b else a.
Definition py_min (a b : float) : float := if PrimFloat.ltb b a then b else a.

Section Coefficients.

(** [math.cos]: the cosine of the C library, [ValueError] on an infinite
    argument. *)
Variable math_cos : float -> result float.

Definition poles_to_biquad_coeffs (r theta : float)
  : result (float * float * float * float * float) :=
  c ← math_cos theta;
  let a1 := PrimFloat.mul (PrimFloat.mul (-2.0)%float r) c in
  let a2 := PrimFloat.mul r r in
  let b0 := PrimFloat.mul (PrimFloat.sub 1.0%float r) 0.5%float in
  let b1 := 0.0%float in
  let b2 := PrimFloat.opp b0 in
  let a1 := py_max (-1.999)%float (py_min 1.999%float a1) in
  let a2 := py_max (-0.999)%float (py_min 0.999%float a2) in
  Ok (b0, b1, b2, a1, a2).

End Coefficients.

End SysexPack.

(** ** [plugins/_tools/pack_index.py] *)

Module PackIndex.

(** One dictionary of the returned list. *)
Record IndexEntry : Set := mkIndexEntry {
  ix_id : Z;
  ix_type : Z;
  ix_sub : Z;
  ix_flags : Z;
  ix_offset : Z;
  ix_length : Z
}.

Definition esz : nat := 4 + 2 + 2 + 2 + 4 + 4.

(** [for i in range(count)]: [n] iterations are left, the next reads
    table row [i]. *)
Fixpoint scan_rows (b : list byte) (n : nat) (i : nat)
  : result (list IndexEntry) :=
  match n with
  | O => Ok []
  | S n' =>
      '(id_, typ, sub, flags, offd, ln) ←
        Struct.unpack_from_IHHHII b (8 + i * esz);
      rest ← scan_rows b n' (S i);
      mret (mkIndexEntry id_ typ sub flags offd ln :: rest)
  end.

(** [scan_pack] on the bytes read from the file: [Ok None] is the
    [return None] of an unrecognised container. *)
Definition scan_pack (b : list byte) : result (option (list IndexEntry)) :=
  if negb (bool_decide (take 4 b = SysexPack.MAGIC)) then Ok None
  else
    '(ver, count) ← Struct.unpack_from_HH b 4;
    if negb (ver =? 1) then Ok None
    else
      entries ← scan_rows b (Z.to_nat count) 0;
      mret (Some entries).

(** [b[offd:offd+ln]] for the entry [x] of the table. *)
Definition entry_bytes (b : list byte) (x : IndexEntry) : list byte :=
  slice b (Z.to_nat (ix_offset x)) (Z.to_nat (ix_offset x + ix_length x)).

End PackIndex.

(** ** [plugins/_tools/dump_layer_filters.py] *)

Module DumpLayerFilters.

(** The ["decode"] dictionary of one 14-byte layer-filter record. *)
Record Decode : Set := mkDecode {
  filterType : Z;
  cutoff : Z;
  q : Z;
  morphIndex : Z;
  morphDepth : Z;
  tilt : Z;
  reserved : list byte
}.

(** One dictionary of the returned list (the ["pack"] path is left out). *)
Record Sample : Set := mkSample {
  s_id : Z;
  s_type : Z;
  s_sub : Z;
  s_bytes : list byte;
  s_decode : Decode
}.

Definition esz : nat := 4 + 2 + 2 + 2 + 4 + 4.

Definition decode (data : list byte) : result Decode :=
  d0 ← index data 0; d1 ← index data 1; d2 ← index data 2;
  d3 ← index data 3; d4 ← index data 4;
  d5 ← index data 5;
  mret (mkDecode d0 d1 d2 d3 d4 (if d5 <? 128 then d5 else d5 - 256)
          (slice data 6 14)).

Fixpoint scan_rows (b : list byte) (n : nat) (i : nat) : result (list Sample) :=
  match n with
  | O => Ok []
  | S n' =>
      '(id_, typ, sub, flags, offd, ln) ←
        Struct.unpack_from_IHHHII b (8 + i * esz);
      if (typ =? 0x10) && (sub =? 0x22) && (ln =? 14) then
        let data := slice b (Z.to_nat offd) (Z.to_nat (offd + ln)) in
        dec ← decode data;
        rest ← scan_rows b n' (S i);
        mret (mkSample id_ typ sub data dec :: rest)
      else scan_rows b n' (S i)
  end.

Definition scan_pack (b : list byte) : result (list Sample) :=
  if negb (bool_decide (take 4 b = SysexPack.MAGIC)) then Ok []
  else
    '(ver, count) ← Struct.unpack_from_HH b 4;
    if negb (ver =? 1) then Ok []
    else scan_rows b (Z.to_nat count) 0.

End DumpLayerFilters.

(** ** [tools/extraction/syx_tools.py] *)

Module SyxTools.

Definition F0 : byte := xf0.
Definition F7 : byte := xf7.

(** The two nested scans of [iter_sysex_messages] as one pass over the
    buffer.  [cur = None]: looking for [F0] (the inner [while] on [i]);
    [cur = Some acc]: inside a message, [acc] holds its bytes so far in
    reverse (the [while] on [j]).  A message that is not closed by the end
    of the buffer is not yielded. *)
Fixpoint iter_from (cur : option (list byte)) (blob : list byte)
  : list (list byte) :=
  match blob with
  | [] => []
  | b :: rest =>
      match cur with
      | None =>
          if bool_decide (b = F0) then iter_from (Some [b]) rest
          else iter_from None rest
      | Some acc =>
          if bool_decide (b = F7) then rev (b :: acc) :: iter_from None rest
          else iter_from (Some (b :: acc)) rest
      end
  end.

Definition iter_sysex_messages (blob : list byte) : list (list byte) :=
  iter_from None blob.

(** [payload[i] | (((msb >> k) & 1) << 7)] *)
Definition with_msb (msb : Z) (k : Z) (b : byte) : Z :=
  Z.lor (byte_to_Z b) (Z.shiftl (Z.land (Z.shiftr msb k) 1) 7).

(** The loops of [unpack_7bit] as one pass over the payload.  [st = None]:
    at the top of the [while], the next byte is read as [msb];
    [st = Some (msb, k)]: inside [for k in range(7)], the next byte is a
    data byte.  Either loop stops when the payload is exhausted. *)
Fixpoint unpack_from (st : option (Z * Z)) (payload : list byte) : list byte :=
  match payload with
  | [] => []
  | b :: rest =>
      match st with
      | None => unpack_from (Some (byte_to_Z b, 0)) rest
      | Some (msb, k) =>
          byte_of_Z (with_msb msb k b)
            :: unpack_from (if k + 1 <? 7 then Some (msb, k + 1) else None) rest
      end
  end.

Definition unpack_7bit (payload : list byte) : list byte :=
  unpack_from None payload.

(** [any(b & 0x80 for b in core)] *)
Definition any_high_bit (core : list byte) : bool :=
  existsb (fun b => negb (Z.land (byte_to_Z b) 0x80 =? 0)) core.

(** The body of the loop of [split_and_unpack] for one message [m]. *)
Definition unpack_message (m : list byte) : list byte :=
  let core := slice_to_last m 1 in
  if any_high_bit core then core      (* likely already unpacked *)
  else unpack_7bit core.

(** [split_and_unpack] on the bytes read from the file. *)
Definition split_and_unpack (raw : list byte) : list (list byte) :=
  unpack_message <$> iter_sysex_messages raw.

(** The payload unpacker on core bytes (delimiters already stripped). *)
Definition unpack_core (core : list byte) : list byte :=
  if any_high_bit core then core else unpack_7bit core.

(** *** The unpacker as the specification words it *)


(** One group: a leading byte, then up to 7 data bytes; output byte [k] is
    [data[k] | ((leadByte >> k) & 1) << 7]. *)
Definition decode_group (g : list byte) : list byte :=
  match g with
  | [] => []
  | lead :: data =>
      imap (fun k d => byte_of_Z (with_msb (byte_to_Z lead) (Z.of_nat k) d)) data
  end.


End SyxTools.

(** * Specification vocabulary *)

Module Container.
Import PackIndex.

(** The entry table [pack] lays out for [entries] when the running
    [offset] starts at the given value. *)
Fixpoint table_of (entries : list Entry) (offset : Z) : list IndexEntry :=
  match entries with
  | [] => []
  | e :: rest =>
      let len := Z.of_nat (length (e_data e)) in
      mkIndexEntry (e_id e) (e_type e) (entry_sub_or0 e) (e_flags e) offset len
        :: table_of rest (offset + len)
  end.

(** Where the blob region starts: [4 + 2 + 2 + len(entries) * entry_size]. *)
Definition blob_start (entries : list Entry) : Z :=
  8 + 18 * Z.of_nat (length entries).

(** The fields of a table row fit their declared widths. *)
Definition row_fits (x : IndexEntry) : Prop :=
  0 <= ix_id x < 2 ^ 32 /\ 0 <= ix_type x < 2 ^ 16 /\
  0 <= ix_sub x < 2 ^ 16 /\ 0 <= ix_flags x < 2 ^ 16 /\
  0 <= ix_offset x < 2 ^ 32 /\ 0 <= ix_length x < 2 ^ 32.

(** A record collection [pack] can serialise: at most 65535 records, every
    stored subtype an integer, every field within its width. *)
Definition fits (entries : list Entry) : Prop :=
  Z.of_nat (length entries) <= 65535 /\
  Forall (fun e => entry_sub e <> Some PyNone) entries /\
  Forall row_fits (table_of entries (blob_start entries)).

(** The 18 bytes of one table row. *)
Definition encode_row (x : IndexEntry) : list byte :=
  Struct.le_bytes 4 (ix_id x) ++ Struct.le_bytes 2 (ix_type x) ++
  Struct.le_bytes 2 (ix_sub x) ++ Struct.le_bytes 2 (ix_flags x) ++
  Struct.le_bytes 4 (ix_offset x) ++ Struct.le_bytes 4 (ix_length x).


(** The 8 header bytes: magic, version 1, count. *)
Definition header_bytes (n : nat) : list byte :=
  SysexPack.MAGIC ++ Struct.le_bytes 2 1 ++ Struct.le_bytes 2 (Z.of_nat n).

(** The container [pack] produces for a collection it can serialise. *)
Definition container_of (entries : list Entry) : list byte :=
  header_bytes (length entries)
    ++ concat (encode_row <$> table_of entries (blob_start entries))
    ++ concat (e_data <$> entries).

(** The total number of payload bytes of a collection. *)
Definition total_length (entries : list Entry) : Z :=
  Z.of_nat (length (concat (e_data <$> entries))).

End Container.

Module Segmenter.
Import SysexPack.

(** [need = lay_filt * 14 + lay_env * 92] for a decoded header. *)
Definition need (hdr : PresetHeader) : Z :=
  LayFilt (h_counts hdr) * 14 + LayEnv (h_counts hdr) * 92.

(** A header record as the segmenter looks for it: type 0x10, subtype 0x01. *)
Definition is_header (e : Entry) : bool :=
  (e_type e =? 0x10) && entry_sub_is e 0x01.

(** An assembled record: type 0x10, subtype 0xFE. *)
Definition is_assembled (e : Entry) : bool :=
  (e_type e =? 0x10) && entry_sub_is e 0xFE.

(** A record of type 0x10 whose stored subtype is the integer [v]. *)
Definition has_subtype (v : Z) (e : Entry) : Prop :=
  e_type e = 0x10 /\ entry_sub e = Some (PyInt v).

(** [e] is the first record of the collection with the property [P]. *)
Definition first_with (P : Entry -> Prop) (entries : list Entry) (e : Entry)
  : Prop :=
  exists before after,
    entries = before ++ e :: after /\ Forall (fun x => ~ P x) before /\ P e.

End Segmenter.

Module Assembler.
Import SysexPack.

(** The continuation packets of a collection, in collection order. *)
Definition packets (entries : list Entry) : list Entry :=
  filter (fun e => is_packet e = true) entries.

(** The sequence number and the payload the assembler reads off a packet. *)
Definition seq_of (e : Entry) : Z := packet_seq (e_data e).
Definition payload_of (e : Entry) : list byte := packet_payload (e_data e).

(** [groups[0][seq] = payload] for one packet. *)
Definition store (parts : gmap Z (list byte)) (e : Entry) : gmap Z (list byte) :=
  <[seq_of e := payload_of e]> parts.

(** Packets ordered by sequence number. *)
Definition seq_le (a b : Entry) : Prop := seq_of a <= seq_of b.

#[global] Instance seq_le_dec a b : Decision (seq_le a b) := Z_le_dec _ _.

End Assembler.

Module Continuation.

(** A continuation packet as the specification describes it: type 0x10,
    subtype 0x02 or 0x04, at least 3 data bytes. *)
Definition is_continuation (e : Entry) : Prop :=
  e_type e = 0x10 /\
  (entry_sub e = Some (PyInt 0x02) \/ entry_sub e = Some (PyInt 0x04)) /\
  (3 <= length (e_data e))%nat.

#[global] Instance pyint_eq_dec : EqDecision pyint.
Proof. solve_decision. Defined.

#[global] Instance is_continuation_dec e : Decision (is_continuation e).
Proof. unfold is_continuation. apply _. Defined.

(** The continuation packets of a collection, in collection order. *)
Definition continuation_packets (entries : list Entry) : list Entry :=
  filter is_continuation entries.

(** The sequence number [data[0] | (data[1] << 7)]. *)
Definition sequence_number (e : Entry) : Z :=
  match e_data e with
  | d0 :: d1 :: _ => Z.lor (byte_to_Z d0) (Z.shiftl (byte_to_Z d1) 7)
  | _ => 0
  end.

(** The payload [data[2:-1]]: what follows the two sequence bytes, without
    the final checksum byte. *)
Definition payload_bytes (e : Entry) : list byte :=
  removelast (drop 2 (e_data e)).

(** Packets ordered by sequence number. *)
Definition by_sequence (a b : Entry) : Prop :=
  sequence_number a <= sequence_number b.

#[global] Instance by_sequence_dec a b : Decision (by_sequence a b) :=
  Z_le_dec _ _.

(** The packets of a collection in ascending sequence order, and the
    concatenation of their payloads. *)
Definition in_sequence (entries : list Entry) : list Entry :=
  merge_sort by_sequence (continuation_packets entries).

Definition payloads_in_sequence (entries : list Entry) : list byte :=
  concat (payload_bytes <$> in_sequence entries).

End Continuation.

Module Canonicalizer.
Import SysexPack.

(** The checksum as the specification writes it:
    [(~sum(b & 0x7F for b in data[:-1])) & 0x7F]. *)
Definition ones_complement_7bit (data : list byte) : Z :=
  Z.land
    (Z.lnot (foldr Z.add 0 ((fun b => Z.land (byte_to_Z b) 0x7F) <$> removelast data)))
    0x7F.

(** The declared trailer [data[-1] & 0x7F] of a non-empty data block. *)
Definition declared_trailer (data : list byte) : Z :=
  match reverse data with
  | b :: _ => Z.land (byte_to_Z b) 0x7F
  | [] => 0
  end.

(** A specification [_proteus_parse] can work with: the manufacturer prefix
    holds byte values and the ["checksum"] entry, when present, is an
    object. *)
Definition well_formed (spec : DeviceSpec) : Prop :=
  Forall (fun v => 0 <= v < 256) (manufacturerId spec) /\
  checksum_value spec <> Some ChkNotObject.

(** The manufacturer prefix as bytes. *)
Definition prefix_of (spec : DeviceSpec) : list byte :=
  byte_of_Z <$> manufacturerId spec.

(** The body of a message as the canonicalizer reads it: manufacturer
    prefix, then family, device id, editor and command bytes, then data. *)
Definition message (mids : list byte) (family dev ed cmd : byte)
    (data : list byte) : list byte :=
  mids ++ family :: dev :: ed :: cmd :: data.

(** A payload addressed to the device of a specification: the manufacturer
    prefix (of byte values, not empty), then the family byte and the editor
    byte the specification names, with a device id between them, then a
    command and the data. *)
Definition addressed (spec : DeviceSpec) (payload : list byte)
    (family dev ed cmd : byte) (data : list byte) : Prop :=
  Forall (fun v => 0 <= v < 256) (manufacturerId spec) /\
  manufacturerId spec <> [] /\
  familyId spec = Some (byte_to_Z family) /\
  editor spec = Some (byte_to_Z ed) /\
  payload = message (prefix_of spec) family dev ed cmd data.

(** The subtype the canonicalizer records for a command. *)
Definition subtype_of (cmd : byte) (data : list byte) : pyint :=
  if (1 <=? length data)%nat && carries_sub (byte_to_Z cmd)
  then PyInt (at_ data 0) else PyNone.

(** The E-mu Proteus device specification ([F0 18 0F dd 55 ...]). *)
Definition proteus_spec : DeviceSpec :=
  mkSpec [0x18] (Some 0x0F) (Some 0x55)
    (Some (ChkObject (Some "ones_complement_7bit"%string))).

End Canonicalizer.

Module Ids.

(** The ids of freshly appended records: the first is [next], each
    following one is one more. *)
Fixpoint counts_up (next : Z) (new : list Entry) : Prop :=
  match new with
  | [] => True
  | s :: rest => e_id s = next /\ counts_up (next + 1) rest
  end.

(** A stage that only appends records, with ids counting up from the
    maximum of the existing ids plus one, all above every existing id. *)
Definition appends_fresh (stage : list Entry -> list Entry) : Prop :=
  forall entries, exists new,
    stage entries = entries ++ new /\
    counts_up (max_id entries + 1) new /\
    (forall s e, s ∈ new -> e ∈ entries -> e_id e < e_id s).

(** [m] is the running maximum of the ids: the largest id of the collection,
    or 0 when no id is larger. *)
Definition running_max (entries : list Entry) (m : Z) : Prop :=
  0 <= m /\ Forall (fun e => e_id e <= m) entries /\
  (m = 0 \/ Exists (fun e => e_id e = m) entries).

End Ids.

Module Biquad.

(** The feedback coefficients of the quintuple [(b0, b1, b2, a1, a2)]. *)
Definition a1_of (c : float * float * float * float * float) : float :=
  snd (fst c).
Definition a2_of (c : float * float * float * float * float) : float :=
  snd c.



(** The exact value of a finite binary64 number, as the integer
    [x * 2^1074]. *)
Definition exact (x : float) : option Z :=
  match Prim2SF x with
  | S754_zero _ => Some 0
  | S754_finite s m e =>
      Some ((if s then -1 else 1) * Z.pos m * 2 ^ (e + 1074))
  | _ => None
  end.

End Biquad.

(** * Example inputs *)

Module Examples.
Import SysexPack Canonicalizer SyxTools.

(** A SysEx frame [F0 18 0F 00 55 12 7F F7]: an E-mu message whose command
    [0x12] carries no subtype byte. *)
Definition frame_cmd12 : list byte :=
  [xf0; x18; x0f; x00; x55; x12; x7f; xf7].

Definition two_records : list Entry :=
  [mkEntry 0 0x10 0 None [x01; x02; x03]; mkEntry 1 0x10 0 (Some MetaAssembled) [x04]].

(** The example of the specification: a header with [LayFilt = 3],
    [LayEnv = 0] and an assembled blob of 42 bytes. *)
Definition header_3_0 : Entry :=
  mkEntry 0 0x10 0 (Some (MetaParsed 0x0F 0 0x10 (PyInt 0x01) true))
    [x01; x00; x00; x2a; x00; x00; x00;
     x00; x00; x00; x00; x01; x00; x03; x00; x00; x00].

Definition blob_42 : list byte :=
  [x01; x02; x03; x04; x05; x06; x07; x08; x09; x0a; x0b; x0c; x0d; x0e;
   x11; x12; x13; x14; x15; x16; x17; x18; x19; x1a; x1b; x1c; x1d; x1e;
   x21; x22; x23; x24; x25; x26; x27; x28; x29; x2a; x2b; x2c; x2d; x2e].

Definition preset_3_0 : list Entry :=
  [header_3_0; mkEntry 1 0x10 0 (Some MetaAssembled) blob_42].

(** A raw record followed by a layer-filter record: type 0x10, subtype
    0x22, 14 data bytes. *)
Definition with_layer_filter : list Entry :=
  [mkEntry 0 0 0 None [x01; x02; x03];
   mkEntry 7 0x10 0 (Some (MetaLayerFilter 0))
     [x01; x02; x03; x04; x05; x86; x07; x08; x09; x0a; x0b; x0c; x0d; x0e]].

(** Three continuation packets with sequence numbers 2, 0, 1, submitted in
    that order. *)
Definition packet (id : Z) (data : list byte) : Entry :=
  mkEntry id 0x10 0 (Some (MetaParsed 0x0F 0 0x10 (PyInt 0x02) true)) data.

Definition scrambled : list Entry :=
  [packet 0 [x02; x00; xc1; xc2; x7f];
   packet 1 [x00; x00; xa1; xa2; x7f];
   packet 2 [x01; x00; xb1; x7f]].

(** The example of the specification: [data = [0x10, 0x20, 0x30, chk]]. *)
Definition example_frame (chk : byte) : list byte :=
  xf0 :: message [x18] x0f x00 x55 x12 [x10; x20; x30; chk] ++ [xf7].

Definition example_record (chk : byte) (valid : bool) : Entry :=
  mkEntry 0 0x12 0 (Some (MetaParsed 0x0F 0 0x12 PyNone valid)) [x10; x20; x30; chk].

Definition packed_core : list byte :=
  [x05; x01; x02; x03; x04; x05; x06; x07; x7f].

End Examples.

(** * The rest of the cited files and their callers *)

(** ** [plugins/_tools/sysex_pack.py]: frame extractor, second unpacker,
       sidecar summary *)

Module SysexPackRest.
Import SysexPack.

(** The inner [while] of [extract_frames]: the bytes from [j = i + 1] up to
    the first 0xF7, or [None] when the buffer ends first. *)
Fixpoint body_to_F7 (l : list byte) : option (list byte) :=
  match l with
  | [] => None
  | b :: rest =>
      if bool_decide (b = xf7) then Some []
      else cons b <$> body_to_F7 rest
  end.

(** The outer [while] as one pass over the buffer.  [skip] counts the bytes
    the index still has to jump over after [i = j + 1]; with [skip = 0] the
    head of the list is [raw[i]]. *)
Fixpoint extract_from (skip : nat) (raw : list byte) : list (list byte) :=
  match raw with
  | [] => []
  | b :: rest =>
      match skip with
      | S k => extract_from k rest
      | O =>
          if bool_decide (b = xf0) then
            match body_to_F7 rest with
            | Some body =>                   (* frames.append(raw[i:j+1]); i = j + 1 *)
                (b :: body ++ [xf7]) :: extract_from (S (length body)) rest
            | None => extract_from 0 rest    (* i += 1 *)
            end
          else extract_from 0 rest
      end
  end.

Definition extract_frames (raw : list byte) : list (list byte) :=
  extract_from 0 raw.

(** [b | (((msb >> k) & 1) << 7)] *)
Definition or_msb (msb : Z) (k : nat) (b : byte) : Z :=
  Z.lor (byte_to_Z b) (Z.shiftl (Z.land (Z.shiftr msb (Z.of_nat k)) 1) 7).

(** The [while] of [unpack7]; [block] is what is left from index [i] on,
    [fuel] bounds the number of iterations. *)
Fixpoint unpack7_loop (fuel : nat) (block : list byte) : list byte :=
  match fuel with
  | O => []
  | S fuel' =>
      match block with
      | [] => []
      | _ :: _ =>
          let chunk := take 8 block in
          if (length chunk <? 2)%nat then []          (* break *)
          else
            let msb := at_ chunk 0 in
            imap (fun k b => byte_of_Z (or_msb msb k b)) (drop 1 chunk)
              ++ unpack7_loop fuel' (drop 8 block)
      end
  end.

Definition unpack7 (block : list byte) : list byte :=
  unpack7_loop (length block) block.

(** One dictionary of the sidecar's ["entries"] list. *)
Record SidecarRow : Set := mkSidecarRow {
  sc_id : Z;
  sc_type : Z;
  sc_sub : Z;
  sc_flags : Z;
  sc_length : Z;
  sc_bytes : option (list byte)
}.

(** The body of the loop of [write_sidecar_json]. *)
Definition sidecar_row (e : Entry) : SidecarRow :=
  let rec_type := e_type e in
  let rec_sub := entry_sub_or0 e in
  let rec_length := Z.of_nat (length (e_data e)) in
  mkSidecarRow (e_id e) rec_type rec_sub (e_flags e) rec_length
    (if (rec_type =? 0x10) && (rec_sub =? 0x22) && (rec_length =? 14)
     then Some (e_data e) else None).

(** The object handed to [json.dumps]: [{'count': len(out), 'entries': out}]. *)
Record Sidecar : Set := mkSidecar {
  sidecar_count : Z;
  sidecar_entries : list SidecarRow
}.

Definition write_sidecar_json (entries : list Entry) : Sidecar :=
  let out := sidecar_row <$> entries in
  mkSidecar (Z.of_nat (length out)) out.

End SysexPackRest.

(** ** [tools/extraction/syx_tools.py]: message fields *)

Module SyxToolsRest.
Import SysexPack.

Definition is_emu_proteus (msg : list byte) : bool :=
  (6 <=? length msg)%nat
  && (at_ msg 0 =? 0xF0) && (at_ msg 1 =? 0x18) && (at_ msg 2 =? 0x0F).

(** [emu_fields]: [msg[3]] and [msg[5]] raise [IndexError] on a short
    message. *)
Definition emu_fields (msg : list byte) : result (Z * Z * Z * list byte) :=
  dev ← index msg 3;
  cmd ← index msg 5;
  let sub := if (6 <? length msg)%nat then at_ msg 6 else -1 in
  let payload := if (8 <? length msg)%nat then slice_to_last msg 7 else [] in
  mret (dev, cmd, sub, payload).

Definition midi_u14 (lsb msb : Z) : Z :=
  Z.lor (Z.land lsb 0x7F) (Z.shiftl (Z.land msb 0x7F) 7).

End SyxToolsRest.

(** ** [plugins/_tools/pack_index.py]: the per-file summary of [main] *)

Module PackIndexMain.
Import PackIndex.

(** [any(x['type']==0x10 and x['sub']==0x22 for x in e)] *)
Definition has22 (e : list IndexEntry) : bool :=
  existsb (fun x => (ix_type x =? 0x10) && (ix_sub x =? 0x22)) e.

(** [any(x['type']==0x10 and x['sub']==0xFE for x in e)] *)
Definition hasFE (e : list IndexEntry) : bool :=
  existsb (fun x => (ix_type x =? 0x10) && (ix_sub x =? 0xFE)) e.

(** The counters [total], [with_sub22], [with_assembled] and the dictionary
    [out] (file name to entries and flags, in insertion order). *)
Record Report : Set := mkReport {
  total : Z;
  with_sub22 : Z;
  with_assembled : Z;
  packs : list (string * (list IndexEntry * bool * bool))
}.

(** One iteration of the loop over the files, on the name and bytes of the
    file; an exception of [scan_pack] is not caught.  The paths of one
    directory walk are pairwise distinct, so [out[str(p)] = ...] adds a row
    to the dictionary. *)
Definition index_file (r : Report) (p : string) (b : list byte) : result Report :=
  e ← scan_pack b;
  match e with
  | None => mret r                                  (* continue *)
  | Some e =>
      let has22_ := has22 e in
      let hasFE_ := hasFE e in
      mret (mkReport (total r + 1)
              (with_sub22 r + (if has22_ then 1 else 0))
              (with_assembled r + (if hasFE_ then 1 else 0))
              (packs r ++ [(p, (e, has22_, hasFE_))]))
  end.

Fixpoint index_files (r : Report) (files : list (string * list byte))
  : result Report :=
  match files with
  | [] => Ok r
  | (p, b) :: rest => r' ← index_file r p b; index_files r' rest
  end.

Definition index_dir (files : list (string * list byte)) : result Report :=
  index_files (mkReport 0 0 0 []) files.

End PackIndexMain.

(** ** [plugins/_tools/proteus_preset_decode.py] *)

Module ProteusPresetDecode.
Import SysexPack.

(** [read_pack] either leaves through [raise SystemExit] or behaves like an
    ordinary call. *)
Inductive exit_or (A : Type) : Type :=
| SystemExit (msg : string)
| Returns (r : result A).
Arguments SystemExit {A} msg.
Arguments Returns {A} r.

Definition esz : nat := 4 + 2 + 2 + 2 + 4 + 4.

(** [for i in range(count)]: the tuples [(id, typ, sub, flags, offd, ln)]. *)
Fixpoint read_rows (b : list byte) (n : nat) (i : nat)
  : result (list (Z * Z * Z * Z * Z * Z)) :=
  match n with
  | O => Ok []
  | S n' =>
      row ← Struct.unpack_from_IHHHII b (8 + i * esz);
      rest ← read_rows b n' (S i);
      mret (row :: rest)
  end.

(** [read_pack] on the bytes read from the file; the version is read and not
    looked at. *)
Definition read_pack (b : list byte)
  : exit_or (list byte * list (Z * Z * Z * Z * Z * Z)) :=
  if negb (bool_decide (take 4 b = MAGIC)) then SystemExit "Not a ZPK1 pack"
  else
    Returns ('(ver, count) ← Struct.unpack_from_HH b 4;
             entries ← read_rows b (Z.to_nat count) 0;
             mret (b, entries)).

(** [parse_header]: [data[0]] is read before the length is checked.  The
    dictionary has the fields of [PresetHeader], its count keys spelled with
    a leading ['#']. *)
Definition parse_header (data : list byte) : result (option PresetHeader) :=
  sub ← index data 0;
  let p := 1%nat in
  if (length data <? p + 2 + 4 + 10)%nat then mret None
  else
    let preset_lsb := at_ data p in
    let preset_msb := at_ data (p + 1) in
    let p := (p + 2)%nat in
    let data_bytes :=
      Z.lor (Z.lor (Z.lor (at_ data p) (Z.shiftl (at_ data (p + 1)) 8))
               (Z.shiftl (at_ data (p + 2)) 16)) (Z.shiftl (at_ data (p + 3)) 24) in
    let p := (p + 4)%nat in
    let counts := slice data p (p + 10) in
    mret (Some (mkPresetHeader sub (Z.lor preset_lsb (Z.shiftl preset_msb 8))
                  data_bytes
                  (mkCounts (at_ counts 0) (at_ counts 1) (at_ counts 2)
                     (at_ counts 3) (at_ counts 4) (at_ counts 5) (at_ counts 6)
                     (at_ counts 7) (at_ counts 8) (at_ counts 9)))).

(** The dictionary [info] of [main]: key ["header"] (absent, or the result
    of [parse_header]) and key ["assembled_len"] (absent, or a length). *)
Record Info : Set := mkInfo {
  info_header : option (option PresetHeader);
  info_assembled_len : option Z
}.

Definition is_hdr (e : Z * Z * Z * Z * Z * Z) : bool :=
  let '(_, typ, sub, _, _, _) := e in (typ =? 0x10) && (sub =? 0x01).

Definition is_asm (e : Z * Z * Z * Z * Z * Z) : bool :=
  let '(_, typ, sub, _, _, _) := e in (typ =? 0x10) && (sub =? 0xFE).

(** [main] after [read_pack] returned [(b, entries)]. *)
Definition decode_info (b : list byte) (entries : list (Z * Z * Z * Z * Z * Z))
  : result Info :=
  let hdr := List.filter is_hdr entries in
  let asm := List.filter is_asm entries in
  header ←
    match hdr with
    | (_, _, _, _, off, ln) :: _ =>
        let data := slice b (Z.to_nat off) (Z.to_nat (off + ln)) in
        h ← parse_header data; mret (Some h)
    | [] => mret None
    end;
  let assembled_len :=
    match asm with
    | (_, _, _, _, off, ln) :: _ => Some ln
    | [] => None
    end in
  mret (mkInfo header assembled_len).

End ProteusPresetDecode.

(** ** [tools/extraction/generate_filter_requests.py] and
       [tools/extraction/request_filter_params.py] *)

Module FilterRequests.

(** [u16_to_bytes]: two 7-bit bytes, LSB first. *)
Definition u16_to_bytes (value : Z) : Z * Z :=
  let lsb := Z.land value 0x7F in
  let msb := Z.land (Z.shiftr value 7) 0x7F in
  (lsb, msb).

Definition MANUFACTURER_ID : Z := 0x18.
Definition PRODUCT_ID : Z := 0x0F.
Definition COMMAND_PRESET_DUMP_REQUEST : Z := 0x10.
Definition SUBCOMMAND_LAYER_FILTER_PARAMS_DUMP_REQUEST : Z := 0x22.

(** [generate_filter_requests.generate_filter_param_request] *)
Definition generate_filter_param_request
    (device_id preset_number layer_number rom_id : Z) : result (list byte) :=
  let '(preset_lsb, preset_msb) := u16_to_bytes preset_number in
  let '(layer_lsb, layer_msb) := u16_to_bytes layer_number in
  let '(rom_lsb, rom_msb) := u16_to_bytes rom_id in
  bytes_of [0xF0; MANUFACTURER_ID; PRODUCT_ID; device_id; 0x55;
            COMMAND_PRESET_DUMP_REQUEST;
            SUBCOMMAND_LAYER_FILTER_PARAMS_DUMP_REQUEST;
            preset_lsb; preset_msb; layer_lsb; layer_msb; rom_lsb; rom_msb;
            0xF7].

(** [request_filter_params.create_filter_request] *)
Definition create_filter_request (preset_num layer_num rom_id device_id : Z)
  : result (list byte) :=
  bytes_of [0xF0; 0x18; 0x0F; device_id; 0x55; 0x10; 0x22;
            Z.land preset_num 0x7F; Z.land (Z.shiftr preset_num 7) 0x7F;
            Z.land layer_num 0x7F; Z.land (Z.shiftr layer_num 7) 0x7F;
            Z.land rom_id 0x7F; Z.land (Z.shiftr rom_id 7) 0x7F;
            0xF7].

(** [request_filter_params.create_bulk_filter_requests]: presets 0..127,
    layers 0..3; the first failing request aborts the loops. *)
Fixpoint requests_for (pairs : list (Z * Z)) (rom_id device_id : Z)
  : result (list (list byte)) :=
  match pairs with
  | [] => Ok []
  | (preset, layer) :: rest =>
      msg ← create_filter_request preset layer rom_id device_id;
      more ← requests_for rest rom_id device_id;
      mret (msg :: more)
  end.

Definition create_bulk_filter_requests (rom_id device_id : Z)
  : result (list (list byte)) :=
  requests_for
    (preset ← Z.of_nat <$> seq 0 128;
     layer ← Z.of_nat <$> seq 0 4; [(preset, layer)])
    rom_id device_id.

(** [request_filter_params.save_requests_to_file]: the bytes written, every
    message followed by a newline. *)
Definition save_requests_to_file (requests : list (list byte)) : list byte :=
  concat ((fun msg => msg ++ [x0a]) <$> requests).

End FilterRequests.

(** ** [tools/extraction/emu_scrape_presets.py]: payload decoders *)

Module EmuScrapePresets.
Import SysexPack SyxToolsRest.

Definition u16 (lsb msb : Z) : Z :=
  Z.lor (Z.land lsb 0x7F) (Z.shiftl (Z.land msb 0x7F) 7).

(** [for i in range(0, 14, 2)]: [n] pairs are left, the next starts at [i]. *)
Fixpoint filter_vals (payload : list byte) (n : nat) (i : nat) : list Z :=
  match n with
  | O => []
  | S n' =>
      midi_u14 (at_ payload i) (at_ payload (i + 1))
        :: filter_vals payload n' (i + 2)
  end.

Definition decode_filter_params (payload : list byte) : option (list Z) :=
  if negb (length payload =? 14)%nat then None
  else Some (filter_vals payload 7 0).

(** [(pn, rom)], or [None] for fewer than 28 bytes. *)
Definition decode_preset_header (payload : list byte) : option (Z * Z) :=
  if (length payload <? 2 + 4 + 2 * 10 + 2)%nat then None
  else
    let pn := u16 (at_ payload 0) (at_ payload 1) in
    let off := (2 + 4 + 2 * 10)%nat in
    let romL := at_ payload off in
    let romH := at_ payload (off + 1) in
    let rom := u16 romL romH in
    Some (pn, rom).

End EmuScrapePresets.

(** * Vocabulary for the further properties *)

Module Framing.

(** A piece of a buffer: some bytes before a frame, and the frame's body.
    [framed] is the piece as it lies in the buffer, [frame_of] the frame
    alone. *)
Definition framed (piece : list byte * list byte) : list byte :=
  piece.1 ++ xf0 :: piece.2 ++ [xf7].

Definition frame_of (piece : list byte * list byte) : list byte :=
  xf0 :: piece.2 ++ [xf7].

End Framing.

Module RawMode.
Import SysexPack.

(** A record whose fields, other than its place in the container, fit the
    widths of a table row, and whose stored subtype is not [None]. *)
Definition record_fits (e : Entry) : Prop :=
  entry_sub e <> Some PyNone /\
  0 <= e_id e < 2 ^ 32 /\ 0 <= e_type e < 2 ^ 16 /\
  0 <= entry_sub_or0 e < 2 ^ 16 /\ 0 <= e_flags e < 2 ^ 16.

(** The record [canonize] builds for frame [f] with ordinal [i] when no
    device specification applies. *)
Definition raw_record (i : nat) (f : list byte) : Entry :=
  mkEntry (Z.of_nat i) 0 0 None (frame_payload f).

(** [canonize] takes its second branch: no specification, or one without a
    family id. *)
Definition no_family (spec : option DeviceSpec) : Prop :=
  match spec with
  | Some sp => familyId sp = None
  | None => True
  end.

End RawMode.

Module Duplicates.
Import SysexPack Assembler.

(** The payload of the last packet of the collection that carries sequence
    number [k]. *)
Definition last_payload (k : Z) (entries : list Entry) : option (list byte) :=
  payload_of <$> last (filter (fun e => seq_of e = k) (packets entries)).

End Duplicates.

Module LayerFilters.
Import SysexPack DumpLayerFilters.

(** A record the layer-filter tools pick: type 0x10, subtype 0x22, 14 bytes. *)
Definition is_layer_filter (e : Entry) : bool :=
  (e_type e =? 0x10) && (entry_sub_or0 e =? 0x22)
  && (Z.of_nat (length (e_data e)) =? 14).

(** The fields of a layer-filter record of at least 6 bytes. *)
Definition decoded (data : list byte) : Decode :=
  mkDecode (at_ data 0) (at_ data 1) (at_ data 2) (at_ data 3) (at_ data 4)
    (if at_ data 5 <? 128 then at_ data 5 else at_ data 5 - 256)
    (slice data 6 14).

(** The sample the dump tool reports for a layer-filter record. *)
Definition sample_of (e : Entry) : Sample :=
  mkSample (e_id e) (e_type e) (entry_sub_or0 e) (e_data e) (decoded (e_data e)).

(** The tuple [read_pack] builds from a table row. *)
Definition tuple_of (x : PackIndex.IndexEntry) : Z * Z * Z * Z * Z * Z :=
  (PackIndex.ix_id x, PackIndex.ix_type x, PackIndex.ix_sub x,
   PackIndex.ix_flags x, PackIndex.ix_offset x, PackIndex.ix_length x).

End LayerFilters.

Module DumpRows.
Import Struct PackIndex DumpLayerFilters LayerFilters.

(** Row [i] of the entry table of a buffer, as [struct.unpack_from] reads
    it at [8 + i*18]. *)
Definition row_at (b : list byte) (i : nat) : IndexEntry :=
  let off := (8 + i * 18)%nat in
  mkIndexEntry (field b off 4) (field b (off + 4) 2) (field b (off + 6) 2)
    (field b (off + 8) 2) (field b (off + 10) 4) (field b (off + 14) 4).

(** A row the dump picks: type 0x10, subtype 0x22, length 14. *)
Definition picked (x : IndexEntry) : bool :=
  (ix_type x =? 0x10) && (ix_sub x =? 0x22) && (ix_length x =? 14).

(** Fewer than 6 bytes of the buffer lie at and after the row's offset. *)
Definition region_short (b : list byte) (x : IndexEntry) : bool :=
  (length b <? Z.to_nat (ix_offset x) + 6)%nat.

(** The sample of a picked row whose region holds at least 6 bytes. *)
Definition sample_at (b : list byte) (x : IndexEntry) : Sample :=
  mkSample (ix_id x) (ix_type x) (ix_sub x) (entry_bytes b x)
    (decoded (entry_bytes b x)).

End DumpRows.

Module Requests.

(** The request [F0 18 0F dd 55 10 22 xx xx yy yy zz zz F7] for a preset, a
    layer and a ROM id, each as two 7-bit bytes, least significant first. *)
Definition request (preset layer rom dev : Z) : list byte :=
  [xf0; x18; x0f; byte_of_Z dev; x55; x10; x22;
   byte_of_Z (preset mod 128); byte_of_Z (preset / 128 mod 128);
   byte_of_Z (layer mod 128); byte_of_Z (layer / 128 mod 128);
   byte_of_Z (rom mod 128); byte_of_Z (rom / 128 mod 128);
   xf7].

End Requests.

Module IndexRows.
Import PackIndex.

(** A table holds a row of type 0x10 with subtype [v]. *)
Definition has_row (v : Z) (rows : list IndexEntry) : bool :=
  existsb (fun x => (ix_type x =? 0x10) && (ix_sub x =? v)) rows.

(** The row of the index for a file: none unless [scan_pack] recognises the
    file; otherwise the table read from it and the two flags. *)
Definition index_row (file : string * list byte)
  : option (string * (list IndexEntry * bool * bool)) :=
  match scan_pack file.2 with
  | Ok (Some rows) => Some (file.1, (rows, has_row 0x22 rows, has_row 0xFE rows))
  | _ => None
  end.

(** Two files of a directory: one that is no container, and the container
    of the example with a layer-filter record; and the report of their
    index. *)
Definition two_files : list (string * list byte) :=
  [("a.bin"%string, [x00]);
   ("b.bin"%string, Container.container_of Examples.with_layer_filter)].

Definition two_files_report : PackIndexMain.Report :=
  PackIndexMain.mkReport 1 1 0
    [("b.bin"%string,
      ([mkIndexEntry 0 0 0 0 44 3; mkIndexEntry 7 0x10 0x22 0 47 14],
       true, false))].

End IndexRows.

(** * Properties *)

(** ** Bytes and [struct] *)

Lemma byte_to_Z_range (b : byte) : 0 <= byte_to_Z b < 256.
Proof.
  unfold byte_to_Z. pose proof (Byte.to_N_bounded b). lia.
Qed.

Lemma byte_to_of_Z (z : Z) : byte_to_Z (byte_of_Z z) = z mod 256.
Proof.
  unfold byte_to_Z, byte_of_Z.
  pose proof (Z.mod_pos_bound z 256 eq_refl) as Hr.
  pose proof (Byte.to_of_N_option_map (Z.to_N (z mod 256))) as Ho.
  destruct (Byte.of_N (Z.to_N (z mod 256))) as [b|] eqn:E; simpl in *.
  - destruct (Z.to_N (z mod 256) <=? 255)%N; [|discriminate].
    injection Ho as ->. lia.
  - destruct (Z.to_N (z mod 256) <=? 255)%N eqn:L; [discriminate|].
    apply N.leb_gt in L. lia.
Qed.

Lemma byte_of_to_Z (b : byte) : byte_of_Z (byte_to_Z b) = b.
Proof.
  unfold byte_of_Z.
  rewrite Z.mod_small by apply byte_to_Z_range.
  unfold byte_to_Z. rewrite N2Z.id, Byte.of_to_N. reflexivity.
Qed.

Lemma byte_to_Z_inj (a b : byte) : byte_to_Z a = byte_to_Z b -> a = b.
Proof.
  intros H. rewrite <- (byte_of_to_Z a), <- (byte_of_to_Z b). now rewrite H.
Qed.

Lemma result_bind_Ok {A B} (r : result A) (k : A -> result B) (b : B) :
  r ≫= k = Ok b -> exists a, r = Ok a /\ k a = Ok b.
Proof.
  destruct r as [a|e]; simpl; [eauto | discriminate].
Qed.

Module StructFacts.
Import Struct.

Lemma length_le_bytes n v : length (le_bytes n v) = n.
Proof.
  revert v. induction n as [|n IH]; intros v; simpl; [reflexivity|].
  now rewrite IH.
Qed.

Lemma le_value_le_bytes n v :
  0 <= v < 256 ^ Z.of_nat n -> le_value (le_bytes n v) = v.
Proof.
  revert v. induction n as [|n IH]; intros v Hv.
  - simpl in *. lia.
  - cbn [le_bytes le_value]. rewrite byte_to_of_Z.
    rewrite Nat2Z.inj_succ, Z.pow_succ_r in Hv by lia.
    rewrite IH.
    + pose proof (Z.div_mod v 256). lia.
    + split; [apply Z.div_pos; lia|].
      apply Z.div_lt_upper_bound; lia.
Qed.

Lemma le_value_range bs : 0 <= le_value bs < 256 ^ Z.of_nat (length bs).
Proof.
  induction bs as [|b bs IH].
  - simpl. lia.
  - cbn [le_value length]. rewrite Nat2Z.inj_succ, Z.pow_succ_r by lia.
    pose proof (byte_to_Z_range b). lia.
Qed.

Lemma pack_uint_Ok n v bs :
  pack_uint n v = Ok bs -> 0 <= v < 256 ^ Z.of_nat n /\ bs = le_bytes n v.
Proof.
  unfold pack_uint.
  destruct (0 <=? v) eqn:E1; destruct (v <? 256 ^ Z.of_nat n) eqn:E2;
    simpl; intros H; try discriminate.
  injection H as <-. split; [lia | reflexivity].
Qed.

Lemma pack_uint_fits n v :
  0 <= v < 256 ^ Z.of_nat n -> pack_uint n v = Ok (le_bytes n v).
Proof.
  intros Hv. unfold pack_uint.
  destruct (0 <=? v) eqn:E1; destruct (v <? 256 ^ Z.of_nat n) eqn:E2;
    simpl; try reflexivity; lia.
Qed.

Lemma field_app_l (pre l post : list byte) (off n : nat) :
  off = length pre -> n = length l -> field (pre ++ l ++ post) off n = le_value l.
Proof.
  intros -> ->. unfold field.
  rewrite drop_app_length, take_app_length. reflexivity.
Qed.

End StructFacts.

(** ** Container packer and index reader *)

Module PackFacts.
Import Struct StructFacts SysexPack PackIndex Container.

Lemma length_encode_row x : length (encode_row x) = 18%nat.
Proof. unfold encode_row. rewrite !length_app, !length_le_bytes. lia. Qed.

Lemma pack_IHHHII_Ok a b c d e f row :
  pack_IHHHII a b c d e f = Ok row ->
  row_fits (mkIndexEntry a b c d e f) /\ row = encode_row (mkIndexEntry a b c d e f).
Proof.
  unfold pack_IHHHII, pack_I, pack_H. intros H.
  repeat match type of H with
  | _ ≫= _ = Ok _ =>
      apply result_bind_Ok in H; destruct H as (? & ?%pack_uint_Ok & H)
  end.
  injection H as <-. unfold row_fits, encode_row; simpl ix_id; simpl ix_type;
    simpl ix_sub; simpl ix_flags; simpl ix_offset; simpl ix_length.
  change (256 ^ Z.of_nat 4) with (2 ^ 32) in *.
  change (256 ^ Z.of_nat 2) with (2 ^ 16) in *.
  intuition (subst; auto).
Qed.

Lemma pack_IHHHII_fits x :
  row_fits x ->
  pack_IHHHII (ix_id x) (ix_type x) (ix_sub x) (ix_flags x) (ix_offset x)
    (ix_length x) = Ok (encode_row x).
Proof.
  intros (H1 & H2 & H3 & H4 & H5 & H6).
  unfold pack_IHHHII, pack_I, pack_H.
  rewrite !pack_uint_fits by assumption. reflexivity.
Qed.

Lemma pack_sub_Ok e z :
  pack_sub e = Ok z -> z = entry_sub_or0 e /\ entry_sub e <> Some PyNone.
Proof.
  unfold pack_sub, entry_sub_or0.
  destruct (entry_sub e) as [[|v]|]; intros H; try discriminate;
    injection H as <-; split; congruence.
Qed.

Lemma pack_sub_int e :
  entry_sub e <> Some PyNone -> pack_sub e = Ok (entry_sub_or0 e).
Proof.
  unfold pack_sub, entry_sub_or0.
  destruct (entry_sub e) as [[|v]|]; intros H; congruence.
Qed.

(** What a successful run of the packer's loop has written. *)
Lemma pack_loop_Ok entries : forall table blobs offset table' blobs',
  pack_loop entries table blobs offset = Ok (table', blobs') ->
  Forall (fun e => entry_sub e <> Some PyNone) entries /\
  Forall row_fits (table_of entries offset) /\
  table' = table ++ concat (encode_row <$> table_of entries offset) /\
  blobs' = blobs ++ concat (e_data <$> entries).
Proof.
  induction entries as [|e rest IH]; intros table blobs offset table' blobs' H.
  - simpl in H. injection H as <- <-. simpl. rewrite !app_nil_r. auto.
  - cbn [pack_loop] in H.
    apply result_bind_Ok in H. destruct H as (sub & Hsub & H).
    apply result_bind_Ok in H. destruct H as (row & Hrow & H).
    apply pack_sub_Ok in Hsub. destruct Hsub as [-> Hnn].
    apply pack_IHHHII_Ok in Hrow. destruct Hrow as [Hfit ->].
    apply IH in H. destruct H as (Hs & Hf & -> & ->).
    cbn [table_of fmap list_fmap concat].
    rewrite <- !app_assoc. auto.
Qed.

(** The loop succeeds on every collection whose rows fit. *)
Lemma pack_loop_fits entries : forall table blobs offset,
  Forall (fun e => entry_sub e <> Some PyNone) entries ->
  Forall row_fits (table_of entries offset) ->
  pack_loop entries table blobs offset =
    Ok (table ++ concat (encode_row <$> table_of entries offset),
        blobs ++ concat (e_data <$> entries)).
Proof.
  induction entries as [|e rest IH]; intros table blobs offset Hs Hf.
  - simpl. now rewrite !app_nil_r.
  - cbn [pack_loop table_of] in *.
    apply Forall_cons in Hs. destruct Hs as [Hs1 Hs].
    apply Forall_cons in Hf. destruct Hf as [Hf1 Hf].
    rewrite (pack_sub_int _ Hs1). cbn [mbind result_bind].
    pose proof (pack_IHHHII_fits _ Hf1) as Hrow.
    cbn [ix_id ix_type ix_sub ix_flags ix_offset ix_length] in Hrow.
    rewrite Hrow. cbn [mbind result_bind].
    rewrite IH by assumption.
    cbn [fmap list_fmap concat]. now rewrite <- !app_assoc.
Qed.

Lemma pack_Ok entries buf :
  pack entries = Ok buf -> fits entries /\ buf = container_of entries.
Proof.
  unfold pack. intros H.
  apply result_bind_Ok in H. destruct H as (version & Hv & H).
  apply result_bind_Ok in H. destruct H as (count & Hc & H).
  apply result_bind_Ok in H. destruct H as ([table blobs] & Hl & H).
  injection H as <-.
  apply pack_uint_Ok in Hv. destruct Hv as [_ ->].
  apply pack_uint_Ok in Hc. destruct Hc as [Hn ->].
  change (256 ^ Z.of_nat 2) with 65536 in Hn.
  replace (Z.of_nat (4 + 2 + 2 + length entries * entry_size))
    with (blob_start entries) in Hl
    by (unfold blob_start, entry_size; lia).
  apply pack_loop_Ok in Hl. destruct Hl as (Hs & Hf & -> & ->).
  split.
  - unfold fits. split; [lia | auto].
  - unfold container_of, header_bytes. simpl. reflexivity.
Qed.

Lemma pack_fits entries : fits entries -> pack entries = Ok (container_of entries).
Proof.
  intros (Hn & Hs & Hf). unfold pack, pack_H.
  rewrite pack_uint_fits by (change (256 ^ Z.of_nat 2) with 65536; lia).
  cbn [mbind result_bind].
  rewrite pack_uint_fits by (change (256 ^ Z.of_nat 2) with 65536; lia).
  cbn [mbind result_bind].
  replace (Z.of_nat (4 + 2 + 2 + length entries * entry_size))
    with (blob_start entries)
    by (unfold blob_start, entry_size; lia).
  rewrite pack_loop_fits by assumption.
  cbn [mbind result_bind mret result_ret].
  unfold container_of, header_bytes. simpl. reflexivity.
Qed.

Lemma length_table_of entries : forall offset,
  length (table_of entries offset) = length entries.
Proof.
  induction entries as [|e rest IH]; intros offset; simpl; [reflexivity|].
  now rewrite IH.
Qed.

Lemma length_concat_rows (rows : list IndexEntry) :
  length (concat (encode_row <$> rows)) = (18 * length rows)%nat.
Proof.
  induction rows as [|x rows IH]; [reflexivity|].
  cbn [fmap list_fmap concat length]. rewrite length_app, length_encode_row, IH. lia.
Qed.

(** Reading back one row that [pack] wrote. *)
Lemma unpack_row (P T : list byte) (x : IndexEntry) (off : nat) :
  off = length P -> row_fits x ->
  unpack_from_IHHHII (P ++ encode_row x ++ T) off =
    Ok (ix_id x, ix_type x, ix_sub x, ix_flags x, ix_offset x, ix_length x).
Proof.
  intros -> (H1 & H2 & H3 & H4 & H5 & H6). unfold unpack_from_IHHHII.
  rewrite !length_app, length_encode_row.
  destruct (length P + (18 + length T) <? length P + 18)%nat eqn:E;
    [apply Nat.ltb_lt in E; lia | clear E].
  unfold encode_row. rewrite <- !app_assoc.
  set (A := le_bytes 4 (ix_id x)). set (B := le_bytes 2 (ix_type x)).
  set (C := le_bytes 2 (ix_sub x)). set (D := le_bytes 2 (ix_flags x)).
  set (E := le_bytes 4 (ix_offset x)). set (F := le_bytes 4 (ix_length x)).
  assert (LA : length A = 4%nat) by apply length_le_bytes.
  assert (LB : length B = 2%nat) by apply length_le_bytes.
  assert (LC : length C = 2%nat) by apply length_le_bytes.
  assert (LD : length D = 2%nat) by apply length_le_bytes.
  assert (LE : length E = 4%nat) by apply length_le_bytes.
  assert (LF : length F = 4%nat) by apply length_le_bytes.
  rewrite (field_app_l P A) by auto.
  replace (P ++ A ++ B ++ C ++ D ++ E ++ F ++ T)
    with ((P ++ A) ++ B ++ C ++ D ++ E ++ F ++ T) by now rewrite <- !app_assoc.
  rewrite (field_app_l (P ++ A) B) by (rewrite ?length_app; lia).
  replace ((P ++ A) ++ B ++ C ++ D ++ E ++ F ++ T)
    with ((P ++ A ++ B) ++ C ++ D ++ E ++ F ++ T) by now rewrite <- !app_assoc.
  rewrite (field_app_l (P ++ A ++ B) C) by (rewrite ?length_app; lia).
  replace ((P ++ A ++ B) ++ C ++ D ++ E ++ F ++ T)
    with ((P ++ A ++ B ++ C) ++ D ++ E ++ F ++ T) by now rewrite <- !app_assoc.
  rewrite (field_app_l (P ++ A ++ B ++ C) D) by (rewrite ?length_app; lia).
  replace ((P ++ A ++ B ++ C) ++ D ++ E ++ F ++ T)
    with ((P ++ A ++ B ++ C ++ D) ++ E ++ F ++ T) by now rewrite <- !app_assoc.
  rewrite (field_app_l (P ++ A ++ B ++ C ++ D) E) by (rewrite ?length_app; lia).
  replace ((P ++ A ++ B ++ C ++ D) ++ E ++ F ++ T)
    with ((P ++ A ++ B ++ C ++ D ++ E) ++ F ++ T) by now rewrite <- !app_assoc.
  rewrite (field_app_l (P ++ A ++ B ++ C ++ D ++ E) F) by (rewrite ?length_app; lia).
  subst A B C D E F.
  rewrite !le_value_le_bytes by assumption. reflexivity.
Qed.

(** The reader's loop returns the rows the packer's loop wrote. *)
Lemma scan_rows_table (hdr blobs : list byte) (rows : list IndexEntry) :
  length hdr = 8%nat -> forall pre,
  Forall row_fits rows ->
  scan_rows (hdr ++ concat (encode_row <$> (pre ++ rows)) ++ blobs)
    (length rows) (length pre) = Ok rows.
Proof.
  intros Hh. induction rows as [|x rows IH]; intros pre Hf; [reflexivity|].
  apply Forall_cons in Hf. destruct Hf as [Hx Hf].
  cbn [length scan_rows].
  assert (Hrow : unpack_from_IHHHII
            (hdr ++ concat (encode_row <$> (pre ++ x :: rows)) ++ blobs)
            (8 + length pre * esz) =
          Ok (ix_id x, ix_type x, ix_sub x, ix_flags x, ix_offset x, ix_length x)).
  { rewrite fmap_app, concat_app. cbn [fmap list_fmap concat].
    replace (hdr ++ (concat (encode_row <$> pre)
                       ++ encode_row x ++ concat (encode_row <$> rows)) ++ blobs)
      with ((hdr ++ concat (encode_row <$> pre))
              ++ encode_row x ++ (concat (encode_row <$> rows) ++ blobs))
      by now rewrite <- !app_assoc.
    apply unpack_row; [|assumption].
    rewrite length_app, length_concat_rows, Hh. unfold esz. lia. }
  rewrite Hrow. cbn [mbind result_bind].
  specialize (IH (pre ++ [x]) Hf).
  rewrite <- app_assoc, length_app in IH. cbn [app length] in IH.
  replace (length pre + 1)%nat with (S (length pre)) in IH by lia.
  rewrite IH. cbn [mbind result_bind mret result_ret]. now destruct x.
Qed.

Lemma length_header_bytes n : length (header_bytes n) = 8%nat.
Proof. reflexivity. Qed.

(** The index reader on a container written by [pack]. *)
Lemma scan_pack_container entries :
  fits entries ->
  scan_pack (container_of entries) =
    Ok (Some (table_of entries (blob_start entries))).
Proof.
  intros (Hn & _ & Hf). unfold scan_pack.
  assert (Hm : take 4 (container_of entries) = MAGIC) by reflexivity.
  rewrite Hm, bool_decide_eq_true_2 by reflexivity. cbn [negb].
  assert (Hhh : unpack_from_HH (container_of entries) 4 =
                Ok (1, Z.of_nat (length entries))).
  { unfold unpack_from_HH, container_of.
    rewrite length_app, length_header_bytes.
    destruct (8 + _ <? 4 + 4)%nat eqn:E; [apply Nat.ltb_lt in E; lia | clear E].
    unfold header_bytes. rewrite <- !app_assoc.
    rewrite (field_app_l MAGIC (le_bytes 2 1)) by reflexivity.
    replace (MAGIC ++ le_bytes 2 1 ++ le_bytes 2 (Z.of_nat (length entries)) ++
             concat (encode_row <$> table_of entries (blob_start entries)) ++
             concat (e_data <$> entries))
      with ((MAGIC ++ le_bytes 2 1) ++ le_bytes 2 (Z.of_nat (length entries)) ++
             concat (encode_row <$> table_of entries (blob_start entries)) ++
             concat (e_data <$> entries)) by now rewrite <- !app_assoc.
    rewrite (field_app_l (MAGIC ++ le_bytes 2 1)) by reflexivity.
    rewrite !le_value_le_bytes
      by (change (256 ^ Z.of_nat 2) with 65536; lia).
    reflexivity. }
  rewrite Hhh. cbn [mbind result_bind]. change (negb (1 =? 1)) with false.
  cbv iota. rewrite Nat2Z.id.
  pose proof (scan_rows_table (header_bytes (length entries))
                (concat (e_data <$> entries))
                (table_of entries (blob_start entries))
                (length_header_bytes _) [] Hf) as Hs.
  rewrite length_table_of in Hs. cbn [app length] in Hs.
  unfold container_of. rewrite Hs. reflexivity.
Qed.

(** Every row of the table points at the bytes of its record. *)
Lemma table_points_at_data entries : forall (pre post : list byte) offset i e x,
  offset = Z.of_nat (length pre) ->
  entries !! i = Some e ->
  table_of entries offset !! i = Some x ->
  entry_bytes (pre ++ concat (e_data <$> entries) ++ post) x = e_data e.
Proof.
  induction entries as [|e0 rest IH]; intros pre post offset i e x Ho He Hx;
    [discriminate|].
  destruct i as [|i]; cbn [table_of] in Hx; simpl in He.
  - injection He as ->. injection Hx as <-.
    unfold entry_bytes, slice. cbn [ix_offset ix_length].
    subst offset. rewrite <- Nat2Z.inj_add, !Nat2Z.id.
    cbn [fmap list_fmap concat]. rewrite <- app_assoc.
    rewrite drop_app_length.
    replace (length pre + length (e_data e) - length pre)%nat
      with (length (e_data e)) by lia.
    apply take_app_length.
  - cbn [fmap list_fmap concat].
    replace (pre ++ (e_data e0 ++ concat (e_data <$> rest)) ++ post)
      with ((pre ++ e_data e0) ++ concat (e_data <$> rest) ++ post)
      by now rewrite <- !app_assoc.
    apply (IH _ _ (offset + Z.of_nat (length (e_data e0))) i); auto.
    rewrite length_app. lia.
Qed.

Lemma table_of_lookup entries : forall offset i x,
  table_of entries offset !! i = Some x ->
  exists e, entries !! i = Some e /\
    ix_id x = e_id e /\ ix_type x = e_type e /\ ix_sub x = entry_sub_or0 e /\
    ix_flags x = e_flags e /\ ix_length x = Z.of_nat (length (e_data e)).
Proof.
  induction entries as [|e0 rest IH]; intros offset i x Hx; [discriminate|].
  destruct i as [|i]; cbn [table_of] in Hx.
  - injection Hx as <-. exists e0. simpl. auto 10.
  - apply IH in Hx. exact Hx.
Qed.


Lemma length_container_of entries :
  Z.of_nat (length (container_of entries)) =
    blob_start entries + total_length entries.
Proof.
  unfold container_of, blob_start, total_length.
  rewrite !length_app, length_header_bytes, length_concat_rows, length_table_of.
  lia.
Qed.

End PackFacts.

Module PackClaims.
Import Struct StructFacts SysexPack PackIndex Container Canonicalizer PackFacts Examples.

(** Round trip for every collection [pack] can serialise: the index reader
    returns one row per record, in order, with the record's id, type,
    subtype, flags and data length, and every row's region of the buffer
    holds exactly the record's data. *)
Lemma pack_scan_roundtrip entries :
  fits entries ->
  exists buf rows,
    pack entries = Ok buf /\
    scan_pack buf = Ok (Some rows) /\
    length rows = length entries /\
    forall i e, entries !! i = Some e ->
      exists x, rows !! i = Some x /\
        ix_id x = e_id e /\ ix_type x = e_type e /\
        ix_sub x = entry_sub_or0 e /\ ix_flags x = e_flags e /\
        ix_length x = Z.of_nat (length (e_data e)) /\
        entry_bytes buf x = e_data e.
Proof.
  intros Hfits.
  exists (container_of entries), (table_of entries (blob_start entries)).
  split; [now apply pack_fits|].
  split; [now apply scan_pack_container|].
  split; [apply length_table_of|].
  intros i e He.
  destruct (lookup_lt_is_Some_2 (table_of entries (blob_start entries)) i)
    as [x Hx].
  { rewrite length_table_of. eapply lookup_lt_Some, He. }
  exists x. split; [exact Hx|].
  destruct (table_of_lookup _ _ _ _ Hx) as (e' & He' & H1 & H2 & H3 & H4 & H5).
  assert (e' = e) as -> by congruence.
  repeat (split; [assumption|]).
  unfold container_of.
  replace (header_bytes (length entries)
             ++ concat (encode_row <$> table_of entries (blob_start entries))
             ++ concat (e_data <$> entries))
    with ((header_bytes (length entries)
             ++ concat (encode_row <$> table_of entries (blob_start entries)))
            ++ concat (e_data <$> entries) ++ [])
    by now rewrite app_nil_r, <- app_assoc.
  eapply table_points_at_data; [|exact He|exact Hx].
  rewrite length_app, length_header_bytes, length_concat_rows, length_table_of.
  unfold blob_start. lia.
Qed.

(** C1 (round trip), evaluated on a record set the canonicalizer produces:
    for a matched message whose command carries no subtype, [canonize]
    stores [None] under ["sub"].  The collection has one record, every row
    field (with the absent subtype read as 0, as the sidecar writer and the
    assembler read it) fits its width, yet [pack] raises [TypeError] on it:
    no container is produced and nothing can be read back. *)
Theorem pack_raises_on_canonized_record :
  let entries :=
    [mkEntry 0 0x12 0 (Some (MetaParsed 0x0F 0 0x12 PyNone true)) [x7f]] in
  canonize [frame_cmd12] (Some proteus_spec) = Ok entries /\
  Z.of_nat (length entries) <= 65535 /\
  Forall row_fits (table_of entries (blob_start entries)) /\
  pack entries = Raise TypeError.
Proof.
  cbv zeta.
  split; [vm_compute; reflexivity|]. split; [cbn; lia|]. split.
  - cbn [table_of]. constructor; [|constructor].
    unfold row_fits, blob_start. cbn. lia.
  - vm_compute. reflexivity.
Qed.




End PackClaims.

(** ** Readers on malformed containers *)

Module ReaderClaims.
Import Struct SysexPack.

(** C9 (reader robustness, amended): on every buffer whose first four bytes
    are not the magic, and on every buffer of at least 8 bytes whose
    version field is not 1, both readers return no results ([None], the
    empty list) without raising. *)
Theorem scan_pack_rejects (b : list byte) :
  take 4 b <> MAGIC \/ (8 <= length b)%nat /\ field b 4 2 <> 1 ->
  PackIndex.scan_pack b = Ok None /\ DumpLayerFilters.scan_pack b = Ok [].
Proof.
  intros H. unfold PackIndex.scan_pack, DumpLayerFilters.scan_pack.
  destruct (bool_decide (take 4 b = MAGIC)) eqn:Em; cbn [negb]; [|auto].
  apply bool_decide_eq_true_1 in Em.
  destruct H as [H | [Hlen Hver]]; [contradiction|].
  unfold unpack_from_HH.
  destruct (length b <? 4 + 4)%nat eqn:El; [apply Nat.ltb_lt in El; lia|].
  cbn [mbind result_bind].
  destruct (field b 4 2 =? 1) eqn:Ev; [apply Z.eqb_eq in Ev; contradiction|].
  cbn [negb]. auto.
Qed.

Lemma scan_pack_rejects_witness :
  PackIndex.scan_pack [x5a; x50; x4b; x31; x02; x00; x00; x00] = Ok None /\
  DumpLayerFilters.scan_pack [x5a; x50; x4b; x31; x02; x00; x00; x00] = Ok [].
Proof.
  apply scan_pack_rejects. right. split; [simpl; lia | vm_compute; discriminate].
Defined.

(** C9 as stated fails on truncated buffers: the four magic bytes alone
    (too short for the header) and a complete header declaring one entry
    with no table behind it make both readers raise [struct.error]. *)
Lemma scan_pack_raises_on_truncated :
  PackIndex.scan_pack MAGIC = Raise StructError /\
  DumpLayerFilters.scan_pack MAGIC = Raise StructError /\
  PackIndex.scan_pack (MAGIC ++ [x01; x00; x01; x00]) = Raise StructError /\
  DumpLayerFilters.scan_pack (MAGIC ++ [x01; x00; x01; x00]) = Raise StructError.
Proof. repeat split; vm_compute; reflexivity. Qed.

End ReaderClaims.

(** ** Header-driven segmenter *)

Module SegmentFacts.
Import SysexPack Segmenter.

Lemma at_range l k : 0 <= at_ l k < 256.
Proof. apply byte_to_Z_range. Qed.

Lemma parse_header_Some blob hdr :
  _parse_preset_header_blob blob = Some hdr ->
  (17 <= length blob)%nat /\
  LayFilt (h_counts hdr) = at_ blob 13 /\ LayEnv (h_counts hdr) = at_ blob 15.
Proof.
  unfold _parse_preset_header_blob.
  destruct (length blob <? 1 + 2 + 4 + 10)%nat eqn:E; [discriminate|].
  apply Nat.ltb_ge in E. intros [= <-]. cbn [h_counts LayFilt LayEnv].
  split; [lia|].
  unfold at_, slice. rewrite !nth_firstn, !nth_skipn.
  split; reflexivity.
Qed.

Lemma parse_header_short blob :
  (length blob < 17)%nat -> _parse_preset_header_blob blob = None.
Proof.
  intros H. unfold _parse_preset_header_blob.
  destruct (length blob <? 1 + 2 + 4 + 10)%nat eqn:E; [reflexivity|].
  apply Nat.ltb_ge in E. lia.
Qed.

Lemma parse_header_long blob :
  (17 <= length blob)%nat -> is_Some (_parse_preset_header_blob blob).
Proof.
  intros H. unfold _parse_preset_header_blob.
  destruct (length blob <? 1 + 2 + 4 + 10)%nat eqn:E; [|eauto].
  apply Nat.ltb_lt in E. lia.
Qed.

(** The carving loop appends one record per index, ids counting up. *)
Lemma carve_appends n : forall i filt_blob entries next_id,
  carve n i filt_blob entries next_id =
    entries ++
      ((fun j => layer_filter_entry (next_id + Z.of_nat j) (Z.of_nat (i + j))
                   (slice filt_blob ((i + j) * 14) ((i + j + 1) * 14)))
         <$> seq 0 n).
Proof.
  induction n as [|n IH]; intros i filt_blob entries next_id.
  - simpl. now rewrite app_nil_r.
  - cbn [carve]. rewrite IH. rewrite <- app_assoc. f_equal.
    cbn [seq fmap list_fmap app]. f_equal.
    + rewrite Z.add_0_r, !Nat.add_0_r. reflexivity.
    + rewrite <- fmap_S_seq, <- list_fmap_compose.
      apply list_fmap_ext. intros _ j _. cbv [compose].
      replace (next_id + 1 + Z.of_nat j) with (next_id + Z.of_nat (S j)) by lia.
      replace (S i + j)%nat with (i + S j)%nat by lia.
      reflexivity.
Qed.

(** The first record with a stored integer subtype is the one [next(...)]
    yields. *)
Lemma find_sub_first entries v e :
  first_with (has_subtype v) entries e -> find_sub entries v = Some e.
Proof.
  intros (before & after & -> & Hb & He1 & He2). unfold find_sub.
  induction before as [|a before IH]; cbn [app List.find].
  - unfold entry_sub_is. rewrite He1, He2, !Z.eqb_refl. reflexivity.
  - apply Forall_cons in Hb. destruct Hb as [Ha Hb].
    destruct ((e_type a =? 16) && entry_sub_is a v) eqn:Ea; [|now apply IH].
    exfalso. apply Ha. apply andb_true_iff in Ea. destruct Ea as [E1 E2].
    split; [lia|]. unfold entry_sub_is in E2.
    destruct (entry_sub a) as [[|z]|]; try discriminate.
    apply Z.eqb_eq in E2. now subst z.
Qed.

(** The running maximum is what [max([ids] + [0])] evaluates to. *)
Lemma running_max_max_id entries m :
  Ids.running_max entries m -> m = max_id entries.
Proof.
  intros (H0 & Hall & Hex). unfold max_id.
  assert (Hle : foldr Z.max 0 (e_id <$> entries) <= m).
  { clear Hex. induction Hall as [|a l Ha _ IH]; cbn [fmap list_fmap foldr]; lia. }
  assert (Hnn : 0 <= foldr Z.max 0 (e_id <$> entries)).
  { clear. induction entries as [|a l IH]; cbn [fmap list_fmap foldr]; lia. }
  destruct Hex as [-> | Hex]; [lia|].
  assert (Hge : m <= foldr Z.max 0 (e_id <$> entries)).
  { clear -Hex. induction Hex as [a l Ha | a l _ IH]; cbn [fmap list_fmap foldr]; lia. }
  lia.
Qed.

Lemma slice_of_prefix (l : list byte) (c a b : nat) :
  (b <= c)%nat -> slice (slice l 0 c) a b = slice l a b.
Proof.
  intros H. unfold slice. rewrite Nat.sub_0_r. cbn [drop].
  rewrite skipn_firstn_comm, take_take. f_equal. lia.
Qed.

End SegmentFacts.

Module SegmentClaims.
Import SysexPack Segmenter Ids SegmentFacts Examples.

(** When a collection holds exactly one record of the wanted subtype, that
    record is the one the segmenter picks. *)
Lemma find_sub_the_only entries v e :
  e ∈ entries -> (e_type e =? 0x10) && entry_sub_is e v = true ->
  (forall e', e' ∈ entries -> (e_type e' =? 0x10) && entry_sub_is e' v = true -> e' = e) ->
  find_sub entries v = Some e.
Proof.
  unfold find_sub. induction entries as [|a rest IH]; intros Hin He Huniq.
  - inversion Hin.
  - cbn [List.find].
    destruct ((e_type a =? 16) && entry_sub_is a v) eqn:Ea.
    + f_equal. apply Huniq; [left | exact Ea].
    + apply IH; [| exact He |].
      * inversion Hin; subst; [congruence | assumption].
      * intros e' He'. apply Huniq. now right.
Qed.

(** C4 (segmenter exactness): when the first record of type 0x10 and
    subtype 0x01 has at least 17 data bytes, a record of type 0x10 and
    subtype 0xFE is present, and [need = layerFilterCount * 14 +
    layerEnvelopeCount * 92] (the counts being bytes 13 and 15 of the header
    data) satisfies [0 < need <= len(assembled data)], the segmenter appends
    exactly [layerFilterCount] records.  The [i]-th has type 0x10, flags 0,
    subtype 0x22, the heuristic marker with index [i], the id [m + 1 + i]
    for the running maximum [m] of the existing ids, and as data the 14
    bytes [tail[i*14 : (i+1)*14]] of [tail], the last [need] bytes of the
    data of the first assembled record. *)
Theorem segment_exact entries header assembled m :
  first_with (has_subtype 0x01) entries header ->
  first_with (has_subtype 0xFE) entries assembled ->
  (17 <= length (e_data header))%nat ->
  let lay_filt := byte_to_Z (nth 13 (e_data header) x00) in
  let lay_env := byte_to_Z (nth 15 (e_data header) x00) in
  let need := lay_filt * 14 + lay_env * 92 in
  0 < need <= Z.of_nat (length (e_data assembled)) ->
  running_max entries m ->
  let tail :=
    drop (length (e_data assembled) - Z.to_nat need) (e_data assembled) in
  exists new,
    segment_assembled entries = entries ++ new /\
    Z.of_nat (length new) = lay_filt /\
    length tail = Z.to_nat need /\
    forall i, (i < length new)%nat ->
      exists e,
        new !! i = Some e /\
        e_id e = m + 1 + Z.of_nat i /\
        e_type e = 0x10 /\
        e_flags e = 0 /\
        e_meta e = Some (MetaLayerFilter (Z.of_nat i)) /\
        entry_sub e = Some (PyInt 0x22) /\
        e_data e = take 14 (drop (i * 14) tail) /\
        length (e_data e) = 14%nat.
Proof.
  intros Hh Ha Hlen lay_filt lay_env need Hneed Hm tail.
  apply find_sub_first in Hh. apply find_sub_first in Ha.
  apply running_max_max_id in Hm. subst m.
  destruct (parse_header_long _ Hlen) as [hdr Hp].
  destruct (parse_header_Some _ _ Hp) as (_ & Hf & He).
  change (at_ (e_data header) 13) with lay_filt in Hf.
  change (at_ (e_data header) 15) with lay_env in He.
  assert (Rf : 0 <= lay_filt < 256) by apply byte_to_Z_range.
  assert (Re : 0 <= lay_env < 256) by apply byte_to_Z_range.
  assert (Htail : length tail = Z.to_nat need).
  { subst tail. rewrite length_drop. lia. }
  unfold segment_assembled. rewrite Hh, Ha, Hp, Hf, He.
  fold need.
  destruct ((need =? 0) || (need >? Z.of_nat (length (e_data assembled))))
    eqn:Eg.
  { apply orb_true_iff in Eg. destruct Eg as [Eg|Eg]; lia. }
  rewrite carve_appends. unfold slice_tail. fold tail.
  eexists. split; [reflexivity|].
  rewrite length_fmap, length_seq.
  split; [lia|]. split; [exact Htail|].
  intros i Hi.
  assert (Hin : ((i + 1) * 14 <= Z.to_nat (lay_filt * 14))%nat) by lia.
  eexists. split.
  { rewrite list_lookup_fmap, lookup_seq_lt by exact Hi. reflexivity. }
  cbn [Nat.add layer_filter_entry e_id e_type e_flags e_meta e_data].
  assert (Hchunk : slice (slice tail 0 (Z.to_nat (lay_filt * 14)))
                     (i * 14) ((i + 1) * 14) = take 14 (drop (i * 14) tail)).
  { rewrite slice_of_prefix by exact Hin. unfold slice. f_equal. lia. }
  rewrite Hchunk.
  repeat split; try reflexivity.
  rewrite length_take, length_drop, Htail. subst need. lia.
Qed.

Lemma segment_exact_witness :
  exists new,
    segment_assembled preset_3_0 = preset_3_0 ++ new /\
    Z.of_nat (length new) = 3 /\
    length (drop (42 - 42) blob_42) = 42%nat /\
    forall i, (i < length new)%nat ->
      exists e,
        new !! i = Some e /\
        e_id e = 1 + 1 + Z.of_nat i /\
        e_type e = 0x10 /\
        e_flags e = 0 /\
        e_meta e = Some (MetaLayerFilter (Z.of_nat i)) /\
        entry_sub e = Some (PyInt 0x22) /\
        e_data e = take 14 (drop (i * 14) (drop (42 - 42) blob_42)) /\
        length (e_data e) = 14%nat.
Proof.
  refine (segment_exact preset_3_0 header_3_0
            (mkEntry 1 0x10 0 (Some MetaAssembled) blob_42) 1 _ _ _ _ _).
  - exists [], [mkEntry 1 0x10 0 (Some MetaAssembled) blob_42].
    repeat split; constructor.
  - exists [header_3_0], []. split; [reflexivity|]. split; [|split; reflexivity].
    repeat constructor. intros [_ H]. discriminate H.
  - vm_compute. lia.
  - vm_compute. split; congruence.
  - split; [lia|]. split.
    + repeat constructor; vm_compute; congruence.
    + right. apply Exists_cons_tl, Exists_cons_hd. reflexivity.
Defined.

(** The same example computed outright: three records of 14 bytes each,
    the three consecutive slices of the blob, with ids 2, 3, 4. *)
Example segment_3_0_computed :
  segment_assembled preset_3_0 =
    preset_3_0 ++
      [mkEntry 2 0x10 0 (Some (MetaLayerFilter 0)) (take 14 blob_42);
       mkEntry 3 0x10 0 (Some (MetaLayerFilter 1)) (take 14 (drop 14 blob_42));
       mkEntry 4 0x10 0 (Some (MetaLayerFilter 2)) (take 14 (drop 28 blob_42))] /\
  Forall (fun e => entry_sub e = Some (PyInt 0x22) /\ length (e_data e) = 14%nat)
    (drop 2 (segment_assembled preset_3_0)).
Proof. split; [vm_compute; reflexivity|]. repeat constructor. Qed.

(** With two header records of different counts the first one decides: the
    header with [LayFilt = 3] comes first, the one with [LayFilt = 1]
    second, and three records are carved, with ids above the largest id. *)
Example segment_first_header_decides :
  segment_assembled
    (header_3_0
       :: mkEntry 5 0x10 0 (Some (MetaParsed 0x0F 0 0x10 (PyInt 0x01) true))
            [x01; x00; x00; x2a; x00; x00; x00;
             x00; x00; x00; x00; x01; x00; x01; x00; x00; x00]
       :: [mkEntry 1 0x10 0 (Some MetaAssembled) blob_42])
  = (header_3_0
       :: mkEntry 5 0x10 0 (Some (MetaParsed 0x0F 0 0x10 (PyInt 0x01) true))
            [x01; x00; x00; x2a; x00; x00; x00;
             x00; x00; x00; x00; x01; x00; x01; x00; x00; x00]
       :: [mkEntry 1 0x10 0 (Some MetaAssembled) blob_42])
    ++ [mkEntry 6 0x10 0 (Some (MetaLayerFilter 0)) (take 14 blob_42);
        mkEntry 7 0x10 0 (Some (MetaLayerFilter 1)) (take 14 (drop 14 blob_42));
        mkEntry 8 0x10 0 (Some (MetaLayerFilter 2)) (take 14 (drop 28 blob_42))].
Proof. vm_compute. reflexivity. Qed.

(** C8 (segmenter no-op conditions, amended): the segmenter returns the
    collection unchanged when no header record or no assembled record is
    present, when the data of the (first) header record is shorter than 17
    bytes, and when [need] is 0 or exceeds the length of the (first)
    assembled record's data. *)
Theorem segment_noop entries :
  find_sub entries 0x01 = None \/
  find_sub entries 0xFE = None \/
  (exists header, find_sub entries 0x01 = Some header /\
                  (length (e_data header) < 17)%nat) \/
  (exists header assembled hdr,
      find_sub entries 0x01 = Some header /\
      find_sub entries 0xFE = Some assembled /\
      _parse_preset_header_blob (e_data header) = Some hdr /\
      (need hdr = 0 \/ need hdr > Z.of_nat (length (e_data assembled)))) ->
  segment_assembled entries = entries.
Proof.
  unfold segment_assembled.
  intros [H | [H | [(header & Hh & Hs) | (header & assembled & hdr & Hh & Ha & Hp & Hn)]]].
  - now rewrite H.
  - rewrite H. now destruct (find_sub entries 1).
  - rewrite Hh. destruct (find_sub entries 254); [|reflexivity].
    now rewrite parse_header_short.
  - rewrite Hh, Ha, Hp. fold (need hdr).
    destruct ((need hdr =? 0) || (need hdr >? Z.of_nat (length (e_data assembled))))
      eqn:Eg; [reflexivity|].
    apply orb_false_iff in Eg. destruct Eg as [E1 E2]. lia.
Qed.

Lemma segment_noop_witness :
  segment_assembled [mkEntry 0 0x10 0 (Some MetaAssembled) blob_42] =
    [mkEntry 0 0x10 0 (Some MetaAssembled) blob_42].
Proof. apply segment_noop. left. reflexivity. Defined.

(** C8 as stated fails: with two header records (and one assembled record)
    the segmenter does not leave the collection unchanged; it uses the
    first header and appends the carved records. *)
Lemma segment_two_headers_not_noop :
  length (filter (fun e => is_header e = true) (header_3_0 :: preset_3_0)) = 2%nat /\
  length (filter (fun e => is_assembled e = true) (header_3_0 :: preset_3_0)) = 1%nat /\
  segment_assembled (header_3_0 :: preset_3_0) =
    (header_3_0 :: preset_3_0) ++
      [layer_filter_entry 2 0 (take 14 blob_42);
       layer_filter_entry 3 1 (take 14 (drop 14 blob_42));
       layer_filter_entry 4 2 (take 14 (drop 28 blob_42))] /\
  segment_assembled (header_3_0 :: preset_3_0) <> header_3_0 :: preset_3_0.
Proof.
  repeat split; try (vm_compute; reflexivity).
  intros H. apply (f_equal length) in H. vm_compute in H. discriminate.
Qed.

End SegmentClaims.

(** ** Preset assembler *)

Module AssembleFacts.
Import SysexPack Assembler Continuation.

Lemma max_id_upper entries e : e ∈ entries -> e_id e <= max_id entries.
Proof.
  unfold max_id. induction 1 as [e l | e a l _ IH]; cbn [fmap list_fmap foldr]; lia.
Qed.

Lemma max_id_nonneg entries : 0 <= max_id entries.
Proof.
  unfold max_id. induction entries as [|a l IH]; cbn [fmap list_fmap foldr]; lia.
Qed.

Lemma max_id_attained entries :
  max_id entries = 0 \/ exists e, e ∈ entries /\ e_id e = max_id entries.
Proof.
  unfold max_id. induction entries as [|a l IH]; [now left|].
  cbn [fmap list_fmap foldr].
  destruct (Z.max_spec (e_id a) (foldr Z.max 0 (e_id <$> l))) as [[_ ->] | [_ ->]].
  - destruct IH as [IH | (e & He & Hid)]; [now left|].
    right. exists e. split; [now right | exact Hid].
  - right. exists a. split; [now left | reflexivity].
Qed.

Lemma max_id_Permutation (l l' : list Entry) : l ≡ₚ l' -> max_id l = max_id l'.
Proof.
  unfold max_id. induction 1; cbn [fmap list_fmap foldr]; lia.
Qed.

Lemma packets_Permutation (l l' : list Entry) : l ≡ₚ l' -> packets l ≡ₚ packets l'.
Proof. intros H. unfold packets. now rewrite H. Qed.

(** The loop over the entries stores exactly the packets, in order. *)
Lemma collect_foldl entries : forall groups,
  foldl collect groups entries =
    match packets entries with
    | [] => groups
    | _ :: _ => Some (foldl store (default ∅ groups) (packets entries))
    end.
Proof.
  unfold packets.
  induction entries as [|e rest IH]; intros groups; [reflexivity|].
  cbn [foldl]. rewrite IH. unfold collect.
  destruct (is_packet e) eqn:Ep.
  - rewrite filter_cons_True by exact Ep. cbn [foldl default].
    fold (store (default ∅ groups) e).
    now destruct (filter _ rest).
  - rewrite filter_cons_False by congruence. reflexivity.
Qed.

Lemma store_foldl_other (ps : list Entry) : forall parts k,
  k ∉ seq_of <$> ps -> foldl store parts ps !! k = parts !! k.
Proof.
  induction ps as [|p ps IH]; intros parts k Hk; [reflexivity|].
  cbn [foldl]. rewrite fmap_cons, not_elem_of_cons in Hk. destruct Hk as [Hne Hk].
  rewrite IH by exact Hk. unfold store. now rewrite lookup_insert_ne.
Qed.

Lemma store_foldl_packet (ps : list Entry) : forall parts p,
  NoDup (seq_of <$> ps) -> p ∈ ps ->
  foldl store parts ps !! seq_of p = Some (payload_of p).
Proof.
  induction ps as [|a ps IH]; intros parts p Hnd Hp; [inversion Hp|].
  rewrite fmap_cons, NoDup_cons in Hnd. destruct Hnd as [Ha Hnd].
  cbn [foldl]. apply elem_of_cons in Hp. destruct Hp as [-> | Hp].
  - rewrite store_foldl_other by exact Ha. unfold store. apply lookup_insert_eq.
  - now apply IH.
Qed.

(** The keys of the dictionary are the sequence numbers of the packets. *)
Lemma store_foldl_keys (ps : list Entry) :
  NoDup (seq_of <$> ps) ->
  (map_to_list (foldl store ∅ ps)).*1 ≡ₚ seq_of <$> ps.
Proof.
  intros Hnd. apply NoDup_Permutation; [apply NoDup_fst_map_to_list | exact Hnd |].
  intros k. rewrite list_elem_of_fmap. split.
  - intros ([k' v] & -> & Hkv). apply elem_of_map_to_list in Hkv. cbn [fst].
    destruct (decide (k' ∈ seq_of <$> ps)) as [Hin | Hout]; [exact Hin|].
    rewrite store_foldl_other, lookup_empty in Hkv by exact Hout. discriminate.
  - intros Hk. apply list_elem_of_fmap in Hk. destruct Hk as (p & -> & Hp).
    exists (seq_of p, payload_of p). split; [reflexivity|].
    apply elem_of_map_to_list. now apply store_foldl_packet.
Qed.

Lemma StronglySorted_lt_NoDup (l : list Z) : StronglySorted Z.lt l -> NoDup l.
Proof.
  induction 1 as [|a l Hs IH Hall]; constructor; [|exact IH].
  intros Hin. rewrite Forall_forall in Hall. specialize (Hall _ Hin). lia.
Qed.

Lemma StronglySorted_le_lt (l : list Z) :
  StronglySorted Z.le l -> NoDup l -> StronglySorted Z.lt l.
Proof.
  induction 1 as [|a l Hs IH Hall]; intros Hnd; constructor.
  - apply IH. now apply NoDup_cons in Hnd.
  - apply NoDup_cons in Hnd. destruct Hnd as [Ha _].
    rewrite Forall_forall in *. intros x Hx. specialize (Hall x Hx).
    assert (x <> a) by (intros ->; contradiction). lia.
Qed.

Lemma StronglySorted_lt_le (l : list Z) :
  StronglySorted Z.lt l -> StronglySorted Z.le l.
Proof.
  induction 1 as [|a l Hs IH Hall]; constructor; [exact IH|].
  eapply Forall_impl; [exact Hall|]. intros; simpl in *; lia.
Qed.

(** Sorting the keys of the dictionary and concatenating the stored values
    yields the payloads of the packets in ascending sequence order. *)
Lemma concat_sorted_store (ps sorted : list Entry) :
  sorted ≡ₚ ps -> StronglySorted Z.lt (seq_of <$> sorted) ->
  concat_sorted (foldl store ∅ ps) = concat (payload_of <$> sorted).
Proof.
  intros Hperm Hsorted.
  assert (Hnd : NoDup (seq_of <$> ps)).
  { rewrite <- Hperm. now apply StronglySorted_lt_NoDup. }
  unfold concat_sorted.
  assert (Hkeys : merge_sort Z.le ((map_to_list (foldl store ∅ ps)).*1)
                  = seq_of <$> sorted).
  { apply (StronglySorted_unique Z.le).
    - apply StronglySorted_merge_sort; apply _.
    - now apply StronglySorted_lt_le.
    - rewrite merge_sort_Permutation, store_foldl_keys by exact Hnd.
      now rewrite Hperm. }
  rewrite Hkeys, <- list_fmap_compose. f_equal.
  apply list_fmap_ext. intros i p Hp. cbv [compose].
  rewrite store_foldl_packet; [reflexivity | exact Hnd |].
  rewrite <- Hperm. eapply list_elem_of_lookup_2, Hp.
Qed.

(** The test of the loop selects the continuation packets. *)
Lemma is_packet_continuation e : is_packet e = true <-> is_continuation e.
Proof.
  unfold is_packet, is_continuation, entry_sub_or0.
  rewrite !andb_true_iff, orb_true_iff, !Z.eqb_eq, Nat.leb_le.
  split.
  - intros [[Ht Hs] Hl]. split; [exact Ht|]. split; [|exact Hl].
    destruct (entry_sub e) as [[|z]|]; destruct Hs as [Hs|Hs];
      try discriminate Hs; subst z; auto.
  - intros (Ht & Hs & Hl). split; [split; [exact Ht|]|exact Hl].
    destruct Hs as [-> | ->]; auto.
Qed.

Lemma packets_continuation entries :
  packets entries = continuation_packets entries.
Proof.
  unfold packets, continuation_packets. apply list_filter_iff.
  intros e. apply is_packet_continuation.
Qed.

(** What the loop stores for a continuation packet. *)
Lemma seq_of_sequence_number e :
  is_continuation e -> seq_of e = sequence_number e.
Proof.
  intros (_ & _ & Hl). unfold seq_of, packet_seq, sequence_number, at_.
  destruct (e_data e) as [|d0 [|d1 data]]; cbn in Hl; try lia. reflexivity.
Qed.

Lemma payload_of_payload_bytes e : payload_of e = payload_bytes e.
Proof.
  unfold payload_of, packet_payload, payload_bytes, slice_to_last, slice.
  rewrite removelast_firstn_len, length_drop. f_equal. lia.
Qed.

Lemma seq_of_fmap (ps : list Entry) :
  Forall is_continuation ps -> seq_of <$> ps = sequence_number <$> ps.
Proof.
  intros H. apply Forall_fmap_ext_1. eapply Forall_impl; [exact H|].
  intros e He. now apply seq_of_sequence_number.
Qed.

Lemma continuation_packets_all entries :
  Forall is_continuation (continuation_packets entries).
Proof.
  apply Forall_forall. intros e He. unfold continuation_packets in He.
  now apply list_elem_of_filter in He.
Qed.

(** Packets with pairwise distinct sequence numbers, sorted by sequence
    number, are in strictly ascending order. *)
Lemma in_sequence_sorted entries :
  NoDup (sequence_number <$> continuation_packets entries) ->
  StronglySorted Z.lt (sequence_number <$> in_sequence entries).
Proof.
  intros Hnd. unfold in_sequence. apply StronglySorted_le_lt.
  - apply (StronglySorted_fmap sequence_number by_sequence); [auto|].
    apply StronglySorted_merge_sort.
    + intros a b c. unfold by_sequence. lia.
    + intros a b. unfold by_sequence. lia.
  - now rewrite merge_sort_Permutation.
Qed.

(** The assembler in terms of the sorted listing of the packets. *)
Lemma assemble_preset_sorted entries sorted :
  sorted ≡ₚ packets entries -> StronglySorted Z.lt (seq_of <$> sorted) ->
  assemble_preset entries =
    match concat (payload_of <$> sorted) with
    | [] => entries
    | _ :: _ =>
        entries ++ [assembled_entry (max_id entries + 1)
                      (concat (payload_of <$> sorted))]
    end.
Proof.
  intros Hperm Hsorted. unfold assemble_preset. rewrite collect_foldl.
  destruct (packets entries) as [|p ps] eqn:Ep.
  - apply Permutation_nil_r in Hperm. subst sorted. reflexivity.
  - rewrite <- Ep in *. cbn [default].
    rewrite (concat_sorted_store _ sorted Hperm Hsorted).
    now destruct (concat (payload_of <$> sorted)).
Qed.

End AssembleFacts.

Module AssembleClaims.
Import SysexPack Assembler Continuation Ids AssembleFacts Examples.

(** C3 (assembler postcondition and order independence, amended): take a
    collection whose continuation packets (type 0x10, subtype 0x02 or 0x04,
    at least 3 data bytes) have pairwise distinct sequence numbers
    [data[0] | (data[1] << 7)], and let [blob] be the concatenation of the
    packets' payloads [data[2:-1]] in ascending sequence order (the order is
    strict and lists every packet once).  Given any permutation of the
    collection, the assembler returns it with exactly one record appended
    when [blob] is not empty (type 0x10, flags 0, subtype 0xFE, the
    assembled marker, id [m + 1] for the running maximum [m] of the
    existing ids, data [blob]) and returns it unchanged when [blob] is
    empty. *)
Theorem assemble_postcondition entries entries' m :
  NoDup (sequence_number <$> continuation_packets entries) ->
  entries' ≡ₚ entries ->
  running_max entries' m ->
  let sorted := in_sequence entries in
  let blob := payloads_in_sequence entries in
  sorted ≡ₚ continuation_packets entries /\
  StronglySorted Z.lt (sequence_number <$> sorted) /\
  blob = concat ((fun e => removelast (drop 2 (e_data e))) <$> sorted) /\
  assemble_preset entries' =
    match blob with
    | [] => entries'
    | _ :: _ => entries' ++ [mkEntry (m + 1) 0x10 0 (Some MetaAssembled) blob]
    end /\
  entry_sub (mkEntry (m + 1) 0x10 0 (Some MetaAssembled) blob) = Some (PyInt 0xFE).
Proof.
  intros Hnd Hp Hm sorted blob.
  apply SegmentFacts.running_max_max_id in Hm. subst m.
  assert (Hperm : sorted ≡ₚ continuation_packets entries)
    by apply merge_sort_Permutation.
  assert (Hsorted : StronglySorted Z.lt (sequence_number <$> sorted))
    by now apply in_sequence_sorted.
  split; [exact Hperm|]. split; [exact Hsorted|]. split; [reflexivity|].
  split; [|reflexivity].
  assert (Hall : Forall is_continuation sorted).
  { rewrite Hperm. apply continuation_packets_all. }
  assert (Hperm' : sorted ≡ₚ packets entries').
  { rewrite packets_continuation, Hperm. unfold continuation_packets.
    now rewrite Hp. }
  rewrite <- (seq_of_fmap _ Hall) in Hsorted.
  rewrite (assemble_preset_sorted entries' sorted Hperm' Hsorted).
  assert (Hb : concat (payload_of <$> sorted) = blob).
  { subst blob. unfold payloads_in_sequence. fold sorted. f_equal.
    apply list_fmap_ext. intros _ e _. apply payload_of_payload_bytes. }
  rewrite Hb. reflexivity.
Qed.

(** The packets with sequence numbers 2, 0, 1 of the example, submitted in
    reverse: the blob is the payloads in the order 0, 1, 2; it is appended
    with id 3. *)
Lemma assemble_postcondition_witness :
  in_sequence scrambled ≡ₚ continuation_packets scrambled /\
  StronglySorted Z.lt (sequence_number <$> in_sequence scrambled) /\
  [xa1; xa2; xb1; xc1; xc2]
    = concat ((fun e => removelast (drop 2 (e_data e))) <$> in_sequence scrambled) /\
  assemble_preset (reverse scrambled) =
    reverse scrambled
      ++ [mkEntry (2 + 1) 0x10 0 (Some MetaAssembled) [xa1; xa2; xb1; xc1; xc2]] /\
  entry_sub (mkEntry (2 + 1) 0x10 0 (Some MetaAssembled) [xa1; xa2; xb1; xc1; xc2])
    = Some (PyInt 0xFE).
Proof.
  refine (assemble_postcondition scrambled (reverse scrambled) 2 _ _ _).
  - apply (bool_decide_unpack _). vm_compute. exact I.
  - apply reverse_Permutation.
  - split; [lia|]. split.
    + repeat constructor; vm_compute; congruence.
    + right. apply Exists_cons_hd. reflexivity.
Defined.

(** The scrambled packets assemble in the order 0, 1, 2. *)
Example assemble_scrambled :
  assemble_preset scrambled =
    scrambled ++ [mkEntry 3 0x10 0 (Some MetaAssembled) [xa1; xa2; xb1; xc1; xc2]].
Proof. vm_compute. reflexivity. Qed.

(** C3 as stated fails when every collected payload is empty: a lone
    continuation packet of exactly three bytes is collected (its payload
    [data[2:-1]] is the empty string), yet no record is appended. *)
Lemma assemble_empty_payload_appends_nothing :
  is_continuation (packet 0 [x00; x00; x7f]) /\
  continuation_packets [packet 0 [x00; x00; x7f]] = [packet 0 [x00; x00; x7f]] /\
  payload_bytes (packet 0 [x00; x00; x7f]) = [] /\
  is_packet (packet 0 [x00; x00; x7f]) = true /\
  foldl collect None [packet 0 [x00; x00; x7f]] = Some {[ 0 := [] ]} /\
  assemble_preset [packet 0 [x00; x00; x7f]] = [packet 0 [x00; x00; x7f]].
Proof.
  split; [repeat split; cbn; auto; lia|].
  split; [vm_compute; reflexivity|].
  split; [reflexivity|].
  split; [reflexivity|]. split; [|vm_compute; reflexivity].
  cbn [foldl]. unfold collect.
  change (is_packet (packet 0 [x00; x00; x7f])) with true. cbv iota.
  f_equal.
Qed.

End AssembleClaims.

(** ** Message canonicalizer *)

Module CanonFacts.
Import SysexPack Canonicalizer.

Lemma land_lnot_mask (s m : Z) :
  Z.land (Z.lnot (Z.land s m)) m = Z.land (Z.lnot s) m.
Proof.
  apply Z.bits_inj'. intros n Hn.
  rewrite !Z.land_spec, !Z.lnot_spec, Z.land_spec by exact Hn.
  destruct (Z.testbit s n), (Z.testbit m n); reflexivity.
Qed.

Lemma sum7_fmap (bs : list byte) :
  sum7 bs = foldr Z.add 0 ((fun b => Z.land (byte_to_Z b) 0x7F) <$> bs).
Proof.
  unfold sum7. induction bs as [|b bs IH]; [reflexivity|].
  cbn [foldr fmap list_fmap]. now rewrite IH.
Qed.

(** The checksum the code computes is the one the specification writes. *)
Lemma checksum_ones_complement data : checksum data = ones_complement_7bit data.
Proof.
  unfold checksum, ones_complement_7bit.
  rewrite land_lnot_mask, sum7_fmap, removelast_firstn_len, Nat.sub_1_r.
  reflexivity.
Qed.

(** The byte the code compares with is the declared trailer. *)
Lemma trailer_declared data : trailer data = declared_trailer data.
Proof.
  unfold trailer, declared_trailer.
  induction data as [|b body _] using rev_ind; [reflexivity|].
  now rewrite last_last, reverse_snoc.
Qed.

Lemma bytes_of_Ok (l : list Z) :
  Forall (fun v => 0 <= v < 256) l -> bytes_of l = Ok (byte_of_Z <$> l).
Proof.
  intros H. unfold bytes_of.
  replace (forallb (fun v => (0 <=? v) && (v <? 256)) l) with true; [reflexivity|].
  symmetry. apply forallb_forall. intros v Hv.
  rewrite Forall_forall in H. apply list_elem_of_In in Hv. specialize (H v Hv).
  apply andb_true_intro. split; [apply Z.leb_le | apply Z.ltb_lt]; lia.
Qed.

Lemma bytes_of_Raise (l : list Z) :
  ~ Forall (fun v => 0 <= v < 256) l -> bytes_of l = Raise ValueError.
Proof.
  intros H. unfold bytes_of.
  destruct (forallb (fun v => (0 <=? v) && (v <? 256)) l) eqn:E; [|reflexivity].
  exfalso. apply H. apply Forall_forall. intros v Hv.
  rewrite forallb_forall in E. apply list_elem_of_In in Hv. specialize (E v Hv).
  apply andb_prop in E as [E1 E2]. apply Z.leb_le in E1. apply Z.ltb_lt in E2. lia.
Qed.

Lemma checksum_flag_Ok spec data :
  checksum_value spec <> Some ChkNotObject ->
  exists valid, checksum_flag spec data = Ok valid.
Proof.
  intros H. unfold checksum_flag, chkspec_type.
  destruct (checksum_value spec) as [[ty|]|]; [| contradiction |];
    cbn [mbind result_bind]; [|eauto].
  destruct ty as [ty|]; [|eauto].
  destruct (String.eqb ty "ones_complement_7bit" && (1 <=? length data)%nat);
    [|eauto].
  destruct (negb (trailer data =? 127)); [|eauto].
  destruct (negb (checksum data =? trailer data)); eauto.
Qed.

Lemma checksum_flag_Raise spec data :
  checksum_value spec = Some ChkNotObject ->
  checksum_flag spec data = Raise AttributeError.
Proof. intros H. unfold checksum_flag, chkspec_type. now rewrite H. Qed.

(** With checksum type [ones_complement_7bit] the flag is true exactly when
    the declared trailer is the sentinel or equals the computed checksum. *)
Lemma checksum_flag_ones_complement spec data :
  checksum_value spec = Some (ChkObject (Some "ones_complement_7bit"%string)) ->
  data <> [] ->
  checksum_flag spec data =
    Ok ((declared_trailer data =? 0x7F)
        || (ones_complement_7bit data =? declared_trailer data)).
Proof.
  intros Hc Hd. unfold checksum_flag, chkspec_type. rewrite Hc.
  cbn [mbind result_bind String.eqb Ascii.eqb Bool.eqb andb].
  destruct data as [|d data']; [contradiction|]. cbn [length Nat.leb].
  rewrite checksum_ones_complement, trailer_declared.
  destruct (declared_trailer (d :: data') =? 127),
    (ones_complement_7bit (d :: data') =? declared_trailer (d :: data'));
    reflexivity.
Qed.

Lemma at_app_r (pre rest : list byte) (k : nat) :
  at_ (pre ++ rest) (length pre + k) = at_ rest k.
Proof. unfold at_. now rewrite app_nth2_plus. Qed.

Lemma frame_payload_strip (b0 b1 : byte) (payload : list byte) :
  frame_payload (b0 :: payload ++ [b1]) = payload.
Proof.
  unfold frame_payload, slice_to_last, slice.
  cbn [length]. rewrite length_app. cbn [length].
  destruct (2 <=? S (length payload + 1))%nat eqn:E;
    [|apply Nat.leb_gt in E; lia].
  cbn [drop].
  replace (S (length payload + 1) - 1 - 1)%nat with (length payload) by lia.
  apply take_app_length.
Qed.

Lemma canonize_from_app (a b : list (list byte)) spec : forall idx,
  canonize_from idx (a ++ b) spec =
    (x ← canonize_from idx a spec;
     y ← canonize_from (idx + Z.of_nat (length a)) b spec;
     Ok (x ++ y)).
Proof.
  induction a as [|f a IH]; intros idx.
  - cbn [app length canonize_from mbind result_bind]. rewrite Z.add_0_r.
    now destruct (canonize_from idx b spec).
  - cbn [app length canonize_from]. rewrite IH.
    replace (idx + 1 + Z.of_nat (length a)) with (idx + Z.of_nat (S (length a)))
      by lia.
    destruct (canonize_frame idx f spec) as [kept|e]; [|reflexivity].
    cbn [mbind result_bind].
    destruct (canonize_from (idx + 1) a spec) as [x|e]; [|reflexivity].
    cbn [mbind result_bind].
    destruct (canonize_from (idx + Z.of_nat (S (length a))) b spec) as [y|e];
      destruct kept; reflexivity.
Qed.

(** What [_proteus_parse] returns on a message of the specified device. *)
Lemma proteus_parse_message spec fam edv family dev ed cmd data :
  Forall (fun v => 0 <= v < 256) (manufacturerId spec) ->
  manufacturerId spec <> [] ->
  familyId spec = Some fam -> editor spec = Some edv ->
  byte_to_Z family = fam -> byte_to_Z ed = edv ->
  _proteus_parse (message (prefix_of spec) family dev ed cmd data) spec =
    (valid ← checksum_flag spec data;
     Ok (Some (mkParsed fam (byte_to_Z dev) (byte_to_Z cmd) (subtype_of cmd data)
                 valid data))).
Proof.
  intros Hb Hm Hf He Hfam Hed. unfold _proteus_parse, message.
  rewrite bytes_of_Ok by exact Hb. cbn [mbind result_bind]. fold (prefix_of spec).
  destruct (prefix_of spec) as [|m0 ms] eqn:Em.
  { unfold prefix_of in Em. apply fmap_nil_inv in Em. contradiction. }
  rewrite Hf, He. set (mids := m0 :: ms).
  rewrite length_app. cbn [length].
  destruct (length mids + S (S (S (S (length data)))) <? length mids + 4)%nat eqn:E;
    [apply Nat.ltb_lt in E; lia | clear E].
  rewrite take_app_length, bool_decide_eq_true_2 by reflexivity. cbn [negb].
  set (rest := family :: dev :: ed :: cmd :: data).
  assert (H0 : at_ (mids ++ rest) (length mids) = fam).
  { rewrite <- (Nat.add_0_r (length mids)), at_app_r. exact Hfam. }
  assert (H1 : at_ (mids ++ rest) (length mids + 1) = byte_to_Z dev)
    by now rewrite at_app_r.
  assert (H2 : at_ (mids ++ rest) (length mids + 2) = edv).
  { rewrite at_app_r. exact Hed. }
  assert (H3 : at_ (mids ++ rest) (length mids + 3) = byte_to_Z cmd)
    by now rewrite at_app_r.
  assert (H4 : drop (length mids + 4) (mids ++ rest) = data)
    by now rewrite <- drop_drop, drop_app_length.
  rewrite H0, H1, H2, H3, H4, !Z.eqb_refl. reflexivity.
Qed.

(** With a well-formed specification no call raises. *)
Lemma proteus_parse_total payload spec :
  well_formed spec -> exists r, _proteus_parse payload spec = Ok r.
Proof.
  intros [Hb Hc]. unfold _proteus_parse.
  rewrite bytes_of_Ok by exact Hb. cbn [mbind result_bind].
  destruct (byte_of_Z <$> manufacturerId spec) as [|m0 ms]; [eauto|].
  destruct (familyId spec); [|eauto]. destruct (editor spec); [|eauto].
  destruct (_ <? _)%nat; [eauto|]. destruct (negb (bool_decide _)); [eauto|].
  destruct (_ || _); [eauto|].
  match goal with
  | |- context [checksum_flag spec ?d] =>
      destruct (checksum_flag_Ok spec d Hc) as [valid ->]
  end.
  cbn [mbind result_bind]. eauto.
Qed.

Lemma canonize_frame_total idx f spec :
  (forall sp, spec = Some sp -> well_formed sp) ->
  exists r, canonize_frame idx f spec = Ok r.
Proof.
  intros H. unfold canonize_frame. destruct spec as [sp|]; [|eauto].
  destruct (familyId sp); [|eauto].
  destruct (proteus_parse_total (frame_payload f) sp (H sp eq_refl)) as [r ->].
  cbn [mbind result_bind]. destruct r; eauto.
Qed.

Lemma canonize_from_total frames spec :
  (forall sp, spec = Some sp -> well_formed sp) ->
  forall idx, exists out, canonize_from idx frames spec = Ok out.
Proof.
  intros H. induction frames as [|f fs IH]; intros idx; [cbn; eauto|].
  cbn [canonize_from].
  destruct (canonize_frame_total idx f spec H) as [r ->].
  destruct (IH (idx + 1)) as [out ->].
  cbn [mbind result_bind]. destruct r; eauto.
Qed.

End CanonFacts.

Module CanonClaims.
Import SysexPack Canonicalizer CanonFacts Examples.

(** C6 (checksum validation): for a device specification with checksum
    type [ones_complement_7bit] and a matching message with non-empty data,
    let [exp = data[-1] & 0x7F] be the declared trailer and
    [chk = (~sum(b & 0x7F for b in data[:-1])) & 0x7F].  The canonicalizer
    keeps the record in every case, at the frame's ordinal, and its
    [validChecksum] flag is true exactly when [exp] is the sentinel 0x7F or
    [chk = exp]; a mismatch yields a kept record flagged false. *)
Theorem checksum_validation spec fam edv family dev ed cmd data b0 b1 pre post :
  Forall (fun v => 0 <= v < 256) (manufacturerId spec) ->
  manufacturerId spec <> [] ->
  familyId spec = Some fam -> editor spec = Some edv ->
  checksum_value spec = Some (ChkObject (Some "ones_complement_7bit"%string)) ->
  byte_to_Z family = fam -> byte_to_Z ed = edv ->
  data <> [] ->
  let exp := declared_trailer data in
  let chk := ones_complement_7bit data in
  let valid := (exp =? 0x7F) || (chk =? exp) in
  let frame := b0 :: message (prefix_of spec) family dev ed cmd data ++ [b1] in
  let record idx :=
    mkEntry idx (byte_to_Z cmd) 0
      (Some (MetaParsed fam (byte_to_Z dev) (byte_to_Z cmd) (subtype_of cmd data) valid))
      data in
  (forall idx, canonize_frame idx frame (Some spec) = Ok (Some (record idx))) /\
  canonize [frame] (Some spec) = Ok [record 0] /\
  exists out,
    canonize (pre ++ frame :: post) (Some spec) = Ok out /\
    record (Z.of_nat (length pre)) ∈ out.
Proof.
  intros Hb Hm Hf He Hc Hfam Hed Hd exp chk valid frame record.
  assert (Hframe : forall idx, canonize_frame idx frame (Some spec) = Ok (Some (record idx))).
  { intros idx. unfold canonize_frame. subst frame.
    rewrite frame_payload_strip, Hf.
    rewrite (proteus_parse_message spec fam edv) by assumption.
    rewrite (checksum_flag_ones_complement spec data Hc Hd).
    reflexivity. }
  assert (Hwf : forall sp, Some spec = Some sp -> well_formed sp).
  { intros sp [= <-]. split; [exact Hb|]. rewrite Hc. discriminate. }
  split; [exact Hframe|]. split.
  - unfold canonize. cbn [canonize_from]. rewrite Hframe. reflexivity.
  - unfold canonize. rewrite canonize_from_app.
    destruct (canonize_from_total pre (Some spec) Hwf 0) as [x ->].
    cbn [mbind result_bind canonize_from]. rewrite Hframe.
    destruct (canonize_from_total post (Some spec) Hwf
                (0 + Z.of_nat (length pre) + 1)) as [y ->].
    cbn [mbind result_bind]. eexists. split; [reflexivity|].
    apply elem_of_app. right. rewrite Z.add_0_l. now left.
Qed.

(** The example of the specification: with the correct trailer [0x1F] the
    record is valid; with one bit of the trailer flipped ([0x1E]) the record
    is kept and flagged invalid. *)
Lemma checksum_validation_witness :
  canonize [example_frame x1f] (Some proteus_spec) = Ok [example_record x1f true] /\
  canonize [example_frame x1e] (Some proteus_spec) = Ok [example_record x1e false].
Proof.
  split.
  - refine (proj1 (proj2 (checksum_validation proteus_spec 0x0F 0x55 x0f x00 x55 x12
                            [x10; x20; x30; x1f] xf0 xf7 [] [] _ _ _ _ _ _ _ _)));
      try reflexivity; try discriminate; repeat constructor; lia.
  - refine (proj1 (proj2 (checksum_validation proteus_spec 0x0F 0x55 x0f x00 x55 x12
                            [x10; x20; x30; x1e] xf0 xf7 [] [] _ _ _ _ _ _ _ _)));
      try reflexivity; try discriminate; repeat constructor; lia.
Defined.

(** With the correct trailer the record is valid; flipping any one of the
    seven checksum bits yields a record that is still kept, flagged
    invalid. *)
Example checksum_example :
  ones_complement_7bit [x10; x20; x30; x1f] = 0x1F /\
  canonize [example_frame x1f] (Some proteus_spec) = Ok [example_record x1f true] /\
  Forall (fun k =>
            let flipped := byte_of_Z (Z.lxor 0x1F (2 ^ k)) in
            canonize [example_frame flipped] (Some proteus_spec)
              = Ok [example_record flipped false])
    [0; 1; 2; 3; 4; 5; 6].
Proof.
  split; [reflexivity|]. split; [vm_compute; reflexivity|].
  repeat constructor; vm_compute; reflexivity.
Qed.

End CanonClaims.

(** ** Payload unpacker *)

Module UnpackFacts.
Import SyxTools.





(** A full group of 8 bytes is decoded on its own. *)
Lemma unpack_full_group (g rest : list byte) :
  length g = 8%nat ->
  unpack_from None (g ++ rest) = decode_group g ++ unpack_from None rest.
Proof.
  intros Hg.
  destruct g as [|b0 [|b1 [|b2 [|b3 [|b4 [|b5 [|b6 [|b7 [|b8 g]]]]]]]]];
    try discriminate Hg.
  reflexivity.
Qed.

(** A trailing group of fewer than 8 bytes is decoded on its own. *)
Lemma unpack_short_group (g : list byte) :
  (length g < 8)%nat -> unpack_from None g = decode_group g.
Proof.
  intros Hg.
  destruct g as [|b0 [|b1 [|b2 [|b3 [|b4 [|b5 [|b6 [|b7 g]]]]]]]];
    try reflexivity.
  cbn [length] in Hg. lia.
Qed.





End UnpackFacts.

Module UnpackClaims.
Import SyxTools UnpackFacts Examples.



(** The packed example computed outright: bits 0 and 2 of the leading byte
    0x05 set the high bit of the first and third data byte; the lone
    trailing byte 0x7F is dropped. *)
Example unpack_packed_core :
  unpack_core packed_core = [x81; x02; x83; x04; x05; x06; x07].
Proof. vm_compute. reflexivity. Qed.

(** Every message of [split_and_unpack] is the unpacked core of the
    corresponding SysEx message. *)
Lemma split_and_unpack_messages raw :
  split_and_unpack raw
    = (fun m => unpack_core (slice_to_last m 1)) <$> iter_sysex_messages raw.
Proof. reflexivity. Qed.

End UnpackClaims.

(** ** Record ids across the pipeline *)

Module IdFacts.
Import SysexPack Ids AssembleFacts.

Lemma counts_up_above next new :
  counts_up next new ->
  StronglySorted Z.lt (e_id <$> new) /\ Forall (fun s => next <= e_id s) new.
Proof.
  revert next. induction new as [|s rest IH]; intros next H.
  - split; constructor.
  - cbn [counts_up] in H. destruct H as [Hs Hrest].
    destruct (IH _ Hrest) as [Hsorted Hall]. split.
    + cbn [fmap list_fmap]. constructor; [exact Hsorted|].
      rewrite Forall_fmap. eapply Forall_impl; [exact Hall|].
      intros x Hx. cbv [compose]. cbv beta in Hx. lia.
    + constructor; [lia|]. eapply Forall_impl; [exact Hall|].
      intros x Hx. cbv beta in *. lia.
Qed.

(** Records counted up from the maximum plus one are above all others. *)
Lemma counts_up_fresh entries new :
  counts_up (max_id entries + 1) new ->
  forall s e, s ∈ new -> e ∈ entries -> e_id e < e_id s.
Proof.
  intros H s e Hs He. apply counts_up_above in H. destruct H as [_ Hall].
  rewrite Forall_forall in Hall. specialize (Hall _ Hs).
  pose proof (max_id_upper _ _ He). lia.
Qed.

Lemma carve_counts_up n : forall i filt_blob entries next_id,
  exists new, carve n i filt_blob entries next_id = entries ++ new /\
              counts_up next_id new.
Proof.
  induction n as [|n IH]; intros i filt_blob entries next_id.
  - exists []. split; [now rewrite app_nil_r | exact I].
  - cbn [carve].
    destruct (IH (S i) filt_blob
                (entries ++ [layer_filter_entry next_id (Z.of_nat i)
                               (slice filt_blob (i * 14) ((i + 1) * 14))])
                (next_id + 1)) as (new & -> & Hnew).
    eexists. split; [now rewrite <- app_assoc|].
    cbn [app counts_up]. split; [reflexivity | exact Hnew].
Qed.

Lemma augment_loop_counts_up (ModelData : Type)
    (generate : Z -> ModelData -> list byte) (table : gmap string ModelData)
    (todo : list Entry) : forall augmented next_id,
  exists new,
    augment_loop ModelData generate table todo augmented next_id = augmented ++ new /\
    counts_up next_id new.
Proof.
  induction todo as [|entry todo IH]; intros augmented next_id.
  - exists []. split; [now rewrite app_nil_r | exact I].
  - cbn [augment_loop].
    destruct ((e_type entry =? 16) && entry_sub_is entry 34); [|apply IH].
    destruct (14 <=? length (e_data entry))%nat; [|apply IH].
    destruct (table !! model_name (at_ (e_data entry) 0 `mod` 3)) as [md|];
      [|apply IH].
    match goal with
    | |- context [augment_loop _ _ _ _ (augmented ++ [?x]) _] =>
        destruct (IH (augmented ++ [x]) (next_id + 1)) as (new & -> & Hnew);
        exists (x :: new)
    end.
    split; [now rewrite <- app_assoc|].
    cbn [counts_up]. split; [reflexivity | exact Hnew].
Qed.

Lemma assemble_appends_fresh : appends_fresh assemble_preset.
Proof.
  intros entries. unfold assemble_preset.
  assert (Hnil : exists new, entries = entries ++ new /\
                   counts_up (max_id entries + 1) new /\
                   (forall s e, s ∈ new -> e ∈ entries -> e_id e < e_id s)).
  { exists []. rewrite app_nil_r. repeat split. intros s e Hs. inversion Hs. }
  destruct (foldl collect None entries) as [parts|]; [|exact Hnil].
  destruct (concat_sorted parts) as [|b blob]; [exact Hnil|].
  eexists. split; [reflexivity|].
  assert (Hc : counts_up (max_id entries + 1)
                 [assembled_entry (max_id entries + 1) (b :: blob)])
    by (cbn; auto).
  split; [exact Hc | now apply counts_up_fresh].
Qed.

Lemma segment_appends_fresh : appends_fresh segment_assembled.
Proof.
  intros entries. unfold segment_assembled.
  assert (Hnil : exists new, entries = entries ++ new /\
                   counts_up (max_id entries + 1) new /\
                   (forall s e, s ∈ new -> e ∈ entries -> e_id e < e_id s)).
  { exists []. rewrite app_nil_r. repeat split. intros s e Hs. inversion Hs. }
  destruct (find_sub entries 1) as [header|]; [|exact Hnil].
  destruct (find_sub entries 254) as [assembled|]; [|exact Hnil].
  destruct (_parse_preset_header_blob (e_data header)) as [hdr|]; [|exact Hnil].
  match goal with |- context [if ?c then _ else _] => destruct c end;
    [exact Hnil|].
  match goal with
  | |- context [carve ?n ?i ?fb entries ?nid] =>
      destruct (carve_counts_up n i fb entries nid) as (new & -> & Hnew)
  end.
  exists new. split; [reflexivity|].
  split; [exact Hnew | now apply counts_up_fresh].
Qed.

Lemma augment_appends_fresh (ModelData : Type)
    (models : option (gmap string ModelData))
    (generate : Z -> ModelData -> list byte) :
  appends_fresh (augment_with_zmf1 ModelData models generate).
Proof.
  intros entries. unfold augment_with_zmf1.
  destruct models as [table|].
  - destruct (augment_loop_counts_up ModelData generate table entries entries
                (max_id entries + 1)) as (new & -> & Hnew).
    exists new. split; [reflexivity|].
    split; [exact Hnew | now apply counts_up_fresh].
  - exists []. rewrite app_nil_r. repeat split. intros s e Hs. inversion Hs.
Qed.

(** A fresh-appending stage keeps a strictly increasing id list strictly
    increasing. *)
Lemma appends_fresh_sorted stage orig syn :
  appends_fresh stage ->
  StronglySorted Z.lt (e_id <$> (orig ++ syn)) ->
  exists syn', stage (orig ++ syn) = orig ++ syn' /\
               StronglySorted Z.lt (e_id <$> (orig ++ syn')).
Proof.
  intros Hstage Hsorted.
  destruct (Hstage (orig ++ syn)) as (new & Heq & Hup & Hfresh).
  exists (syn ++ new). split; [now rewrite Heq, app_assoc|].
  rewrite app_assoc, fmap_app. apply StronglySorted_app_2.
  - intros x1 x2 H1 H2.
    apply list_elem_of_fmap in H1. destruct H1 as (e & -> & He).
    apply list_elem_of_fmap in H2. destruct H2 as (s & -> & Hs).
    now apply Hfresh.
  - exact Hsorted.
  - now apply counts_up_above in Hup.
Qed.

(** [canonize] numbers the kept frames by their ordinal. *)
Lemma canonize_from_ids frames spec : forall idx out,
  canonize_from idx frames spec = Ok out ->
  StronglySorted Z.lt (e_id <$> out) /\
  forall e, e ∈ out ->
    idx <= e_id e /\
    exists f, frames !! Z.to_nat (e_id e - idx) = Some f /\
              canonize_frame (e_id e) f spec = Ok (Some e).
Proof.
  induction frames as [|f fs IH]; intros idx out H.
  - injection H as <-. split; [constructor | intros e He; inversion He].
  - cbn [canonize_from] in H.
    destruct (canonize_frame idx f spec) as [kept|err] eqn:E0; [|discriminate].
    cbn [mbind result_bind] in H.
    destruct (canonize_from (idx + 1) fs spec) as [arr|err] eqn:E1; [|discriminate].
    cbn [mbind result_bind] in H.
    destruct (IH (idx + 1) arr E1) as [Hsorted Hmem].
    assert (Hrest : forall e, e ∈ arr ->
              idx <= e_id e /\
              exists f0, (f :: fs) !! Z.to_nat (e_id e - idx) = Some f0 /\
                         canonize_frame (e_id e) f0 spec = Ok (Some e)).
    { intros e He. destruct (Hmem e He) as (Hle & f0 & Hf0 & Hc).
      split; [lia|]. exists f0. split; [|exact Hc].
      replace (Z.to_nat (e_id e - idx)) with (S (Z.to_nat (e_id e - (idx + 1))))
        by lia.
      exact Hf0. }
    destruct kept as [e0|]; injection H as <-; [|now split].
    assert (Hid : e_id e0 = idx).
    { unfold canonize_frame in E0.
      destruct spec as [sp|]; [destruct (familyId sp)|];
        [destruct (_proteus_parse _ _) as [[meta|]|]|..]; try discriminate;
        injection E0 as <-; reflexivity. }
    split.
    + cbn [fmap list_fmap]. constructor; [exact Hsorted|].
      rewrite Forall_fmap, Forall_forall. intros e He.
      destruct (Hmem e He) as [Hle _]. cbv [compose]. lia.
    + intros e He. apply elem_of_cons in He. destruct He as [-> | He].
      * split; [lia|]. exists f. rewrite Hid, Z.sub_diag. split; [reflexivity|].
        exact E0.
      * now apply Hrest.
Qed.

End IdFacts.

Module IdClaims.
Import SysexPack Canonicalizer Ids AssembleFacts CanonFacts IdFacts.

(** C10 (id uniqueness): [canonize] gives every record the ordinal of its
    frame, so the ids of the original records are strictly increasing; each
    of [assemble_preset], [segment_assembled] and [augment_with_zmf1] only
    appends records whose ids count up from the maximum of the existing ids
    plus one and are therefore above every id already present; after the
    whole pipeline the ids are pairwise distinct and every synthetic
    record's id is above every original record's id.  The pipeline returns
    its records whenever [canonize] does, which is the case for every frame
    list when there is no specification or a well-formed one; an exception
    of [canonize] ends the pipeline. *)
Theorem pipeline_ids (ModelData : Type) (models : option (gmap string ModelData))
    (generate : Z -> ModelData -> list byte)
    (frames : list (list byte)) (spec : option DeviceSpec) :
  (forall original, canonize frames spec = Ok original ->
     (forall e, e ∈ original ->
        0 <= e_id e /\
        exists f, frames !! Z.to_nat (e_id e) = Some f /\
                  canonize_frame (e_id e) f spec = Ok (Some e)) /\
     StronglySorted Z.lt (e_id <$> original) /\
     exists synthetic,
       pipeline ModelData models generate frames spec = Ok (original ++ synthetic) /\
       NoDup (e_id <$> (original ++ synthetic)) /\
       forall s e, s ∈ synthetic -> e ∈ original -> e_id e < e_id s) /\
  appends_fresh assemble_preset /\
  appends_fresh segment_assembled /\
  appends_fresh (augment_with_zmf1 ModelData models generate) /\
  ((forall sp, spec = Some sp -> well_formed sp) ->
   exists original, canonize frames spec = Ok original) /\
  (forall e, canonize frames spec = Raise e ->
             pipeline ModelData models generate frames spec = Raise e).
Proof.
  split; [|split; [apply assemble_appends_fresh|
           split; [apply segment_appends_fresh|
           split; [apply augment_appends_fresh|split]]]].
  - intros original Hc.
    destruct (canonize_from_ids frames spec 0 original Hc) as [Hsorted Hmem].
    split; [|split; [exact Hsorted|]].
    { intros e He. destruct (Hmem e He) as (Hle & f & Hf & Hf').
      rewrite Z.sub_0_r in Hf. eauto. }
    assert (H0 : StronglySorted Z.lt (e_id <$> (original ++ [])))
      by now rewrite app_nil_r.
    destruct (appends_fresh_sorted assemble_preset original [] assemble_appends_fresh H0)
      as (syn1 & E1 & H1).
    destruct (appends_fresh_sorted segment_assembled original syn1
                segment_appends_fresh H1) as (syn2 & E2 & H2).
    destruct (appends_fresh_sorted (augment_with_zmf1 ModelData models generate)
                original syn2 (augment_appends_fresh _ _ _) H2) as (syn3 & E3 & H3).
    exists syn3. split; [|split].
    + unfold pipeline. rewrite Hc. cbn [mbind result_bind].
      rewrite app_nil_r in E1. now rewrite E1, E2, E3.
    + now apply StronglySorted_lt_NoDup.
    + intros s e Hs He. rewrite fmap_app in H3.
      apply (StronglySorted_app_1_elem_of _ _ _ _ _ H3);
        apply list_elem_of_fmap; eauto.
  - intros Hwf. apply canonize_from_total. exact Hwf.
  - intros e He. unfold pipeline. now rewrite He.
Qed.

End IdClaims.

(** ** Coefficient synthesizer *)

Module BiquadFacts.
Import SysexPack Biquad.






End BiquadFacts.

Module BiquadClaims.
Import SysexPack Biquad BiquadFacts.




(** A NaN angle: [math.cos] returns NaN, [min(1.999, nan)] is [1.999], and
    with [r = 0.5] the result [a1 = 1.999], [a2 = 0.25] is within the clamp
    limits and far outside the stability triangle. *)
Example nan_angle_clamps_high :
  exists b0 b1 b2,
    poles_to_biquad_coeffs (fun _ => Ok PrimFloat.nan) 0.5%float PrimFloat.nan
      = Ok (b0, b1, b2, 1.999%float, 0.25%float) /\
    PrimFloat.ltb (PrimFloat.abs 1.999%float) (PrimFloat.add 1.0%float 0.25%float)
      = false.
Proof. do 3 eexists. split; [vm_compute; reflexivity | reflexivity]. Qed.

End BiquadClaims.

(** * Further properties *)

(** ** Frame extraction *)

Module FramingFacts.
Import SysexPackRest SyxTools.

Lemma body_to_F7_Some l body :
  body_to_F7 l = Some body ->
  (xf7 ∉ body) /\ l = body ++ xf7 :: drop (S (length body)) l.
Proof.
  revert body. induction l as [|b rest IH]; intros body H; [discriminate|].
  cbn [body_to_F7] in H. destruct (bool_decide (b = xf7)) eqn:Eb.
  - injection H as <-. apply bool_decide_eq_true_1 in Eb. subst b.
    split; [apply not_elem_of_nil | reflexivity].
  - apply bool_decide_eq_false_1 in Eb.
    destruct (body_to_F7 rest) as [body'|] eqn:Er; [|discriminate].
    injection H as <-. destruct (IH body' eq_refl) as [Hnot Heq].
    split.
    + rewrite not_elem_of_cons. split; [congruence | exact Hnot].
    + cbn [app length drop]. f_equal. exact Heq.
Qed.

Lemma body_to_F7_app body rest :
  xf7 ∉ body -> body_to_F7 (body ++ xf7 :: rest) = Some body.
Proof.
  induction body as [|b body IH]; intros Hnot.
  - cbn. now rewrite bool_decide_eq_true_2.
  - apply not_elem_of_cons in Hnot. destruct Hnot as [Hb Hnot].
    cbn [app body_to_F7]. rewrite bool_decide_eq_false_2 by congruence.
    now rewrite IH.
Qed.

Lemma body_to_F7_None l : body_to_F7 l = None <-> xf7 ∉ l.
Proof.
  induction l as [|b rest IH].
  - split; [intros _; apply not_elem_of_nil | reflexivity].
  - cbn [body_to_F7]. rewrite not_elem_of_cons.
    destruct (bool_decide (b = xf7)) eqn:Eb.
    + apply bool_decide_eq_true_1 in Eb. split; [discriminate | intros [? _]; congruence].
    + apply bool_decide_eq_false_1 in Eb.
      destruct (body_to_F7 rest).
      * split; [discriminate|]. intros [_ H]. apply IH in H. discriminate.
      * split; [|reflexivity]. intros _. split; [congruence | now apply IH].
Qed.

Lemma extract_from_skip raw : forall skip,
  extract_from skip raw = extract_from 0 (drop skip raw).
Proof.
  induction raw as [|b rest IH]; intros skip.
  - now rewrite drop_nil.
  - destruct skip as [|k]; [reflexivity|]. cbn [extract_from drop]. apply IH.
Qed.

(** Without an end delimiter ahead, no frame is emitted. *)
Lemma extract_from_no_F7 raw : xf7 ∉ raw -> extract_from 0 raw = [].
Proof.
  induction raw as [|b rest IH]; intros Hnot; [reflexivity|].
  apply not_elem_of_cons in Hnot. destruct Hnot as [_ Hnot].
  cbn [extract_from]. rewrite (proj2 (body_to_F7_None rest) Hnot).
  destruct (bool_decide (b = xf0)); now apply IH.
Qed.

Lemma extract_from_junk junk raw :
  xf0 ∉ junk -> extract_from 0 (junk ++ raw) = extract_from 0 raw.
Proof.
  induction junk as [|b junk IH]; intros Hnot; [reflexivity|].
  apply not_elem_of_cons in Hnot. destruct Hnot as [Hb Hnot].
  cbn [app extract_from]. rewrite bool_decide_eq_false_2 by congruence.
  now apply IH.
Qed.

Lemma extract_from_frame body raw :
  xf7 ∉ body ->
  extract_from 0 (xf0 :: body ++ xf7 :: raw)
    = (xf0 :: body ++ [xf7]) :: extract_from 0 raw.
Proof.
  intros Hnot. cbn [extract_from].
  rewrite bool_decide_eq_true_2 by reflexivity.
  rewrite body_to_F7_app by exact Hnot. f_equal.
  rewrite extract_from_skip.
  replace (body ++ xf7 :: raw) with ((body ++ [xf7]) ++ raw)
    by now rewrite <- app_assoc.
  replace (S (length body)) with (length (body ++ [xf7]))
    by (rewrite length_app; cbn; lia).
  now rewrite drop_app_length.
Qed.

Lemma iter_from_open l : forall acc,
  iter_from (Some acc) l =
    match body_to_F7 l with
    | Some body =>
        (rev acc ++ body ++ [xf7]) :: iter_from None (drop (S (length body)) l)
    | None => []
    end.
Proof.
  induction l as [|b rest IH]; intros acc; [reflexivity|].
  cbn [iter_from body_to_F7]. unfold F7.
  destruct (bool_decide (b = xf7)) eqn:Eb.
  - apply bool_decide_eq_true_1 in Eb. subst b. cbn [rev length drop app].
    reflexivity.
  - rewrite IH. destruct (body_to_F7 rest) as [body|]; [|reflexivity].
    cbn [fmap option_fmap option_map length drop rev].
    now rewrite <- app_assoc.
Qed.

Lemma extract_from_iter fuel : forall raw,
  (length raw <= fuel)%nat -> extract_from 0 raw = iter_from None raw.
Proof.
  induction fuel as [|fuel IH]; intros raw Hlen.
  - destruct raw; [reflexivity | cbn [length] in Hlen; lia].
  - destruct raw as [|b rest]; [reflexivity|]. cbn [length] in Hlen.
    cbn [extract_from iter_from]. unfold F0.
    destruct (bool_decide (b = xf0)) eqn:Eb; [|apply IH; lia].
    rewrite iter_from_open.
    destruct (body_to_F7 rest) as [body|] eqn:Er.
    + cbn [rev app]. f_equal. rewrite extract_from_skip. apply IH.
      rewrite length_drop. lia.
    + apply extract_from_no_F7. now apply body_to_F7_None.
Qed.

Lemma extract_from_sublist fuel : forall raw,
  (length raw <= fuel)%nat ->
  Forall (fun f => exists body, f = xf0 :: body ++ [xf7] /\ xf7 ∉ body)
    (extract_from 0 raw) /\
  concat (extract_from 0 raw) `sublist_of` raw.
Proof.
  induction fuel as [|fuel IH]; intros raw Hlen.
  - destruct raw; [split; [constructor | reflexivity] | cbn [length] in Hlen; lia].
  - destruct raw as [|b rest]; [split; [constructor | reflexivity]|].
    cbn [length] in Hlen. cbn [extract_from].
    assert (Hrest : Forall (fun f => exists body, f = xf0 :: body ++ [xf7] /\ xf7 ∉ body)
                      (extract_from 0 rest) /\
                    concat (extract_from 0 rest) `sublist_of` b :: rest).
    { destruct (IH rest ltac:(lia)) as [Hf Hs]. split; [exact Hf|].
      now apply sublist_cons. }
    destruct (bool_decide (b = xf0)) eqn:Eb; [|exact Hrest].
    apply bool_decide_eq_true_1 in Eb. subst b.
    destruct (body_to_F7 rest) as [body|] eqn:Er; [|exact Hrest].
    destruct (body_to_F7_Some _ _ Er) as [Hnot Heq].
    rewrite extract_from_skip.
    destruct (IH (drop (S (length body)) rest)) as [Hf Hs].
    { rewrite length_drop. lia. }
    split.
    + constructor; [eauto | exact Hf].
    + cbn [concat]. rewrite Heq at 2.
      cbn [app]. apply sublist_skip. rewrite <- app_assoc.
      apply sublist_app; [reflexivity|]. cbn [app]. now apply sublist_skip.
Qed.

End FramingFacts.

Module FramingProps.
Import SysexPackRest SyxTools Framing FramingFacts.

(** X1: the frame extractor of the packer and the message iterator of the
    extraction tools return the same frames on every buffer. *)
Theorem extract_frames_iter_sysex_messages (raw : list byte) :
  extract_frames raw = iter_sysex_messages raw.
Proof. now apply (extract_from_iter (length raw)). Qed.

(** X2: every extracted frame starts with 0xF0, ends with 0xF7 and has no
    0xF7 before its end; the frames, in order, are disjoint pieces of the
    buffer (their concatenation is a subsequence of it); a buffer without
    0xF7 yields no frame. *)
Theorem extract_frames_well_formed (raw : list byte) :
  Forall (fun f => exists body, f = xf0 :: body ++ [xf7] /\ xf7 ∉ body)
    (extract_frames raw) /\
  concat (extract_frames raw) `sublist_of` raw /\
  (xf7 ∉ raw -> extract_frames raw = []).
Proof.
  destruct (extract_from_sublist (length raw) raw (le_n _)) as [Hf Hs].
  split; [exact Hf|]. split; [exact Hs|]. apply extract_from_no_F7.
Qed.

(** X3: framing round trip.  Frames whose bodies hold no 0xF7, each preceded
    by bytes without 0xF0 and all followed by a tail without 0xF7 (an
    unterminated frame, for one), are extracted exactly, in order. *)
Theorem extract_frames_roundtrip (pieces : list (list byte * list byte))
    (tail : list byte) :
  Forall (fun piece => (xf0 ∉ piece.1) /\ (xf7 ∉ piece.2)) pieces ->
  xf7 ∉ tail ->
  extract_frames (concat (framed <$> pieces) ++ tail) = frame_of <$> pieces.
Proof.
  intros Hp Ht. unfold extract_frames.
  induction Hp as [|[junk body] pieces [Hj Hb] _ IH].
  - cbn. now apply extract_from_no_F7.
  - cbn [fmap list_fmap concat]. unfold framed at 1, frame_of at 1. cbn [fst snd].
    rewrite <- !app_assoc. rewrite extract_from_junk by exact Hj.
    cbn [app]. rewrite <- app_assoc. cbn [app].
    rewrite extract_from_frame by exact Hb. f_equal. exact IH.
Qed.

Lemma extract_frames_roundtrip_witness :
  extract_frames
    (concat (framed <$> [([x00; x01], [x18; xf0; x10]); ([], [])]) ++ [xf0; x18])
  = frame_of <$> [([x00; x01], [x18; xf0; x10]); ([], [])].
Proof.
  apply extract_frames_roundtrip.
  - repeat constructor; cbn; intros H; repeat (apply elem_of_cons in H as [H|H]; [discriminate|]); inversion H.
  - intros H; repeat (apply elem_of_cons in H as [H|H]; [discriminate|]); inversion H.
Defined.

End FramingProps.

(** ** The two unpackers *)

Module Unpack7Facts.
Import SysexPack SysexPackRest SyxTools UnpackFacts.

Lemma unpack7_loop_nil fuel : unpack7_loop fuel [] = [].
Proof. now destruct fuel. Qed.

Lemma chunk_decode (lead : byte) (data : list byte) :
  imap (fun k b => byte_of_Z (or_msb (at_ (lead :: data) 0) k b)) (drop 1 (lead :: data))
  = decode_group (lead :: data).
Proof. reflexivity. Qed.

Lemma unpack7_loop_step fuel (block : list byte) :
  block <> [] ->
  unpack7_loop (S fuel) block =
    if (length (take 8 block) <? 2)%nat then []
    else imap (fun k b => byte_of_Z (or_msb (at_ (take 8 block) 0) k b))
           (drop 1 (take 8 block))
         ++ unpack7_loop fuel (drop 8 block).
Proof. destruct block; [contradiction | reflexivity]. Qed.

Lemma unpack7_loop_unpack_from fuel : forall block,
  (length block <= fuel)%nat -> unpack7_loop fuel block = unpack_from None block.
Proof.
  induction fuel as [|fuel IH]; intros block Hlen.
  - destruct block; [reflexivity | cbn [length] in Hlen; lia].
  - destruct (decide (block = [])) as [-> | Hne]; [reflexivity|].
    rewrite unpack7_loop_step by exact Hne.
    assert (Hpos : (0 < length block)%nat)
      by (destruct block; [contradiction | cbn [length]; lia]).
    destruct (length (take 8 block) <? 2)%nat eqn:E2.
    + apply Nat.ltb_lt in E2. rewrite length_take in E2.
      destruct block as [|b [|b' block]]; try reflexivity; cbn [length] in *; lia.
    + apply Nat.ltb_ge in E2. rewrite length_take in E2.
      assert (Hdec : imap (fun k b => byte_of_Z (or_msb (at_ (take 8 block) 0) k b))
                       (drop 1 (take 8 block)) = decode_group (take 8 block)).
      { destruct block as [|lead rest]; [contradiction|]. apply chunk_decode. }
      rewrite Hdec.
      destruct (le_lt_dec 8 (length block)) as [Hge | Hlt].
      * rewrite IH by (rewrite length_drop; lia).
        rewrite <- (take_drop 8 block) at 3.
        rewrite unpack_full_group by (rewrite length_take; lia). reflexivity.
      * rewrite take_ge, drop_ge by lia.
        rewrite unpack7_loop_nil, app_nil_r. symmetry.
        now apply unpack_short_group.
Qed.

Lemma div8_step (n : nat) : ((n + 8 + 7) / 8 = S ((n + 7) / 8))%nat.
Proof.
  replace (n + 8 + 7)%nat with (n + 7 + 1 * 8)%nat by lia.
  rewrite Nat.div_add by lia. lia.
Qed.

Lemma div8_le (n : nat) : ((n + 7) / 8 <= n)%nat.
Proof.
  destruct n as [|n]; [reflexivity|].
  apply Nat.Div0.div_le_upper_bound. lia.
Qed.

Lemma length_decode_group (g : list byte) :
  length (decode_group g) = (length g - 1)%nat.
Proof.
  destruct g as [|lead data]; [reflexivity|].
  cbn [decode_group length]. rewrite length_imap. lia.
Qed.

Lemma length_unpack_exact fuel : forall payload,
  (length payload <= fuel)%nat ->
  length (unpack_from None payload)
    = (length payload - (length payload + 7) / 8)%nat.
Proof.
  induction fuel as [|fuel IH]; intros payload Hlen.
  - destruct payload; [reflexivity | cbn [length] in Hlen; lia].
  - destruct (le_lt_dec 8 (length payload)) as [Hge | Hlt].
    + rewrite <- (take_drop 8 payload) at 1.
      rewrite unpack_full_group by (rewrite length_take; lia).
      rewrite length_app, length_decode_group, length_take.
      rewrite IH by (rewrite length_drop; lia).
      rewrite length_drop.
      pose proof (div8_step (length payload - 8)) as Hs.
      pose proof (div8_le (length payload - 8)) as Hl.
      replace (length payload - 8 + 8 + 7)%nat with (length payload + 7)%nat in Hs by lia.
      rewrite Hs. lia.
    + rewrite unpack_short_group by exact Hlt.
      rewrite length_decode_group.
      destruct payload as [|b0 [|b1 [|b2 [|b3 [|b4 [|b5 [|b6 [|b7 p]]]]]]]];
        try reflexivity.
      cbn [length] in Hlt. lia.
Qed.

End Unpack7Facts.

Module Unpack7Props.
Import SysexPack SysexPackRest SyxTools UnpackFacts Unpack7Facts.

(** X4: the unpacker of the packer ([unpack7], chunks of 8 with a [break] on
    a chunk shorter than 2) and the unpacker of the extraction tools
    ([unpack_7bit], a byte at a time) return the same bytes on every input;
    more fuel than the length of the block changes nothing. *)
Theorem unpack7_unpack_7bit (block : list byte) :
  unpack7 block = unpack_7bit block /\
  forall fuel, (length block <= fuel)%nat -> unpack7_loop fuel block = unpack7 block.
Proof.
  unfold unpack7, unpack_7bit. split.
  - now apply unpack7_loop_unpack_from.
  - intros fuel H. now rewrite !unpack7_loop_unpack_from.
Qed.

(** X5: unpacking [n] bytes yields exactly [n - ceil(n / 8)] bytes: every
    group of up to 8 loses its leading byte. *)
Theorem unpack_7bit_length (payload : list byte) :
  length (unpack_7bit payload)
    = (length payload - (length payload + 7) / 8)%nat /\
  length (unpack7 payload) = length (unpack_7bit payload).
Proof.
  split.
  - now apply (length_unpack_exact (length payload)).
  - unfold unpack7, unpack_7bit. now rewrite unpack7_loop_unpack_from.
Qed.

End Unpack7Props.

(** ** Which messages the canonicalizer accepts *)

Module ParseProps.
Import SysexPack Canonicalizer CanonFacts.

Lemma drop_four (l : list byte) :
  (4 <= length l)%nat ->
  exists a b c d rest, l = a :: b :: c :: d :: rest.
Proof.
  destruct l as [|a [|b [|c [|d rest]]]]; cbn [length]; intros H; try lia.
  eauto 6.
Qed.

Lemma checksum_flag_raises spec data e :
  checksum_flag spec data = Raise e ->
  checksum_value spec = Some ChkNotObject /\ e = AttributeError.
Proof.
  intros H.
  destruct (checksum_value spec) as [[ty|]|] eqn:E.
  - destruct (checksum_flag_Ok spec data) as [valid Hv];
      [rewrite E; discriminate | congruence].
  - rewrite (checksum_flag_Raise spec data E) in H. now injection H as <-.
  - destruct (checksum_flag_Ok spec data) as [valid Hv];
      [rewrite E; discriminate | congruence].
Qed.

(** The three ways a call ends. *)
Lemma proteus_parse_cases payload spec :
  (~ Forall (fun v => 0 <= v < 256) (manufacturerId spec) /\
   _proteus_parse payload spec = Raise ValueError) \/
  (Forall (fun v => 0 <= v < 256) (manufacturerId spec) /\
   _proteus_parse payload spec = Ok None) \/
  (exists family dev ed cmd data,
     addressed spec payload family dev ed cmd data /\
     _proteus_parse payload spec =
       (valid ← checksum_flag spec data;
        Ok (Some (mkParsed (byte_to_Z family) (byte_to_Z dev) (byte_to_Z cmd)
                    (subtype_of cmd data) valid data)))).
Proof.
  destruct (decide (Forall (fun v => 0 <= v < 256) (manufacturerId spec)))
    as [Hb | Hb].
  2:{ left. split; [exact Hb|]. unfold _proteus_parse.
      now rewrite bytes_of_Raise by exact Hb. }
  right. unfold _proteus_parse at 1 2. rewrite bytes_of_Ok by exact Hb.
  cbn [mbind result_bind]. fold (prefix_of spec).
  destruct (prefix_of spec) as [|m0 ms] eqn:Em; [left; auto|].
  destruct (familyId spec) as [fam|] eqn:Ef; [|left; auto].
  destruct (editor spec) as [edv|] eqn:Ee; [|left; auto].
  set (mids := m0 :: ms) in *.
  destruct (length payload <? length mids + 4)%nat eqn:El; [left; auto|].
  apply Nat.ltb_ge in El.
  destruct (bool_decide (take (length mids) payload = mids)) eqn:Ep;
    [|left; auto].
  apply bool_decide_eq_true_1 in Ep. cbn [negb].
  destruct (drop_four (drop (length mids) payload))
    as (family & dev & ed & cmd & data & Hrest).
  { rewrite length_drop. lia. }
  assert (Hpay : payload = mids ++ family :: dev :: ed :: cmd :: data).
  { rewrite <- Hrest, <- Ep at 1. now rewrite take_drop. }
  set (rest := family :: dev :: ed :: cmd :: data) in *.
  assert (H0 : at_ payload (length mids) = byte_to_Z family).
  { rewrite Hpay, <- (Nat.add_0_r (length mids)), at_app_r. reflexivity. }
  assert (H1 : at_ payload (length mids + 1) = byte_to_Z dev)
    by now rewrite Hpay, at_app_r.
  assert (H2 : at_ payload (length mids + 2) = byte_to_Z ed)
    by now rewrite Hpay, at_app_r.
  assert (H3 : at_ payload (length mids + 3) = byte_to_Z cmd)
    by now rewrite Hpay, at_app_r.
  assert (H4 : drop (length mids + 4) payload = data)
    by now rewrite Hpay, <- drop_drop, drop_app_length.
  rewrite H0, H1, H2, H3, H4.
  destruct (byte_to_Z family =? fam) eqn:E1; [|left; auto].
  destruct (byte_to_Z ed =? edv) eqn:E2; [|left; rewrite orb_true_r; auto].
  apply Z.eqb_eq in E1, E2. cbn [negb orb]. right.
  exists family, dev, ed, cmd, data. split; [|reflexivity].
  unfold addressed. rewrite E1, E2, Em. repeat split; try assumption; try reflexivity.
  intros Hnil. unfold prefix_of in Em. rewrite Hnil in Em. discriminate.
Qed.

Lemma proteus_parse_addressed spec payload family dev ed cmd data :
  addressed spec payload family dev ed cmd data ->
  _proteus_parse payload spec =
    (valid ← checksum_flag spec data;
     Ok (Some (mkParsed (byte_to_Z family) (byte_to_Z dev) (byte_to_Z cmd)
                 (subtype_of cmd data) valid data))).
Proof.
  intros (Hb & Hm & Hf & He & ->).
  now apply (proteus_parse_message spec (byte_to_Z family) (byte_to_Z ed)).
Qed.

(** X6: how a call of [_proteus_parse] ends, for a specification whose
    manufacturer prefix is a list of integers and whose family and editor
    are integers or absent.  It raises [ValueError] exactly when the prefix
    holds a value outside [0 .. 255].  It returns a dictionary exactly when
    the payload is addressed to the device (the non-empty prefix, then the
    family byte, a device id, the editor byte, a command and the data) and
    the ["checksum"] entry is absent or an object; the dictionary carries
    these fields, the data unchanged, and the subtype and checksum flag
    computed from them.  On an addressed payload with a ["checksum"] entry
    that is not an object it raises [AttributeError].  Every other payload
    (too short, other prefix, other family or editor) is rejected with
    [None]; no other exception is raised. *)
Theorem proteus_parse_accepts payload spec :
  (_proteus_parse payload spec = Raise ValueError <->
     ~ Forall (fun v => 0 <= v < 256) (manufacturerId spec)) /\
  (forall p, _proteus_parse payload spec = Ok (Some p) <->
     exists family dev ed cmd data valid,
       addressed spec payload family dev ed cmd data /\
       checksum_flag spec data = Ok valid /\
       p = mkParsed (byte_to_Z family) (byte_to_Z dev) (byte_to_Z cmd)
             (subtype_of cmd data) valid data) /\
  (_proteus_parse payload spec = Raise AttributeError <->
     checksum_value spec = Some ChkNotObject /\
     exists family dev ed cmd data,
       addressed spec payload family dev ed cmd data) /\
  (_proteus_parse payload spec = Ok None <->
     Forall (fun v => 0 <= v < 256) (manufacturerId spec) /\
     ~ exists family dev ed cmd data,
         addressed spec payload family dev ed cmd data) /\
  (forall e, _proteus_parse payload spec = Raise e ->
             e = ValueError \/ e = AttributeError).
Proof.
  pose proof (proteus_parse_cases payload spec) as Hcases.
  split; [|split; [|split; [|split]]].
  - split.
    + intros H. destruct Hcases as [[Hb _] | [[_ Hn] | (f & d & ed & c & data & _ & Hp)]];
        [exact Hb | congruence |].
      rewrite Hp in H. destruct (checksum_flag spec data) as [v|e] eqn:Ec;
        [discriminate|].
      apply checksum_flag_raises in Ec as [_ ->]. discriminate.
    + intros Hb. unfold _proteus_parse. now rewrite bytes_of_Raise by exact Hb.
  - intros p. split.
    + intros H. destruct Hcases as [[_ Hr] | [[_ Hn] | (f & d & ed & c & data & Ha & Hp)]];
        [congruence | congruence |].
      rewrite Hp in H. destruct (checksum_flag spec data) as [v|e] eqn:Ec;
        [|discriminate].
      cbn [mbind result_bind] in H. injection H as <-.
      exists f, d, ed, c, data, v. auto.
    + intros (f & d & ed & c & data & v & Ha & Hv & ->).
      rewrite (proteus_parse_addressed _ _ _ _ _ _ _ Ha), Hv. reflexivity.
  - split.
    + intros H. destruct Hcases as [[_ Hr] | [[_ Hn] | (f & d & ed & c & data & Ha & Hp)]];
        [congruence | congruence |].
      rewrite Hp in H. destruct (checksum_flag spec data) as [v|e] eqn:Ec;
        [discriminate|].
      apply checksum_flag_raises in Ec as [Hc _]. split; [exact Hc|]. eauto 6.
    + intros (Hc & f & d & ed & c & data & Ha).
      rewrite (proteus_parse_addressed _ _ _ _ _ _ _ Ha).
      now rewrite (checksum_flag_Raise spec data Hc).
  - split.
    + intros H. destruct Hcases as [[_ Hr] | [[Hb _] | (f & d & ed & c & data & Ha & Hp)]];
        [congruence | |].
      * split; [exact Hb|]. intros (f & d & ed & c & data & Ha).
        rewrite (proteus_parse_addressed _ _ _ _ _ _ _ Ha) in H.
        destruct (checksum_flag spec data); discriminate.
      * rewrite Hp in H. destruct (checksum_flag spec data); discriminate.
    + intros [Hb Hn]. destruct Hcases as [[Hb' _] | [[_ Hr] | (f & d & ed & c & data & Ha & _)]];
        [contradiction | exact Hr |].
      exfalso. apply Hn. eauto 6.
  - intros e H. destruct Hcases as [[_ Hr] | [[_ Hn] | (f & d & ed & c & data & Ha & Hp)]].
    + left. congruence.
    + congruence.
    + rewrite Hp in H. destruct (checksum_flag spec data) as [v|e'] eqn:Ec;
        [discriminate|].
      cbn [mbind result_bind] in H. injection H as <-.
      apply checksum_flag_raises in Ec as [_ ->]. now right.
Qed.

Lemma land_small (v : Z) : 0 <= Z.land v 0x7F < 128.
Proof.
  change 0x7F with (Z.ones 7). rewrite Z.land_ones by lia.
  apply Z.mod_pos_bound. reflexivity.
Qed.

(** X7: a data block whose last byte is the ones-complement checksum of the
    bytes before it validates under every specification whose ["checksum"]
    entry is absent or an object (on any other entry the flag is never
    computed: the call raises [AttributeError]); the checksum does not
    depend on the byte it is compared with. *)
Theorem checksum_self_validates spec (body : list byte) (x : byte) :
  checksum_value spec <> Some ChkNotObject ->
  let chk := byte_of_Z (ones_complement_7bit (body ++ [x])) in
  ones_complement_7bit (body ++ [chk]) = ones_complement_7bit (body ++ [x]) /\
  declared_trailer (body ++ [chk]) = ones_complement_7bit (body ++ [x]) /\
  checksum_flag spec (body ++ [chk]) = Ok true.
Proof.
  intros Hobj chk.
  set (total := foldr Z.add 0 ((fun b => Z.land (byte_to_Z b) 0x7F) <$> body)).
  assert (Hc : forall y, ones_complement_7bit (body ++ [y])
                         = Z.land (Z.lnot total) 0x7F).
  { intros y. unfold ones_complement_7bit. now rewrite removelast_last. }
  assert (Htr : declared_trailer (body ++ [chk])
                = ones_complement_7bit (body ++ [x])).
  { unfold declared_trailer. rewrite reverse_snoc. subst chk.
    rewrite byte_to_of_Z, Hc.
    pose proof (land_small (Z.lnot total)) as Hs.
    rewrite Z.mod_small by lia.
    rewrite <- Z.land_assoc. reflexivity. }
  split; [now rewrite !Hc|]. split; [exact Htr|].
  unfold checksum_flag, chkspec_type.
  destruct (checksum_value spec) as [[ty|]|]; [| contradiction | reflexivity].
  cbn [mbind result_bind]. destruct ty as [ty|]; [|reflexivity].
  destruct (String.eqb ty "ones_complement_7bit" && (1 <=? length (body ++ [chk]))%nat);
    [|reflexivity].
  rewrite checksum_ones_complement, trailer_declared, Htr, (Hc chk), <- (Hc x),
    Z.eqb_refl.
  now destruct (negb _).
Qed.

Lemma checksum_self_validates_witness :
  ones_complement_7bit ([x10; x20; x30] ++ [x1f])
    = ones_complement_7bit ([x10; x20; x30] ++ [x00]) /\
  declared_trailer ([x10; x20; x30] ++ [x1f])
    = ones_complement_7bit ([x10; x20; x30] ++ [x00]) /\
  checksum_flag proteus_spec ([x10; x20; x30] ++ [x1f]) = Ok true.
Proof.
  apply (checksum_self_validates proteus_spec [x10; x20; x30] x00). discriminate.
Defined.

End ParseProps.

(** ** When the packer succeeds *)

Module PackProps.
Import Struct StructFacts SysexPack PackIndex Container PackFacts RawMode.

Lemma pack_uint_raises n v e : pack_uint n v = Raise e -> e = StructError.
Proof. unfold pack_uint. destruct (_ && _); congruence. Qed.

Lemma pack_IHHHII_raises a b c d e f x :
  pack_IHHHII a b c d e f = Raise x -> x = StructError.
Proof.
  unfold pack_IHHHII, pack_I, pack_H.
  destruct (pack_uint 4 a) eqn:E1; [|cbn; intros [= <-]; eapply pack_uint_raises, E1].
  destruct (pack_uint 2 b) eqn:E2; [|cbn; intros [= <-]; eapply pack_uint_raises, E2].
  destruct (pack_uint 2 c) eqn:E3; [|cbn; intros [= <-]; eapply pack_uint_raises, E3].
  destruct (pack_uint 2 d) eqn:E4; [|cbn; intros [= <-]; eapply pack_uint_raises, E4].
  destruct (pack_uint 4 e) eqn:E5; [|cbn; intros [= <-]; eapply pack_uint_raises, E5].
  destruct (pack_uint 4 f) eqn:E6; [|cbn; intros [= <-]; eapply pack_uint_raises, E6].
  cbn. discriminate.
Qed.

Lemma pack_loop_raises entries : forall table blobs offset x,
  pack_loop entries table blobs offset = Raise x ->
  x = TypeError \/ x = StructError.
Proof.
  induction entries as [|e rest IH]; intros table blobs offset x H; [discriminate|].
  cbn [pack_loop] in H.
  destruct (pack_sub e) as [sub|y] eqn:Es.
  - cbn [mbind result_bind] in H.
    destruct (pack_IHHHII _ _ _ _ _ _) as [row|y] eqn:Er.
    + cbn [mbind result_bind] in H. eapply IH, H.
    + cbn [mbind result_bind] in H. injection H as <-. right.
      eapply pack_IHHHII_raises, Er.
  - cbn [mbind result_bind] in H. injection H as <-. left.
    unfold pack_sub in Es. destruct (entry_sub e) as [[|z]|]; congruence.
Qed.

Lemma pack_raises entries x :
  pack entries = Raise x -> x = TypeError \/ x = StructError.
Proof.
  unfold pack. change (pack_H 1) with (Ok (A:=list byte) (le_bytes 2 1)).
  cbn [mbind result_bind].
  destruct (pack_H (Z.of_nat (length entries))) as [count|y] eqn:Ec.
  - cbn [mbind result_bind].
    destruct (pack_loop entries [] [] _) as [[table blobs]|y] eqn:El.
    + cbn. discriminate.
    + cbn [mbind result_bind]. intros [= <-]. eapply pack_loop_raises, El.
  - cbn [mbind result_bind]. intros [= <-]. right. eapply pack_uint_raises, Ec.
Qed.

(** X8: [pack] returns a container exactly when the collection has at most
    65535 records, no record stores [None] as its subtype, and every field
    of every table row fits its width; the container is then the 8 header
    bytes, the table rows and the data of the records, in order, and has
    [8 + 18*count + sum of the data lengths] bytes.  On every other
    collection [pack] raises [TypeError] or [struct.error]. *)
Theorem pack_succeeds_iff entries :
  ((exists buf, pack entries = Ok buf) <-> fits entries) /\
  (forall buf, pack entries = Ok buf ->
     buf = header_bytes (length entries)
             ++ concat (encode_row <$> table_of entries (blob_start entries))
             ++ concat (e_data <$> entries) /\
     Z.of_nat (length buf) = 8 + 18 * Z.of_nat (length entries) + total_length entries) /\
  (~ fits entries -> pack entries = Raise TypeError \/ pack entries = Raise StructError).
Proof.
  split; [|split].
  - split.
    + intros [buf H]. now apply pack_Ok in H.
    + intros H. eexists. now apply pack_fits.
  - intros buf H. apply pack_Ok in H. destruct H as [_ ->].
    split; [reflexivity|]. apply length_container_of.
  - intros Hn. destruct (pack entries) as [buf|x] eqn:E.
    + apply pack_Ok in E. destruct E as [Hf _]. contradiction.
    + destruct (pack_raises _ _ E) as [-> | ->]; auto.
Qed.

Lemma table_of_fits entries : forall offset,
  0 <= offset ->
  Forall record_fits entries ->
  offset + total_length entries < 2 ^ 32 ->
  Forall row_fits (table_of entries offset).
Proof.
  unfold total_length.
  induction entries as [|e rest IH]; intros offset H0 Hf Hb; [constructor|].
  apply Forall_cons in Hf. destruct Hf as [(Hs & Hid & Hty & Hsub & Hfl) Hf].
  cbn [fmap list_fmap concat] in Hb. rewrite length_app, Nat2Z.inj_add in Hb.
  cbn [table_of]. constructor.
  - unfold row_fits. cbn. lia.
  - apply IH; [lia | exact Hf | lia].
Qed.

(** X9: a sufficient condition a caller can check: at most 65535 records,
    each with an integer (or absent) subtype and id, type, subtype and flags
    within their widths, and a container of less than 2^32 bytes. *)
Theorem pack_succeeds_when entries :
  Z.of_nat (length entries) <= 65535 ->
  Forall record_fits entries ->
  8 + 18 * Z.of_nat (length entries) + total_length entries < 2 ^ 32 ->
  exists buf, pack entries = Ok buf /\
    Z.of_nat (length buf) = 8 + 18 * Z.of_nat (length entries) + total_length entries.
Proof.
  intros Hn Hf Hb.
  assert (Hfits : fits entries).
  { split; [exact Hn|]. split.
    - eapply Forall_impl; [exact Hf|]. now intros e [Hs _].
    - apply table_of_fits; [unfold blob_start; lia | exact Hf |].
      unfold blob_start. lia. }
  exists (container_of entries). split; [now apply pack_fits|].
  apply length_container_of.
Qed.

Lemma pack_succeeds_when_witness :
  exists buf, pack Examples.two_records = Ok buf /\
    Z.of_nat (length buf)
      = 8 + 18 * Z.of_nat (length Examples.two_records)
        + total_length Examples.two_records.
Proof.
  apply pack_succeeds_when.
  - cbn. lia.
  - repeat constructor; cbn; try lia; discriminate.
  - vm_compute. reflexivity.
Defined.

End PackProps.

(** ** Files without preset dumps, and the pipeline without a device
       specification *)

Module RawModeProps.
Import SysexPack SysexPackRest PackIndex Container RawMode
       AssembleFacts PackFacts PackProps FramingFacts.

Lemma collect_other_type entries : forall groups,
  Forall (fun e => e_type e <> 0x10) entries ->
  foldl collect groups entries = groups.
Proof.
  induction entries as [|e rest IH]; intros groups Hf; [reflexivity|].
  apply Forall_cons in Hf. destruct Hf as [He Hf].
  cbn [foldl]. rewrite IH by exact Hf. unfold collect, is_packet.
  destruct (e_type e =? 16) eqn:E; [apply Z.eqb_eq in E; contradiction|].
  reflexivity.
Qed.

Lemma find_sub_other_type entries v :
  Forall (fun e => e_type e <> 0x10) entries -> find_sub entries v = None.
Proof.
  unfold find_sub. induction 1 as [|e rest He _ IH]; [reflexivity|].
  cbn [List.find].
  destruct (e_type e =? 16) eqn:E; [apply Z.eqb_eq in E; contradiction|].
  exact IH.
Qed.

Lemma augment_loop_other_type (ModelData : Type)
    (generate : Z -> ModelData -> list byte) (table : gmap string ModelData)
    (todo : list Entry) : forall augmented next_id,
  Forall (fun e => e_type e <> 0x10) todo ->
  augment_loop ModelData generate table todo augmented next_id = augmented.
Proof.
  induction todo as [|e rest IH]; intros augmented next_id Hf; [reflexivity|].
  apply Forall_cons in Hf. destruct Hf as [He Hf].
  cbn [augment_loop].
  destruct (e_type e =? 16) eqn:E; [apply Z.eqb_eq in E; contradiction|].
  cbn [andb]. now apply IH.
Qed.

(** X10: records of a type other than 0x10 pass through the assembler, the
    segmenter and the coefficient hook untouched: on a collection without a
    record of type 0x10 each of the three stages returns its input. *)
Theorem stages_ignore_other_types (ModelData : Type)
    (models : option (gmap string ModelData))
    (generate : Z -> ModelData -> list byte) (entries : list Entry) :
  Forall (fun e => e_type e <> 0x10) entries ->
  assemble_preset entries = entries /\
  segment_assembled entries = entries /\
  augment_with_zmf1 ModelData models generate entries = entries.
Proof.
  intros Hf. split; [|split].
  - unfold assemble_preset. now rewrite collect_other_type.
  - unfold segment_assembled. now rewrite find_sub_other_type.
  - unfold augment_with_zmf1. destruct models as [table|]; [|reflexivity].
    now apply augment_loop_other_type.
Qed.

Lemma stages_ignore_other_types_witness :
  assemble_preset [mkEntry 0 0 0 None [x01]] = [mkEntry 0 0 0 None [x01]] /\
  segment_assembled [mkEntry 0 0 0 None [x01]] = [mkEntry 0 0 0 None [x01]] /\
  augment_with_zmf1 unit None (fun _ _ => []) [mkEntry 0 0 0 None [x01]]
    = [mkEntry 0 0 0 None [x01]].
Proof.
  apply stages_ignore_other_types. repeat constructor. discriminate.
Defined.

Lemma canonize_from_raw spec frames : forall idx,
  no_family spec ->
  canonize_from (Z.of_nat idx) frames spec
    = Ok (imap (fun i f => raw_record (idx + i) f) frames).
Proof.
  induction frames as [|f fs IH]; intros idx Hs; [reflexivity|].
  cbn [canonize_from imap].
  assert (Hf : canonize_frame (Z.of_nat idx) f spec = Ok (Some (raw_record idx f))).
  { unfold canonize_frame, raw_record. destruct spec as [sp|]; [|reflexivity].
    cbn in Hs. now rewrite Hs. }
  rewrite Hf. cbn [mbind result_bind].
  replace (Z.of_nat idx + 1) with (Z.of_nat (S idx)) by lia.
  rewrite IH by exact Hs. cbn [mbind result_bind].
  rewrite Nat.add_0_r. do 2 f_equal. apply imap_ext. intros i x _. cbv [compose].
  f_equal. lia.
Qed.

Lemma canonize_raw frames spec :
  no_family spec -> canonize frames spec = Ok (imap raw_record frames).
Proof.
  intros Hs. unfold canonize. change 0 with (Z.of_nat 0).
  now rewrite canonize_from_raw.
Qed.

Lemma pipeline_raw (ModelData : Type)
    (models : option (gmap string ModelData))
    (generate : Z -> ModelData -> list byte)
    (frames : list (list byte)) (spec : option DeviceSpec) :
  no_family spec ->
  pipeline ModelData models generate frames spec = Ok (imap raw_record frames).
Proof.
  intros Hs.
  assert (Hf : Forall (fun e => e_type e <> 0x10) (imap raw_record frames)).
  { apply Forall_forall. intros e He. apply elem_of_lookup_imap in He.
    destruct He as (i & f & -> & _). discriminate. }
  unfold pipeline. rewrite (canonize_raw _ _ Hs). cbn [mbind result_bind].
  f_equal.
  unfold assemble_preset. rewrite collect_other_type by exact Hf.
  unfold segment_assembled. rewrite find_sub_other_type by exact Hf.
  unfold augment_with_zmf1. destruct models as [table|]; [|reflexivity].
  now apply augment_loop_other_type.
Qed.

(** X11: without a device specification (or with one that names no family)
    no frame is dropped and nothing is synthesised: the pipeline returns one
    record per frame, in order, with the frame's ordinal as id, type 0,
    flags 0, no meta, and the frame without its first and last byte as
    data. *)
Theorem pipeline_without_spec (ModelData : Type)
    (models : option (gmap string ModelData))
    (generate : Z -> ModelData -> list byte)
    (frames : list (list byte)) (spec : option DeviceSpec) :
  no_family spec ->
  pipeline ModelData models generate frames spec = Ok (imap raw_record frames) /\
  canonize frames spec = Ok (imap raw_record frames).
Proof.
  intros Hs. split; [now apply pipeline_raw | now apply canonize_raw].
Qed.

Lemma pipeline_without_spec_witness :
  pipeline unit None (fun _ _ => []) [[xf0; x01; xf7]; [xf0; xf7]] None
    = Ok (imap raw_record [[xf0; x01; xf7]; [xf0; xf7]]) /\
  canonize [[xf0; x01; xf7]; [xf0; xf7]] None
    = Ok (imap raw_record [[xf0; x01; xf7]; [xf0; xf7]]).
Proof. apply pipeline_without_spec. exact I. Defined.

Lemma length_frame_payload f : (length (frame_payload f) <= length f)%nat.
Proof.
  unfold frame_payload, slice_to_last, slice.
  destruct (2 <=? length f)%nat; [|cbn; lia].
  rewrite length_take, length_drop. lia.
Qed.

Lemma total_length_raw (frames : list (list byte)) : forall idx,
  total_length (imap (fun i f => raw_record (idx + i) f) frames)
    <= Z.of_nat (length (concat frames)).
Proof.
  unfold total_length.
  induction frames as [|f fs IH]; intros idx; [reflexivity|].
  cbn [imap fmap list_fmap concat]. rewrite !length_app, !Nat2Z.inj_add.
  specialize (IH (S idx)).
  assert (He : imap ((fun i f0 => raw_record (idx + i) f0) ∘ S) fs
               = imap (fun i f0 => raw_record (S idx + i) f0) fs).
  { apply imap_ext. intros i x _. cbv [compose]. f_equal. lia. }
  rewrite He. pose proof (length_frame_payload f). cbn [raw_record e_data].
  lia.
Qed.

(** X12: a whole file without a device specification.  If the file holds at
    most 65535 frames and [8 + 18*frames + len(file) < 2^32], then packing
    the pipeline's output succeeds and the index reader returns one entry
    per frame, in order, with id = ordinal, type, subtype and flags 0, whose
    region of the container is the frame without its delimiters. *)
Theorem raw_file_roundtrip (ModelData : Type)
    (models : option (gmap string ModelData))
    (generate : Z -> ModelData -> list byte) (raw : list byte) :
  let frames := extract_frames raw in
  Z.of_nat (length frames) <= 65535 ->
  8 + 18 * Z.of_nat (length frames) + Z.of_nat (length raw) < 2 ^ 32 ->
  exists entries buf rows,
    pipeline ModelData models generate frames None = Ok entries /\
    pack entries = Ok buf /\
    scan_pack buf = Ok (Some rows) /\
    length rows = length frames /\
    forall i f, frames !! i = Some f ->
      exists x, rows !! i = Some x /\
        ix_id x = Z.of_nat i /\ ix_type x = 0 /\ ix_sub x = 0 /\ ix_flags x = 0 /\
        entry_bytes buf x = frame_payload f.
Proof.
  intros frames Hn Hb.
  exists (imap raw_record frames).
  rewrite (pipeline_raw ModelData models generate frames None I).
  assert (Hlen : length (imap raw_record frames) = length frames)
    by apply length_imap.
  assert (Hfits : fits (imap raw_record frames)).
  { split; [now rewrite Hlen|]. split.
    - apply Forall_forall. intros e He. apply elem_of_lookup_imap in He.
      destruct He as (i & f & -> & _). discriminate.
    - apply table_of_fits.
      + unfold blob_start. lia.
      + apply Forall_forall. intros e He. apply elem_of_lookup_imap in He.
        destruct He as (i & f & -> & Hi). apply lookup_lt_Some in Hi.
        unfold record_fits, raw_record. cbn.
        repeat split; try lia; discriminate.
      + unfold blob_start. rewrite Hlen.
        pose proof (total_length_raw frames 0) as Ht. cbn [Nat.add] in Ht.
        change (imap (fun i f => raw_record i f) frames)
          with (imap raw_record frames) in Ht.
        destruct (extract_from_sublist (length raw) raw (le_n _)) as [_ Hs].
        apply sublist_length in Hs.
        change (extract_from 0 raw) with frames in Hs. lia. }
  destruct (PackClaims.pack_scan_roundtrip _ Hfits)
    as (buf & rows & Hpack & Hscan & Hrows & Hall).
  exists buf, rows. split; [reflexivity|].
  split; [exact Hpack|]. split; [exact Hscan|].
  split; [now rewrite Hrows|].
  intros i f Hf.
  assert (He : imap raw_record frames !! i = Some (raw_record i f))
    by now rewrite list_lookup_imap, Hf.
  destruct (Hall i _ He) as (x & Hx & H1 & H2 & H3 & H4 & _ & H6).
  exists x. repeat split; assumption.
Qed.

Lemma raw_file_roundtrip_witness :
  exists entries buf rows,
    pipeline unit None (fun _ _ => [])
      (extract_frames [x00; xf0; x01; x02; xf7; xf0; xf7; xf0]) None = Ok entries /\
    pack entries = Ok buf /\
    scan_pack buf = Ok (Some rows) /\
    length rows = length (extract_frames [x00; xf0; x01; x02; xf7; xf0; xf7; xf0]) /\
    forall i f, extract_frames [x00; xf0; x01; x02; xf7; xf0; xf7; xf0] !! i = Some f ->
      exists x, rows !! i = Some x /\
        ix_id x = Z.of_nat i /\ ix_type x = 0 /\ ix_sub x = 0 /\ ix_flags x = 0 /\
        entry_bytes buf x = frame_payload f.
Proof.
  apply (raw_file_roundtrip unit None (fun _ _ => [])
           [x00; xf0; x01; x02; xf7; xf0; xf7; xf0]); vm_compute; congruence.
Defined.

End RawModeProps.

(** ** Duplicate sequence numbers *)

Module DuplicateProps.
Import SysexPack Assembler AssembleFacts Duplicates.

Lemma store_foldl_last (ps : list Entry) : forall k,
  foldl store ∅ ps !! k = payload_of <$> last (filter (fun e => seq_of e = k) ps).
Proof.
  induction ps as [|p ps IH] using rev_ind; intros k; [reflexivity|].
  rewrite foldl_app. cbn [foldl]. unfold store at 1.
  rewrite filter_app, filter_cons, filter_nil.
  destruct (decide (seq_of p = k)) as [<- | Hne].
  - rewrite lookup_insert_eq, last_snoc. reflexivity.
  - rewrite lookup_insert_ne by exact Hne. rewrite app_nil_r. apply IH.
Qed.

(** X13: last write wins.  Once a packet has been collected, the dictionary
    of the assembler holds, under each sequence number, the payload of the
    last packet of the collection carrying that number; earlier packets with
    the same number leave no trace. *)
Theorem collect_last_write_wins entries parts :
  foldl collect None entries = Some parts ->
  forall k, parts !! k = last_payload k entries.
Proof.
  intros H k. rewrite collect_foldl in H. unfold last_payload.
  destruct (packets entries) as [|p ps] eqn:Ep; [discriminate|].
  injection H as <-. cbn [default]. apply (store_foldl_last (p :: ps)).
Qed.

(** Two packets with sequence number 0: the assembled blob is the payload
    of the second one only. *)
Example assemble_duplicate_seq :
  assemble_preset [Examples.packet 0 [x00; x00; xa1; x7f];
                   Examples.packet 1 [x00; x00; xb1; xb2; x7f]]
  = [Examples.packet 0 [x00; x00; xa1; x7f];
     Examples.packet 1 [x00; x00; xb1; xb2; x7f];
     mkEntry 2 0x10 0 (Some MetaAssembled) [xb1; xb2]].
Proof. vm_compute. reflexivity. Qed.

Lemma collect_last_write_wins_witness :
  (<[0 := [xb1; xb2]]> (<[0 := [xa1]]> ∅) : gmap Z (list byte)) !! 0
  = last_payload 0 [Examples.packet 0 [x00; x00; xa1; x7f];
                    Examples.packet 1 [x00; x00; xb1; xb2; x7f]].
Proof.
  apply collect_last_write_wins. reflexivity.
Defined.

End DuplicateProps.

(** ** The readers on arbitrary buffers *)

Module ScanProps.
Import Struct StructFacts SysexPack PackIndex.

Lemma unpack_row_enough b off :
  (off + 18 <= length b)%nat -> exists row, unpack_from_IHHHII b off = Ok row.
Proof.
  intros H. unfold unpack_from_IHHHII.
  destruct (length b <? off + 18)%nat eqn:E; [apply Nat.ltb_lt in E; lia|].
  eauto.
Qed.

Lemma unpack_row_short b off :
  (length b < off + 18)%nat -> unpack_from_IHHHII b off = Raise StructError.
Proof.
  intros H. unfold unpack_from_IHHHII.
  destruct (length b <? off + 18)%nat eqn:E; [reflexivity|].
  apply Nat.ltb_ge in E. lia.
Qed.

Lemma scan_rows_enough b n : forall i,
  (8 + (i + n) * 18 <= length b)%nat ->
  exists rows, scan_rows b n i = Ok rows /\ length rows = n.
Proof.
  induction n as [|n IH]; intros i H; [exists []; auto|].
  cbn [scan_rows]. change (8 + i * esz)%nat with (8 + i * 18)%nat.
  destruct (unpack_row_enough b (8 + i * 18)) as [[[[[[a t] s] f] o] l] Hr]; [lia|].
  rewrite Hr. cbn [mbind result_bind].
  destruct (IH (S i)) as (rows & Hs & Hl); [lia|].
  rewrite Hs. cbn. eexists. split; [reflexivity|]. cbn [length]. now rewrite Hl.
Qed.

Lemma scan_rows_short b n : forall i,
  (0 < n)%nat -> (length b < 8 + (i + n) * 18)%nat ->
  scan_rows b n i = Raise StructError.
Proof.
  induction n as [|n IH]; intros i Hn H; [lia|].
  cbn [scan_rows]. change (8 + i * esz)%nat with (8 + i * 18)%nat.
  destruct (le_lt_dec (8 + i * 18 + 18) (length b)) as [Hge | Hlt].
  - destruct (unpack_row_enough b (8 + i * 18)) as [[[[[[a t] s] f] o] l] Hr]; [lia|].
    rewrite Hr. cbn [mbind result_bind].
    rewrite (IH (S i)) by lia. reflexivity.
  - rewrite unpack_row_short by lia. reflexivity.
Qed.

(** X14: what the index reader does on a buffer that starts with the magic.
    Shorter than the 8-byte header: [struct.error].  Otherwise, with version
    1 and [count] declared entries, it returns exactly [count] entries when
    the buffer holds the whole table ([8 + 18*count <= len]) and raises
    [struct.error] when it does not; the blob region is never looked at. *)
Theorem scan_pack_on_magic (b : list byte) :
  take 4 b = MAGIC ->
  ((length b < 8)%nat -> scan_pack b = Raise StructError) /\
  ((8 <= length b)%nat -> field b 4 2 = 1 ->
     let count := Z.to_nat (field b 6 2) in
     ((8 + 18 * count <= length b)%nat ->
        exists rows, scan_pack b = Ok (Some rows) /\ length rows = count) /\
     ((length b < 8 + 18 * count)%nat -> scan_pack b = Raise StructError)).
Proof.
  intros Hm. unfold scan_pack. rewrite bool_decide_eq_true_2 by exact Hm.
  cbn [negb]. unfold unpack_from_HH. split.
  - intros Hl. destruct (length b <? 4 + 4)%nat eqn:E; [reflexivity|].
    apply Nat.ltb_ge in E. lia.
  - intros Hl Hv.
    destruct (length b <? 4 + 4)%nat eqn:E; [apply Nat.ltb_lt in E; lia|].
    cbn [mbind result_bind]. change (4 + 2)%nat with 6%nat.
    rewrite Hv. cbn [Z.eqb Pos.eqb negb].
    set (count := Z.to_nat (field b 6 2)). split.
    + intros Hc. destruct (scan_rows_enough b count 0) as (rows & Hs & Hn); [lia|].
      rewrite Hs. cbn. eauto.
    + intros Hc. rewrite scan_rows_short by lia. reflexivity.
Qed.

Lemma scan_pack_on_magic_witness :
  exists rows,
    scan_pack (MAGIC ++ [x01; x00; x00; x00; xff]) = Ok (Some rows) /\
    length rows = Z.to_nat (field (MAGIC ++ [x01; x00; x00; x00; xff]) 6 2).
Proof.
  refine (proj1 (proj2 (scan_pack_on_magic (MAGIC ++ [x01; x00; x00; x00; xff]) _) _ _) _);
    vm_compute; (reflexivity || lia).
Defined.

(** A table row may point anywhere: an entry whose region lies beyond the
    end of the buffer is returned like any other. *)
Example scan_pack_ignores_regions :
  scan_pack (MAGIC ++ [x01; x00; x01; x00]
               ++ [x07; x00; x00; x00; x10; x00; x22; x00; x00; x00;
                   xe8; x03; x00; x00; x0e; x00; x00; x00])
  = Ok (Some [mkIndexEntry 7 0x10 0x22 0 1000 14]).
Proof. vm_compute. reflexivity. Qed.

End ScanProps.

(** ** The tools on a container written by the packer *)

Module ContainerFacts.
Import Struct StructFacts SysexPack PackIndex Container PackFacts LayerFilters.

(** Row [k] of a container, as any reader unpacks it, and the bytes it
    points at. *)
Lemma container_row entries k e :
  fits entries -> entries !! k = Some e ->
  exists x,
    table_of entries (blob_start entries) !! k = Some x /\
    unpack_from_IHHHII (container_of entries) (8 + k * 18) = Ok (tuple_of x) /\
    ix_id x = e_id e /\ ix_type x = e_type e /\ ix_sub x = entry_sub_or0 e /\
    ix_flags x = e_flags e /\ ix_length x = Z.of_nat (length (e_data e)) /\
    entry_bytes (container_of entries) x = e_data e.
Proof.
  intros (Hn & _ & Hf) He.
  set (T := table_of entries (blob_start entries)) in *.
  destruct (lookup_lt_is_Some_2 T k) as [x Hx].
  { unfold T. rewrite length_table_of. eapply lookup_lt_Some, He. }
  exists x. split; [exact Hx|].
  destruct (table_of_lookup _ _ _ _ Hx) as (e' & He' & H1 & H2 & H3 & H4 & H5).
  assert (e' = e) as -> by congruence.
  assert (Hxfit : row_fits x).
  { rewrite Forall_forall in Hf. apply Hf. eapply list_elem_of_lookup_2, Hx. }
  split; [|repeat (split; [assumption|])].
  - unfold container_of. fold T.
    rewrite <- (take_drop_middle T k x Hx) at 1.
    rewrite fmap_app, concat_app. cbn [fmap list_fmap concat].
    replace (header_bytes (length entries)
               ++ (concat (encode_row <$> take k T)
                     ++ encode_row x ++ concat (encode_row <$> drop (S k) T))
               ++ concat (e_data <$> entries))
      with ((header_bytes (length entries) ++ concat (encode_row <$> take k T))
              ++ encode_row x
              ++ (concat (encode_row <$> drop (S k) T) ++ concat (e_data <$> entries)))
      by now rewrite <- !app_assoc.
    apply unpack_row; [|exact Hxfit].
    rewrite length_app, length_header_bytes, length_concat_rows, length_take.
    apply lookup_lt_Some in Hx. lia.
  - unfold container_of. fold T.
    replace (header_bytes (length entries) ++ concat (encode_row <$> T)
               ++ concat (e_data <$> entries))
      with ((header_bytes (length entries) ++ concat (encode_row <$> T))
              ++ concat (e_data <$> entries) ++ [])
      by now rewrite app_nil_r, <- app_assoc.
    eapply table_points_at_data; [|exact He|exact Hx].
    unfold T. rewrite length_app, length_header_bytes, length_concat_rows,
      length_table_of.
    unfold blob_start. lia.
Qed.

Lemma index_at (l : list byte) (k : nat) :
  (k < length l)%nat -> index l k = Ok (at_ l k).
Proof.
  intros H. unfold index, at_.
  destruct (lookup_lt_is_Some_2 l k H) as [b Hb]. rewrite Hb.
  now rewrite (nth_lookup_Some _ _ _ _ Hb).
Qed.

Lemma index_out (l : list byte) (k : nat) :
  (length l <= k)%nat -> index l k = Raise IndexError.
Proof.
  intros H. unfold index. now rewrite lookup_ge_None_2.
Qed.

Lemma decode_decoded (data : list byte) :
  (6 <= length data)%nat -> DumpLayerFilters.decode data = Ok (decoded data).
Proof.
  intros H. unfold DumpLayerFilters.decode.
  rewrite !index_at by lia. reflexivity.
Qed.

(** The loop of the dump tool over the rows of a container. *)
Lemma dump_rows_container entries : fits entries ->
  forall todo seen, entries = seen ++ todo ->
  DumpLayerFilters.scan_rows (container_of entries) (length todo) (length seen)
    = Ok (sample_of <$> filter (fun e => is_layer_filter e = true) todo).
Proof.
  intros Hfits. induction todo as [|e rest IH]; intros seen Heq; [reflexivity|].
  assert (He : entries !! length seen = Some e).
  { rewrite Heq. now rewrite list_lookup_middle. }
  destruct (container_row _ _ _ Hfits He)
    as (x & Hx & Hrow & H1 & H2 & H3 & H4 & H5 & H6).
  cbn [length DumpLayerFilters.scan_rows].
  change (8 + length seen * DumpLayerFilters.esz)%nat
    with (8 + length seen * 18)%nat.
  rewrite Hrow. unfold tuple_of. cbn [mbind result_bind].
  assert (Hrest : DumpLayerFilters.scan_rows (container_of entries) (length rest)
                    (S (length seen))
                  = Ok (sample_of <$> filter (fun e => is_layer_filter e = true) rest)).
  { specialize (IH (seen ++ [e])). rewrite length_app in IH. cbn [length] in IH.
    replace (length seen + 1)%nat with (S (length seen)) in IH by lia.
    apply IH. now rewrite <- app_assoc. }
  rewrite H2, H3, H5.
  fold (is_layer_filter e).
  destruct (is_layer_filter e) eqn:El.
  - rewrite filter_cons_True by exact El.
    rewrite <- H5. fold (entry_bytes (container_of entries) x). rewrite H6.
    assert (Hlen : length (e_data e) = 14%nat).
    { unfold is_layer_filter in El. apply andb_true_iff in El.
      destruct El as [_ El]. apply Z.eqb_eq in El. lia. }
    rewrite decode_decoded by lia. cbn [mbind result_bind].
    rewrite Hrest. cbn. unfold sample_of. now rewrite H1.
  - rewrite filter_cons_False by congruence. exact Hrest.
Qed.

(** The header of a container, as any reader unpacks it. *)
Lemma container_header entries :
  Z.of_nat (length entries) <= 65535 ->
  take 4 (container_of entries) = MAGIC /\
  unpack_from_HH (container_of entries) 4 = Ok (1, Z.of_nat (length entries)).
Proof.
  intros Hn. split; [reflexivity|].
  unfold unpack_from_HH, container_of.
  rewrite length_app, length_header_bytes.
  destruct (8 + _ <? 4 + 4)%nat eqn:E; [apply Nat.ltb_lt in E; lia | clear E].
  unfold header_bytes. rewrite <- !app_assoc.
  rewrite (field_app_l MAGIC (le_bytes 2 1)) by reflexivity.
  replace (MAGIC ++ le_bytes 2 1 ++ le_bytes 2 (Z.of_nat (length entries)) ++
           concat (encode_row <$> table_of entries (blob_start entries)) ++
           concat (e_data <$> entries))
    with ((MAGIC ++ le_bytes 2 1) ++ le_bytes 2 (Z.of_nat (length entries)) ++
           concat (encode_row <$> table_of entries (blob_start entries)) ++
           concat (e_data <$> entries)) by now rewrite <- !app_assoc.
  rewrite (field_app_l (MAGIC ++ le_bytes 2 1)) by reflexivity.
  rewrite !le_value_le_bytes by (change (256 ^ Z.of_nat 2) with 65536; lia).
  reflexivity.
Qed.

(** Every record and its table row agree, and the row points at the
    record's bytes. *)
Lemma container_rows_agree entries : fits entries ->
  Forall2 (fun e x =>
             ix_id x = e_id e /\ ix_type x = e_type e /\
             ix_sub x = entry_sub_or0 e /\ ix_flags x = e_flags e /\
             ix_length x = Z.of_nat (length (e_data e)) /\
             entry_bytes (container_of entries) x = e_data e)
    entries (table_of entries (blob_start entries)).
Proof.
  intros Hfits. apply Forall2_same_length_lookup_2.
  - now rewrite length_table_of.
  - intros k e x He Hx.
    destruct (container_row _ _ _ Hfits He) as (x' & Hx' & _ & H).
    assert (x' = x) as -> by congruence. exact H.
Qed.

(** The layer-filter records of a collection are the picked rows of its
    table, and their samples are read off the rows. *)
Lemma samples_of_rows (b : list byte) (entries : list Entry) rows :
  Forall2 (fun e x =>
             ix_id x = e_id e /\ ix_type x = e_type e /\
             ix_sub x = entry_sub_or0 e /\ ix_flags x = e_flags e /\
             ix_length x = Z.of_nat (length (e_data e)) /\
             entry_bytes b x = e_data e) entries rows ->
  sample_of <$> filter (fun e => is_layer_filter e = true) entries
    = DumpRows.sample_at b <$> List.filter DumpRows.picked rows.
Proof.
  induction 1 as [|e x entries rows (H1 & H2 & H3 & _ & H5 & H6) _ IH];
    [reflexivity|].
  cbn [List.filter].
  assert (Hp : DumpRows.picked x = is_layer_filter e).
  { unfold DumpRows.picked, is_layer_filter. now rewrite H2, H3, H5. }
  rewrite Hp. destruct (is_layer_filter e) eqn:El.
  - rewrite filter_cons_True by exact El. cbn [fmap list_fmap]. f_equal; [|exact IH].
    unfold sample_of, DumpRows.sample_at. now rewrite H1, H2, H3, H6.
  - rewrite filter_cons_False by congruence. exact IH.
Qed.

(** The layer-filter dump on a container. *)
Lemma dump_container entries : fits entries ->
  DumpLayerFilters.scan_pack (container_of entries)
    = Ok (sample_of <$> filter (fun e => is_layer_filter e = true) entries).
Proof.
  intros Hfits.
  destruct (container_header entries (proj1 Hfits)) as [Hm Hh].
  unfold DumpLayerFilters.scan_pack.
  rewrite bool_decide_eq_true_2 by exact Hm. cbn [negb].
  rewrite Hh. cbn [mbind result_bind]. change (negb (1 =? 1)) with false.
  cbv iota. rewrite Nat2Z.id.
  now apply (dump_rows_container entries Hfits entries []).
Qed.

End ContainerFacts.

Module ContainerProps.
Import Struct StructFacts SysexPack SysexPackRest PackIndex PackIndexMain
       Container PackFacts LayerFilters DumpRows ContainerFacts.

(** X15: the layer-filter dump on a container written by [pack] returns,
    without raising, one sample for each record of type 0x10, subtype 0x22
    and 14 data bytes, in order, with the record's id and exactly its 14
    bytes, decoded field by field; every other record is passed over. *)
Theorem dump_layer_filters_on_packed entries buf :
  pack entries = Ok buf ->
  DumpLayerFilters.scan_pack buf
    = Ok (sample_of <$> filter (fun e => is_layer_filter e = true) entries).
Proof.
  intros H. apply pack_Ok in H. destruct H as [Hfits ->].
  now apply dump_container.
Qed.

Lemma dump_layer_filters_on_packed_witness :
  DumpLayerFilters.scan_pack (container_of Examples.with_layer_filter)
    = Ok [DumpLayerFilters.mkSample 7 0x10 0x22
            [x01; x02; x03; x04; x05; x86; x07; x08; x09; x0a; x0b; x0c; x0d; x0e]
            (DumpLayerFilters.mkDecode 1 2 3 4 5 (-122)
               [x07; x08; x09; x0a; x0b; x0c; x0d; x0e])].
Proof.
  change (DumpLayerFilters.scan_pack (container_of Examples.with_layer_filter)
          = Ok (sample_of <$> filter (fun e => is_layer_filter e = true)
                                Examples.with_layer_filter)).
  apply dump_layer_filters_on_packed. vm_compute. reflexivity.
Defined.

Lemma sidecar_bytes_filter (entries : list Entry) :
  omap sc_bytes (sidecar_row <$> entries)
    = e_data <$> filter (fun e => is_layer_filter e = true) entries.
Proof.
  induction entries as [|e rest IH]; [reflexivity|].
  cbn [fmap list_fmap omap list_omap]. fold (omap sc_bytes (sidecar_row <$> rest)).
  rewrite IH. unfold sidecar_row at 1. cbn [sc_bytes].
  fold (is_layer_filter e). destruct (is_layer_filter e) eqn:El.
  - now rewrite filter_cons_True by exact El.
  - now rewrite filter_cons_False by congruence.
Qed.

(** X16: the sidecar and the container agree, row by row.  For every
    collection [pack] serialises, the sidecar has one row per table entry;
    row [k] of the sidecar has the id, type, subtype, flags and length of
    table row [k], and it lists raw bytes exactly when the table row has
    type 0x10, subtype 0x22 and length 14, in which case they are the bytes
    of that row's region of the container.  The layer-filter dump returns
    exactly the samples of those rows, in table order, so the raw bytes of
    the sidecar are the bytes of the samples. *)
Theorem sidecar_matches_container entries buf :
  pack entries = Ok buf ->
  exists rows samples,
    scan_pack buf = Ok (Some rows) /\
    DumpLayerFilters.scan_pack buf = Ok samples /\
    sidecar_count (write_sidecar_json entries) = Z.of_nat (length rows) /\
    length (sidecar_entries (write_sidecar_json entries)) = length rows /\
    (forall k r x,
        sidecar_entries (write_sidecar_json entries) !! k = Some r ->
        rows !! k = Some x ->
        sc_id r = ix_id x /\ sc_type r = ix_type x /\ sc_sub r = ix_sub x /\
        sc_flags r = ix_flags x /\ sc_length r = ix_length x /\
        sc_bytes r = if picked x then Some (entry_bytes buf x) else None) /\
    samples = sample_at buf <$> List.filter picked rows /\
    omap sc_bytes (sidecar_entries (write_sidecar_json entries))
      = DumpLayerFilters.s_bytes <$> samples.
Proof.
  intros H. apply pack_Ok in H. destruct H as [Hfits ->].
  pose proof (container_rows_agree entries Hfits) as Hrows.
  eexists _, _. split; [now apply scan_pack_container|].
  split; [now apply dump_container|].
  cbn [write_sidecar_json sidecar_count sidecar_entries].
  split; [now rewrite length_fmap, length_table_of|].
  split; [now rewrite length_fmap, length_table_of|].
  split; [|split].
  - intros k r x Hr Hx. rewrite list_lookup_fmap in Hr.
    destruct (entries !! k) as [e|] eqn:He; [|discriminate].
    injection Hr as <-.
    destruct (Forall2_lookup_lr _ _ _ _ _ _ Hrows He Hx)
      as (H1 & H2 & H3 & H4 & H5 & H6).
    unfold sidecar_row, picked.
    cbn [sc_id sc_type sc_sub sc_flags sc_length sc_bytes].
    rewrite H1, H2, H3, H4, H5, H6. repeat split; reflexivity.
  - now apply samples_of_rows.
  - rewrite sidecar_bytes_filter, <- list_fmap_compose. reflexivity.
Qed.

Lemma sidecar_matches_container_witness :
  exists rows samples,
    scan_pack (container_of Examples.with_layer_filter) = Ok (Some rows) /\
    DumpLayerFilters.scan_pack (container_of Examples.with_layer_filter)
      = Ok samples /\
    sidecar_count (write_sidecar_json Examples.with_layer_filter)
      = Z.of_nat (length rows) /\
    length (sidecar_entries (write_sidecar_json Examples.with_layer_filter))
      = length rows /\
    (forall k r x,
        sidecar_entries (write_sidecar_json Examples.with_layer_filter) !! k = Some r ->
        rows !! k = Some x ->
        sc_id r = ix_id x /\ sc_type r = ix_type x /\ sc_sub r = ix_sub x /\
        sc_flags r = ix_flags x /\ sc_length r = ix_length x /\
        sc_bytes r = if picked x
                     then Some (entry_bytes (container_of Examples.with_layer_filter) x)
                     else None) /\
    samples = sample_at (container_of Examples.with_layer_filter)
                <$> List.filter picked rows /\
    omap sc_bytes (sidecar_entries (write_sidecar_json Examples.with_layer_filter))
      = DumpLayerFilters.s_bytes <$> samples.
Proof. apply sidecar_matches_container. vm_compute. reflexivity. Defined.

(** On the example the sidecar lists the 14 bytes of the layer-filter record
    and nothing for the raw record. *)
Example sidecar_with_layer_filter :
  sc_bytes <$> sidecar_entries (write_sidecar_json Examples.with_layer_filter)
    = [None;
       Some [x01; x02; x03; x04; x05; x86; x07; x08; x09; x0a; x0b; x0c; x0d; x0e]].
Proof. reflexivity. Qed.

End ContainerProps.

(** ** 14-bit values, message fields and the request generators *)

Module MidiFacts.
Import SysexPack SyxToolsRest FilterRequests.

Lemma lor_shiftl_add (a b : Z) :
  0 <= a < 128 -> Z.lor a (Z.shiftl b 7) = a + 128 * b.
Proof.
  intros Ha.
  assert (Hd : Z.land a (Z.shiftl b 7) = 0).
  { apply Z.bits_inj'. intros n Hn. rewrite Z.land_spec, Z.bits_0.
    destruct (Z.lt_ge_cases n 7) as [Hlt | Hge].
    - rewrite Z.shiftl_spec_low by lia. apply andb_false_r.
    - rewrite <- (Z.mod_small a (2 ^ 7)) by (change (2 ^ 7) with 128; lia).
      now rewrite Z.mod_pow2_bits_high by lia. }
  rewrite <- Z.lxor_lor, <- Z.add_nocarry_lxor by exact Hd.
  rewrite Z.shiftl_mul_pow2 by lia. change (2 ^ 7) with 128. lia.
Qed.

Lemma land_7F (v : Z) : Z.land v 0x7F = v mod 128.
Proof. change 0x7F with (Z.ones 7). now rewrite Z.land_ones by lia. Qed.

Lemma shiftr_7 (v : Z) : Z.shiftr v 7 = v / 128.
Proof. now rewrite Z.shiftr_div_pow2 by lia. Qed.

Lemma midi_u14_add (lsb msb : Z) :
  midi_u14 lsb msb = lsb mod 128 + 128 * (msb mod 128).
Proof.
  unfold midi_u14. rewrite !land_7F. apply lor_shiftl_add.
  apply Z.mod_pos_bound. reflexivity.
Qed.

Lemma u16_to_bytes_mod (v : Z) : u16_to_bytes v = (v mod 128, v / 128 mod 128).
Proof. unfold u16_to_bytes. now rewrite !land_7F, shiftr_7. Qed.

Lemma midi_u14_range (lsb msb : Z) : 0 <= midi_u14 lsb msb < 16384.
Proof.
  rewrite midi_u14_add.
  pose proof (Z.mod_pos_bound lsb 128 eq_refl).
  pose proof (Z.mod_pos_bound msb 128 eq_refl). lia.
Qed.

Lemma u16_to_bytes_midi_u14 (lsb msb : Z) :
  u16_to_bytes (midi_u14 lsb msb) = (lsb mod 128, msb mod 128).
Proof.
  rewrite u16_to_bytes_mod, midi_u14_add.
  pose proof (Z.mod_pos_bound lsb 128 eq_refl) as Hl.
  pose proof (Z.mod_pos_bound msb 128 eq_refl) as Hm.
  set (a := lsb mod 128) in *. set (b := msb mod 128) in *.
  assert (H1 : (a + 128 * b) mod 128 = a)
    by (clearbody a b; Z.div_mod_to_equations; lia).
  assert (H2 : (a + 128 * b) / 128 = b)
    by (clearbody a b; Z.div_mod_to_equations; lia).
  rewrite H1, H2. now rewrite (Z.mod_small b) by lia.
Qed.

End MidiFacts.

Module MidiProps.
Import SysexPack SyxToolsRest FilterRequests EmuScrapePresets MidiFacts.

(** X17: the 14-bit codec.  Splitting a value with [u16_to_bytes] and joining
    the two bytes with [midi_u14] gives the value back modulo 2^14 (so exactly,
    for a value in [0 .. 16383]; a negative or larger value wraps); joining and
    splitting gives the two bytes back without their top bit; the joined value
    is always in [0 .. 16383]; [u16] of the scraper is the same function. *)
Theorem u14_roundtrip (value lsb msb : Z) :
  midi_u14 (u16_to_bytes value).1 (u16_to_bytes value).2 = value mod 16384 /\
  u16_to_bytes (midi_u14 lsb msb) = (lsb mod 128, msb mod 128) /\
  0 <= midi_u14 lsb msb < 16384 /\
  u16 lsb msb = midi_u14 lsb msb.
Proof.
  split; [|split; [|split]].
  - rewrite u16_to_bytes_mod. cbn [fst snd]. rewrite midi_u14_add.
    rewrite !Z.mod_mod by lia.
    change 16384 with (128 * 128). rewrite Z.rem_mul_r by lia. reflexivity.
  - apply u16_to_bytes_midi_u14.
  - apply midi_u14_range.
  - reflexivity.
Qed.

End MidiProps.

Module FieldProps.
Import SysexPack SyxToolsRest.

(** X18: [emu_fields] behind its guard.  On every message [is_emu_proteus]
    accepts, [emu_fields] returns without raising.  A message of 6 bytes has
    subcommand -1 and no payload; a message of 7 bytes or more is
    [F0 18 0F dev b4 cmd sub] followed by the payload and one last byte (the
    payload is what follows [sub] without the last byte, empty when nothing or
    a single byte follows).  In a 7-byte message [sub] is the last byte
    itself. *)
Theorem emu_fields_guarded (msg : list byte) :
  is_emu_proteus msg = true ->
  exists dev cmd sub payload,
    emu_fields msg = Ok (dev, cmd, sub, payload) /\
    ((length msg = 6)%nat -> sub = -1 /\ payload = []) /\
    ((7 <= length msg)%nat -> exists b4 rest,
       msg = [xf0; x18; x0f; byte_of_Z dev; b4; byte_of_Z cmd; byte_of_Z sub]
               ++ rest /\
       payload = removelast rest).
Proof.
  unfold is_emu_proteus. intros H.
  apply andb_prop in H as [H H2]. apply andb_prop in H as [H H1].
  apply andb_prop in H as [Hl H0].
  apply Nat.leb_le in Hl. apply Z.eqb_eq in H0, H1, H2.
  destruct msg as [|b0 [|b1 [|b2 [|b3 [|b4 [|b5 tl]]]]]]; cbn [length] in Hl; try lia.
  unfold at_ in H0, H1, H2. cbn [nth] in H0, H1, H2.
  apply (byte_to_Z_inj b0 xf0) in H0. apply (byte_to_Z_inj b1 x18) in H1.
  apply (byte_to_Z_inj b2 x0f) in H2. subst b0 b1 b2.
  unfold emu_fields.
  change (index (xf0 :: x18 :: x0f :: b3 :: b4 :: b5 :: tl) 3) with (Ok (byte_to_Z b3)).
  change (index (xf0 :: x18 :: x0f :: b3 :: b4 :: b5 :: tl) 5) with (Ok (byte_to_Z b5)).
  cbn [mbind result_bind mret result_ret].
  destruct tl as [|b6 rest].
  - exists (byte_to_Z b3), (byte_to_Z b5), (-1), []. split; [reflexivity|].
    split; [intros _; split; reflexivity | cbn [length]; lia].
  - exists (byte_to_Z b3), (byte_to_Z b5), (byte_to_Z b6), (removelast rest).
    split; [|split].
    + change (6 <? length (xf0 :: x18 :: x0f :: b3 :: b4 :: b5 :: b6 :: rest))%nat
        with true.
      cbv iota. do 4 f_equal.
      destruct rest as [|r1 [|r2 rest']]; [reflexivity | reflexivity |].
      change (8 <? length (xf0 :: x18 :: x0f :: b3 :: b4 :: b5 :: b6 :: r1 :: r2 :: rest'))%nat
        with true.
      cbv iota. unfold slice_to_last, slice. cbn [length drop].
      rewrite removelast_firstn_len. cbn [length Nat.pred]. f_equal; lia.
    + intros Hlen. cbn [length] in Hlen. lia.
    + intros _. exists b4, rest. rewrite !byte_of_to_Z. split; reflexivity.
Qed.

Lemma emu_fields_guarded_witness :
  exists dev cmd sub payload,
    emu_fields [xf0; x18; x0f; x00; x55; x10; x22; x01; x02; xf7]
      = Ok (dev, cmd, sub, payload) /\
    ((length [xf0; x18; x0f; x00; x55; x10; x22; x01; x02; xf7] = 6)%nat ->
       sub = -1 /\ payload = []) /\
    ((7 <= length [xf0; x18; x0f; x00; x55; x10; x22; x01; x02; xf7])%nat ->
       exists b4 rest,
         [xf0; x18; x0f; x00; x55; x10; x22; x01; x02; xf7]
           = [xf0; x18; x0f; byte_of_Z dev; b4; byte_of_Z cmd; byte_of_Z sub]
               ++ rest /\
         payload = removelast rest).
Proof. apply emu_fields_guarded. reflexivity. Defined.

End FieldProps.

Module RequestFacts.
Import SysexPack SysexPackRest SyxToolsRest FilterRequests Requests MidiFacts
       FramingFacts.

Lemma in_byte_mod (v : Z) : (0 <=? v mod 128) && (v mod 128 <? 256) = true.
Proof.
  pose proof (Z.mod_pos_bound v 128 eq_refl).
  apply andb_true_intro. split; [apply Z.leb_le | apply Z.ltb_lt]; lia.
Qed.

(** The range test [bytes([...])] makes on the fourteen values comes down to
    the test on the device id. *)
Lemma request_values_in_range preset layer rom dev :
  forallb (fun v => (0 <=? v) && (v <? 256))
    [0xF0; 0x18; 0x0F; dev; 0x55; 0x10; 0x22;
     preset mod 128; preset / 128 mod 128; layer mod 128; layer / 128 mod 128;
     rom mod 128; rom / 128 mod 128; 0xF7]
  = (0 <=? dev) && (dev <? 256).
Proof.
  cbn [forallb]. rewrite !in_byte_mod.
  change ((0 <=? 240) && (240 <? 256)) with true.
  change ((0 <=? 24) && (24 <? 256)) with true.
  change ((0 <=? 15) && (15 <? 256)) with true.
  change ((0 <=? 85) && (85 <? 256)) with true.
  change ((0 <=? 16) && (16 <? 256)) with true.
  change ((0 <=? 34) && (34 <? 256)) with true.
  change ((0 <=? 247) && (247 <? 256)) with true.
  cbn [andb]. now rewrite andb_true_r.
Qed.

Lemma create_filter_request_eq preset layer rom dev :
  create_filter_request preset layer rom dev =
    if (0 <=? dev) && (dev <? 256) then Ok (request preset layer rom dev)
    else Raise ValueError.
Proof.
  unfold create_filter_request, bytes_of. rewrite !land_7F, !shiftr_7.
  rewrite request_values_in_range.
  destruct ((0 <=? dev) && (dev <? 256)); reflexivity.
Qed.

Lemma generate_create preset layer rom dev :
  generate_filter_param_request dev preset layer rom
    = create_filter_request preset layer rom dev.
Proof. reflexivity. Qed.

Lemma byte_of_Z_neq (v w : Z) :
  0 <= v < 256 -> v <> w -> 0 <= w < 256 -> byte_of_Z v <> byte_of_Z w.
Proof.
  intros Hv Hne Hw Heq. apply (f_equal byte_to_Z) in Heq.
  rewrite !byte_to_of_Z, !Z.mod_small in Heq by lia. contradiction.
Qed.

Lemma request_framed preset layer rom dev :
  0 <= dev < 256 -> dev <> 0xF7 ->
  exists body, request preset layer rom dev = xf0 :: body ++ [xf7] /\ xf7 ∉ body.
Proof.
  intros Hd Hne. eexists [_; _; _; _; _; _; _; _; _; _; _; _]. split; [reflexivity|].
  assert (Hm : forall v, byte_of_Z (v mod 128) <> xf7).
  { intros v. pose proof (Z.mod_pos_bound v 128 eq_refl).
    apply (byte_of_Z_neq (v mod 128) 0xF7); lia. }
  assert (Hdev : byte_of_Z dev <> xf7) by (apply (byte_of_Z_neq dev 0xF7); lia).
  intros H.
  repeat (apply elem_of_cons in H as [H|H];
          [first [discriminate | symmetry in H; now apply Hm in H
                 | symmetry in H; now apply Hdev in H]|]).
  inversion H.
Qed.

(** Messages written one after another, each followed by a separator that
    holds no delimiter, are split back exactly. *)
Lemma extract_from_separated (msgs : list (list byte)) (sep : list byte) :
  Forall (fun m => exists body, m = xf0 :: body ++ [xf7] /\ xf7 ∉ body) msgs ->
  xf0 ∉ sep ->
  extract_from 0 (concat ((fun m => m ++ sep) <$> msgs)) = msgs.
Proof.
  intros Hf Hsep. induction Hf as [|m msgs (body & -> & Hb) _ IH]; [reflexivity|].
  cbn [fmap list_fmap concat]. cbn [app]. rewrite <- !app_assoc. cbn [app].
  rewrite extract_from_frame by exact Hb. f_equal.
  rewrite extract_from_junk by exact Hsep. exact IH.
Qed.

Lemma requests_for_Ok pairs rom dev :
  0 <= dev < 256 ->
  requests_for pairs rom dev
    = Ok ((fun pl => request pl.1 pl.2 rom dev) <$> pairs).
Proof.
  intros Hd. induction pairs as [|[p l] rest IH]; [reflexivity|].
  cbn [requests_for]. rewrite create_filter_request_eq.
  replace ((0 <=? dev) && (dev <? 256)) with true
    by (symmetry; apply andb_true_intro; split; [apply Z.leb_le | apply Z.ltb_lt]; lia).
  cbn [mbind result_bind]. rewrite IH. reflexivity.
Qed.

End RequestFacts.

Module RequestProps.
Import SysexPack SysexPackRest SyxToolsRest FilterRequests Requests MidiFacts
       FramingFacts RequestFacts.

(** X19: the two request generators.  [create_filter_request] and
    [generate_filter_param_request] return the same result on every input, and
    fail with [ValueError] exactly when the device id is outside [0 .. 255]:
    the preset, layer and ROM numbers are masked to 14 bits and never make
    the call fail, negative or too large as they may be. *)
Theorem filter_request_generators (preset layer rom dev : Z) :
  generate_filter_param_request dev preset layer rom
    = create_filter_request preset layer rom dev /\
  (create_filter_request preset layer rom dev = Raise ValueError
     <-> ~ (0 <= dev < 256)) /\
  (0 <= dev < 256 ->
     create_filter_request preset layer rom dev = Ok (request preset layer rom dev)).
Proof.
  split; [reflexivity|]. rewrite create_filter_request_eq.
  destruct (0 <=? dev) eqn:E1; destruct (dev <? 256) eqn:E2; cbn [andb];
    try apply Z.leb_le in E1; try apply Z.leb_gt in E1;
    try apply Z.ltb_lt in E2; try apply Z.ltb_ge in E2;
    (split; [split; [try discriminate; lia | try reflexivity; intros; lia]
            | intros; try reflexivity; lia]).
Qed.

(** X20: a request reads back.  For a device id in [0 .. 255] the request is
    14 bytes, passes [is_emu_proteus], and [emu_fields] returns the device id,
    command 0x10, subcommand 0x22 and a 6-byte payload whose three byte pairs
    join, with [midi_u14], to the preset, layer and ROM numbers modulo 2^14.
    Unless the device id is 0xF7, the frame extractor returns the request as
    its one frame. *)
Theorem filter_request_reads_back (preset layer rom dev : Z) :
  0 <= dev < 256 ->
  exists msg payload,
    create_filter_request preset layer rom dev = Ok msg /\
    length msg = 14%nat /\
    is_emu_proteus msg = true /\
    emu_fields msg = Ok (dev, 0x10, 0x22, payload) /\
    length payload = 6%nat /\
    midi_u14 (at_ payload 0) (at_ payload 1) = preset mod 16384 /\
    midi_u14 (at_ payload 2) (at_ payload 3) = layer mod 16384 /\
    midi_u14 (at_ payload 4) (at_ payload 5) = rom mod 16384 /\
    (dev <> 0xF7 -> extract_frames msg = [msg]).
Proof.
  intros Hd. exists (request preset layer rom dev).
  exists (byte_of_Z <$> [preset mod 128; preset / 128 mod 128;
                         layer mod 128; layer / 128 mod 128;
                         rom mod 128; rom / 128 mod 128]).
  assert (Hj : forall v,
    midi_u14 (byte_to_Z (byte_of_Z (v mod 128)))
             (byte_to_Z (byte_of_Z (v / 128 mod 128))) = v mod 16384).
  { intros v. rewrite !byte_to_of_Z.
    pose proof (Z.mod_pos_bound v 128 eq_refl).
    pose proof (Z.mod_pos_bound (v / 128) 128 eq_refl).
    rewrite !(Z.mod_small _ 256) by lia. rewrite midi_u14_add.
    rewrite !Z.mod_mod by lia.
    change 16384 with (128 * 128). now rewrite Z.rem_mul_r by lia. }
  split; [|split; [reflexivity|split; [reflexivity|split; [|split; [reflexivity|]]]]].
  - rewrite create_filter_request_eq.
    replace ((0 <=? dev) && (dev <? 256)) with true; [reflexivity|].
    symmetry. apply andb_true_intro. split; [apply Z.leb_le | apply Z.ltb_lt]; lia.
  - unfold emu_fields, request, index. cbn [lookup list_lookup].
    cbn [mbind result_bind mret result_ret].
    rewrite byte_to_of_Z, Z.mod_small by lia. reflexivity.
  - split; [apply Hj | split; [apply Hj | split; [apply Hj|]]].
    intros Hne. destruct (request_framed preset layer rom dev Hd Hne) as (body & Hr & Hb).
    unfold extract_frames. rewrite Hr.
    replace (xf0 :: body ++ [xf7]) with (xf0 :: body ++ xf7 :: []) at 1 by reflexivity.
    now rewrite extract_from_frame by exact Hb.
Qed.

Lemma filter_request_reads_back_witness :
  exists msg payload,
    create_filter_request 300 2 0x0FC0 5 = Ok msg /\
    length msg = 14%nat /\
    is_emu_proteus msg = true /\
    emu_fields msg = Ok (5, 0x10, 0x22, payload) /\
    length payload = 6%nat /\
    midi_u14 (at_ payload 0) (at_ payload 1) = 300 mod 16384 /\
    midi_u14 (at_ payload 2) (at_ payload 3) = 2 mod 16384 /\
    midi_u14 (at_ payload 4) (at_ payload 5) = 0x0FC0 mod 16384 /\
    (5 <> 0xF7 -> extract_frames msg = [msg]).
Proof. apply filter_request_reads_back. lia. Defined.

(** X21: the bulk request file.  For a device id in [0 .. 255],
    [create_bulk_filter_requests] returns 512 requests, one for every preset
    0..127 and layer 0..3 in that order (request [i] is for preset [i / 4],
    layer [i mod 4]), no two of them equal.  Unless the device id is 0xF7, the
    file [save_requests_to_file] writes (each request followed by a newline)
    is split by the frame extractor into exactly these requests. *)
Theorem bulk_requests_file (rom dev : Z) :
  0 <= dev < 256 ->
  exists requests,
    create_bulk_filter_requests rom dev = Ok requests /\
    requests = (fun i => request (i / 4) (i mod 4) rom dev)
                 <$> (Z.of_nat <$> seq 0 512) /\
    NoDup requests /\
    (dev <> 0xF7 -> extract_frames (save_requests_to_file requests) = requests).
Proof.
  intros Hd. unfold create_bulk_filter_requests.
  rewrite requests_for_Ok by exact Hd.
  set (pairs := (preset ← Z.of_nat <$> seq 0 128;
                 layer ← Z.of_nat <$> seq 0 4; [(preset, layer)])).
  assert (Hp : pairs = (fun i => (i / 4, i mod 4)) <$> (Z.of_nat <$> seq 0 512))
    by (vm_compute; reflexivity).
  assert (Hr : Forall (fun pl => 0 <= pl.1 < 128 /\ 0 <= pl.2 < 4) pairs).
  { rewrite Hp. rewrite Forall_fmap, Forall_fmap. apply Forall_forall.
    intros i Hi. apply elem_of_seq in Hi. cbn [compose fst snd].
    pose proof (Z.mod_pos_bound (Z.of_nat i) 4 eq_refl).
    split; [|lia]. split; [apply Z.div_pos; lia|].
    apply Z.div_lt_upper_bound; lia. }
  eexists. split; [reflexivity|]. split; [|split].
  - rewrite Hp, <- list_fmap_compose. reflexivity.
  - apply NoDup_fmap_2_strong.
    + intros [p l] [p' l'] H1 H2 Heq.
      rewrite Forall_forall in Hr.
      pose proof (Hr _ H1) as [Hp1 Hl1]. pose proof (Hr _ H2) as [Hp2 Hl2].
      cbn [fst snd] in *. unfold request in Heq.
      injection Heq as Ha _ Hb _.
      apply (f_equal byte_to_Z) in Ha, Hb. rewrite !byte_to_of_Z in Ha, Hb.
      rewrite (Z.mod_small p 128), (Z.mod_small p' 128), !(Z.mod_small _ 256)
        in Ha by lia.
      rewrite (Z.mod_small l 128), (Z.mod_small l' 128), !(Z.mod_small _ 256)
        in Hb by lia.
      congruence.
    + rewrite Hp. apply NoDup_fmap_2_strong.
      * intros i j Hi Hj Heq. injection Heq as Hq Hm.
        rewrite (Z.div_mod i 4), (Z.div_mod j 4) by lia. congruence.
      * apply NoDup_fmap_2; [apply Nat2Z.inj' | apply NoDup_seq].
  - intros Hne. unfold extract_frames, save_requests_to_file.
    apply extract_from_separated.
    + rewrite Forall_fmap. apply Forall_forall. intros [p l] _. cbn [compose fst snd].
      now apply request_framed.
    + intros H. apply elem_of_cons in H as [H|H]; [discriminate | inversion H].
Qed.

Lemma bulk_requests_file_witness :
  exists requests,
    create_bulk_filter_requests 0 0 = Ok requests /\
    requests = (fun i => request (i / 4) (i mod 4) 0 0)
                 <$> (Z.of_nat <$> seq 0 512) /\
    NoDup requests /\
    (0 <> 0xF7 -> extract_frames (save_requests_to_file requests) = requests).
Proof. apply bulk_requests_file. lia. Defined.

End RequestProps.

(** ** The decoder and the index summary *)

Module ToolFacts.
Import Struct SysexPack PackIndex PackIndexMain ProteusPresetDecode Container
       LayerFilters.

(** The decoder's loop over the table reads what the index reader reads. *)
Lemma read_rows_scan_rows b n : forall i,
  read_rows b n i =
    match scan_rows b n i with
    | Ok rows => Ok (tuple_of <$> rows)
    | Raise e => Raise e
    end.
Proof.
  induction n as [|n IH]; intros i; [reflexivity|].
  cbn [read_rows scan_rows]. change ProteusPresetDecode.esz with PackIndex.esz.
  destruct (unpack_from_IHHHII b (8 + i * PackIndex.esz))
    as [[[[[[id_ typ] sub] flags] offd] ln]|e]; [|reflexivity].
  cbn [mbind result_bind]. rewrite IH.
  destruct (scan_rows b n (S i)) as [rows|e]; reflexivity.
Qed.

Lemma has22_table entries : forall off,
  has22 (table_of entries off)
    = existsb (fun e => (e_type e =? 0x10) && (entry_sub_or0 e =? 0x22)) entries.
Proof.
  induction entries as [|e rest IH]; intros off; [reflexivity|].
  cbn [table_of]. unfold has22 in *. cbn [existsb ix_type ix_sub]. now rewrite IH.
Qed.

Lemma hasFE_table entries : forall off,
  hasFE (table_of entries off)
    = existsb (fun e => (e_type e =? 0x10) && (entry_sub_or0 e =? 0xFE)) entries.
Proof.
  induction entries as [|e rest IH]; intros off; [reflexivity|].
  cbn [table_of]. unfold hasFE in *. cbn [existsb ix_type ix_sub]. now rewrite IH.
Qed.

(** What the loop of [main] keeps true of its counters and dictionary. *)
Lemma index_files_rows files : forall r r',
  index_files r files = Ok r' ->
  let new := omap IndexRows.index_row files in
  packs r' = packs r ++ new /\
  total r' = total r + Z.of_nat (length new) /\
  with_sub22 r' = with_sub22 r
      + Z.of_nat (length (filter (fun x => x.2.1.2 = true) new)) /\
  with_assembled r' = with_assembled r
      + Z.of_nat (length (filter (fun x => x.2.2 = true) new)) /\
  Forall (fun file => exists e, scan_pack file.2 = Ok e) files.
Proof.
  induction files as [|[p b] rest IH]; intros r r' H.
  - injection H as <-. cbn. rewrite app_nil_r.
    repeat split; try lia; constructor.
  - cbn [index_files] in H. unfold index_file in H. cbv zeta.
    cbn [omap list_omap].
    assert (Hr : IndexRows.index_row (p, b) =
                 match scan_pack b with
                 | Ok (Some rows) => Some (p, (rows, has22 rows, hasFE rows))
                 | _ => None
                 end) by reflexivity.
    rewrite Hr. clear Hr.
    destruct (scan_pack b) as [[e|]|err] eqn:Es; cbn [mbind result_bind] in H;
      [| |discriminate].
    + apply IH in H. cbv zeta in H. destruct H as (Hp & Ht & H22 & HFE & Hall).
      cbn [packs total with_sub22 with_assembled] in *.
      split; [now rewrite Hp, <- app_assoc|].
      split; [cbn [length]; lia|].
      split; [|split; [|constructor; [now exists (Some e) | exact Hall]]].
      * destruct (has22 e) eqn:E.
        -- rewrite filter_cons_True by reflexivity. cbn [length]. lia.
        -- rewrite filter_cons_False by (cbn; congruence). lia.
      * destruct (hasFE e) eqn:E.
        -- rewrite filter_cons_True by reflexivity. cbn [length]. lia.
        -- rewrite filter_cons_False by (cbn; congruence). lia.
    + apply IH in H. cbv zeta in H. destruct H as (Hp & Ht & H22 & HFE & Hall).
      repeat (split; [assumption|]).
      constructor; [now exists None | exact Hall].
Qed.

(** Among files of pairwise distinct paths a path names one file. *)
Lemma distinct_paths_one_file (files : list (string * list byte)) p b b' :
  NoDup files.*1 -> (p, b) ∈ files -> (p, b') ∈ files -> b = b'.
Proof.
  induction files as [|[a c] l IH]; intros Hnd H1 H2; [inversion H1|].
  cbn [fmap list_fmap fst] in Hnd. apply NoDup_cons in Hnd.
  destruct Hnd as [Ha Hnd].
  apply elem_of_cons in H1. apply elem_of_cons in H2.
  destruct H1 as [H1|H1], H2 as [H2|H2].
  - congruence.
  - exfalso. apply Ha. injection H1 as <- <-. apply list_elem_of_fmap.
    exists (p, b'). split; [reflexivity | assumption].
  - exfalso. apply Ha. injection H2 as <- <-. apply list_elem_of_fmap.
    exists (p, b). split; [reflexivity | assumption].
  - now apply IH.
Qed.

(** The rows of the index are keyed by the paths of recognised files, in
    file order. *)
Lemma index_rows_sublist (files : list (string * list byte)) :
  (omap IndexRows.index_row files).*1 `sublist_of` files.*1.
Proof.
  induction files as [|[p b] rest IH]; [constructor|].
  cbn [omap list_omap]. unfold IndexRows.index_row at 1. cbn [fst snd].
  destruct (scan_pack b) as [[e|]|err]; cbn [fmap list_fmap fst].
  - now apply sublist_skip.
  - now apply sublist_cons.
  - now apply sublist_cons.
Qed.

End ToolFacts.

Module ToolProps.
Import Struct SysexPack PackIndex PackIndexMain ProteusPresetDecode Container
       PackFacts LayerFilters IndexRows ContainerFacts ToolFacts.

(** X22: the two header decoders.  On every non-empty byte string
    [parse_header] of the decoder tool returns what [_parse_preset_header_blob]
    of the packer returns ([None] below 17 bytes, the same fields otherwise);
    on the empty string the packer's decoder returns [None] and the tool's
    raises [IndexError], because it reads [data[0]] before it checks the
    length. *)
Theorem parse_header_agrees (data : list byte) :
  parse_header data =
    match data with
    | [] => Raise IndexError
    | _ :: _ => Ok (_parse_preset_header_blob data)
    end /\
  _parse_preset_header_blob [] = None.
Proof.
  split; [|reflexivity].
  destruct data as [|b rest]; [reflexivity|].
  unfold parse_header, _parse_preset_header_blob.
  change (index (b :: rest) 0) with (Ok (byte_to_Z b)).
  cbn [mbind result_bind mret result_ret].
  destruct (length (b :: rest) <? 1 + 2 + 4 + 10)%nat; reflexivity.
Qed.

(** X23: the decoder's reader against the index reader.  On a buffer without
    the magic [read_pack] leaves through [SystemExit] where [scan_pack]
    returns [None]; whenever [scan_pack] returns a table, [read_pack] returns
    the buffer and the same rows as tuples; whenever [scan_pack] raises,
    [read_pack] raises the same exception.  [read_pack] has no version check:
    a buffer [scan_pack] turns down for its version is read all the same. *)
Theorem read_pack_scan_pack (b : list byte) :
  (take 4 b <> MAGIC ->
     read_pack b = SystemExit "Not a ZPK1 pack" /\ scan_pack b = Ok None) /\
  (forall rows, scan_pack b = Ok (Some rows) ->
     read_pack b = Returns (Ok (b, tuple_of <$> rows))) /\
  (forall e, scan_pack b = Raise e -> read_pack b = Returns (Raise e)) /\
  (take 4 b = MAGIC -> (8 <= length b)%nat ->
     read_pack b =
       Returns (entries ← read_rows b (Z.to_nat (field b 6 2)) 0; Ok (b, entries))).
Proof.
  unfold read_pack, scan_pack.
  destruct (bool_decide (take 4 b = MAGIC)) eqn:Em; cbn [negb].
  - apply bool_decide_eq_true_1 in Em.
    split; [intros H; contradiction|].
    unfold unpack_from_HH.
    destruct (length b <? 4 + 4)%nat eqn:El; cbn [mbind result_bind].
    + split; [discriminate|]. split; [now intros e [= <-]|].
      apply Nat.ltb_lt in El. intros _ H. lia.
    + change (4 + 2)%nat with 6%nat. rewrite read_rows_scan_rows.
      split; [|split; [|reflexivity]].
      * intros rows H. destruct (negb (field b 4 2 =? 1)); [discriminate|].
        destruct (scan_rows b (Z.to_nat (field b 6 2)) 0) as [rows'|e];
          [|discriminate].
        now injection H as <-.
      * intros e H. destruct (negb (field b 4 2 =? 1)); [discriminate|].
        destruct (scan_rows b (Z.to_nat (field b 6 2)) 0) as [rows'|e'];
          [discriminate|].
        now injection H as <-.
  - apply bool_decide_eq_false_1 in Em.
    split; [intros _; split; reflexivity|].
    split; [discriminate|]. split; [discriminate | intros H; contradiction].
Qed.

(** X24: the index of one container written by [pack].  The file is counted,
    its row in the dictionary lists the table [pack] laid out, and the two
    flags say whether the collection holds a record of type 0x10 with
    subtype 0x22, and one with subtype 0xFE. *)
Theorem index_file_on_packed entries buf (r : Report) (p : string) :
  pack entries = Ok buf ->
  let has v := existsb (fun e => (e_type e =? 0x10) && (entry_sub_or0 e =? v))
                 entries in
  index_file r p buf =
    Ok (mkReport (total r + 1)
          (with_sub22 r + (if has 0x22 then 1 else 0))
          (with_assembled r + (if has 0xFE then 1 else 0))
          (packs r ++ [(p, (table_of entries (blob_start entries),
                            has 0x22, has 0xFE))])).
Proof.
  intros H has. apply pack_Ok in H. destruct H as [Hfits ->].
  unfold index_file. rewrite scan_pack_container by exact Hfits.
  cbn [mbind result_bind mret result_ret].
  now rewrite has22_table, hasFE_table.
Qed.

Lemma index_file_on_packed_witness :
  index_file (mkReport 0 0 0 []) "a.bin" (container_of Examples.preset_3_0) =
    Ok (mkReport (0 + 1)
          (0 + (if existsb (fun e => (e_type e =? 0x10) && (entry_sub_or0 e =? 0x22))
                     Examples.preset_3_0 then 1 else 0))
          (0 + (if existsb (fun e => (e_type e =? 0x10) && (entry_sub_or0 e =? 0xFE))
                     Examples.preset_3_0 then 1 else 0))
          ([] ++ [("a.bin"%string,
                   (table_of Examples.preset_3_0 (blob_start Examples.preset_3_0),
                    existsb (fun e => (e_type e =? 0x10) && (entry_sub_or0 e =? 0x22))
                      Examples.preset_3_0,
                    existsb (fun e => (e_type e =? 0x10) && (entry_sub_or0 e =? 0xFE))
                      Examples.preset_3_0))])).
Proof.
  apply (index_file_on_packed Examples.preset_3_0 _ (mkReport 0 0 0 []) "a.bin").
  vm_compute. reflexivity.
Defined.

(** X25: the summary of the index.  When the loop over the files (of
    pairwise distinct paths) ends without an exception, [scan_pack] raised
    on no file, and the dictionary holds, in file order, exactly one row for
    every file [scan_pack] recognised and none for the others: a recognised
    file has its row, with the table read from it and the two flags saying
    whether the table has a row of type 0x10 with subtype 0x22, and with
    subtype 0xFE; the keys of the dictionary are pairwise distinct.
    [total_packs] is the number of rows of the dictionary, and the two other
    counters are the numbers of rows whose flag is set, so neither exceeds
    [total_packs]. *)
Theorem index_dir_summary (files : list (string * list byte)) (r : Report) :
  NoDup files.*1 ->
  index_dir files = Ok r ->
  packs r = omap index_row files /\
  NoDup (packs r).*1 /\
  (packs r).*1 `sublist_of` files.*1 /\
  (forall p b rows, (p, b) ∈ files -> scan_pack b = Ok (Some rows) ->
     forall v, (p, v) ∈ packs r <->
               v = (rows, has_row 0x22 rows, has_row 0xFE rows)) /\
  (forall p b, (p, b) ∈ files -> scan_pack b = Ok None ->
     forall v, (p, v) ∉ packs r) /\
  Forall (fun file => exists e, scan_pack file.2 = Ok e) files /\
  total r = Z.of_nat (length (packs r)) /\
  with_sub22 r = Z.of_nat (length (filter (fun x => x.2.1.2 = true) (packs r))) /\
  with_assembled r = Z.of_nat (length (filter (fun x => x.2.2 = true) (packs r))) /\
  0 <= with_sub22 r <= total r /\ 0 <= with_assembled r <= total r.
Proof.
  intros Hnd H. apply index_files_rows in H. cbv zeta in H.
  destruct H as (Hp & Ht & H22 & HFE & Hall).
  cbn [packs total with_sub22 with_assembled app] in *.
  rewrite <- Hp in Ht, H22, HFE.
  pose proof (index_rows_sublist files) as Hsub. rewrite <- Hp in Hsub.
  assert (Hnd' : NoDup (packs r).*1) by (eapply sublist_NoDup; eassumption).
  assert (Hrow : forall p b rows, (p, b) ∈ files -> scan_pack b = Ok (Some rows) ->
            (p, (rows, has_row 0x22 rows, has_row 0xFE rows)) ∈ packs r).
  { intros p b rows Hin Hs. rewrite Hp. apply list_elem_of_omap.
    exists (p, b). split; [exact Hin|]. unfold index_row. cbn [fst snd].
    now rewrite Hs. }
  assert (Hkey : forall p v, (p, v) ∈ packs r ->
            exists b, (p, b) ∈ files /\ index_row (p, b) = Some (p, v)).
  { intros p v Hin. rewrite Hp in Hin. apply list_elem_of_omap in Hin.
    destruct Hin as ([p' b] & Hin & Hr). exists b.
    assert (p' = p) as ->.
    { unfold index_row in Hr. cbn [fst snd] in Hr.
      destruct (scan_pack b) as [[e|]|err]; congruence. }
    split; assumption. }
  assert (Hsame : forall p b b', (p, b) ∈ files -> (p, b') ∈ files -> b = b').
  { intros p b b' H1 H2. eapply distinct_paths_one_file; eassumption. }
  pose proof (length_filter (fun x : string * (list IndexEntry * bool * bool)
                               => x.2.1.2 = true) (packs r)).
  pose proof (length_filter (fun x : string * (list IndexEntry * bool * bool)
                               => x.2.2 = true) (packs r)).
  split; [exact Hp|]. split; [exact Hnd'|]. split; [exact Hsub|].
  split; [|split; [|split; [exact Hall|]]].
  - intros p b rows Hin Hs v. split.
    + intros Hv. destruct (Hkey p v Hv) as (b' & Hin' & Hr).
      assert (b' = b) as -> by (eapply Hsame; eassumption).
      unfold index_row in Hr. cbn [fst snd] in Hr. rewrite Hs in Hr. congruence.
    + intros ->. eapply Hrow; eassumption.
  - intros p b Hin Hs v Hv. destruct (Hkey p v Hv) as (b' & Hin' & Hr).
    assert (b' = b) as -> by (eapply Hsame; eassumption).
    unfold index_row in Hr. cbn [fst snd] in Hr. rewrite Hs in Hr. discriminate.
  - repeat split; try assumption; lia.
Qed.

Lemma index_dir_summary_witness :
  packs two_files_report = omap index_row two_files /\
  NoDup (packs two_files_report).*1 /\
  (packs two_files_report).*1 `sublist_of` two_files.*1 /\
  (forall p b rows, (p, b) ∈ two_files -> scan_pack b = Ok (Some rows) ->
     forall v, (p, v) ∈ packs two_files_report <->
               v = (rows, has_row 0x22 rows, has_row 0xFE rows)) /\
  (forall p b, (p, b) ∈ two_files -> scan_pack b = Ok None ->
     forall v, (p, v) ∉ packs two_files_report) /\
  Forall (fun file => exists e, scan_pack file.2 = Ok e) two_files /\
  total two_files_report = Z.of_nat (length (packs two_files_report)) /\
  with_sub22 two_files_report
    = Z.of_nat (length (filter (fun x => x.2.1.2 = true) (packs two_files_report))) /\
  with_assembled two_files_report
    = Z.of_nat (length (filter (fun x => x.2.2 = true) (packs two_files_report))) /\
  0 <= with_sub22 two_files_report <= total two_files_report /\
  0 <= with_assembled two_files_report <= total two_files_report.
Proof.
  apply (index_dir_summary two_files two_files_report).
  - apply (bool_decide_unpack _). vm_compute. exact I.
  - vm_compute. reflexivity.
Defined.

End ToolProps.

(** ** The decoder on a container written by [pack] *)

Module DecoderFacts.
Import Struct SysexPack PackIndex ProteusPresetDecode Container PackFacts
       LayerFilters ContainerFacts.

Lemma find_lookup {A} (q : A -> bool) (l : list A) :
  match List.find q l with
  | Some h => exists k, l !! k = Some h /\ q h = true /\
                forall j y, (j < k)%nat -> l !! j = Some y -> q y = false
  | None => forall k y, l !! k = Some y -> q y = false
  end.
Proof.
  induction l as [|a l IH]; cbn [List.find].
  - intros k y H. destruct k; discriminate.
  - destruct (q a) eqn:E.
    + exists 0%nat. split; [reflexivity|]. split; [exact E|]. intros j y Hj. lia.
    + destruct (List.find q l) as [h|].
      * destruct IH as (k & Hk & Hq & Hmin). exists (S k).
        split; [exact Hk|]. split; [exact Hq|].
        intros [|j] y Hj Hy; [now injection Hy as <-|].
        apply (Hmin j); [lia | exact Hy].
      * intros [|k] y Hy; [now injection Hy as <- | exact (IH k y Hy)].
Qed.

Lemma head_filter {A} (p : A -> bool) (l : list A) :
  head (List.filter p l) = List.find p l.
Proof.
  induction l as [|a l IH]; [reflexivity|]. cbn [List.filter List.find].
  destruct (p a); [reflexivity | exact IH].
Qed.

Lemma find_fmap {A B} (f : A -> B) (p : B -> bool) (l : list A) :
  List.find p (f <$> l) = f <$> List.find (fun a => p (f a)) l.
Proof.
  induction l as [|a l IH]; [reflexivity|]. cbn [fmap list_fmap List.find].
  destruct (p (f a)); [reflexivity | exact IH].
Qed.

Lemma sub_is_or0 (e : Entry) (v : Z) :
  v <> 0 -> entry_sub_is e v = (entry_sub_or0 e =? v).
Proof.
  intros Hv. unfold entry_sub_is, entry_sub_or0.
  destruct (entry_sub e) as [[|z]|]; try reflexivity; symmetry; apply Z.eqb_neq; lia.
Qed.

(** The first row of the table with a given subtype belongs to the first
    record of the collection with that subtype. *)
Lemma find_table entries (v : Z) :
  fits entries -> v <> 0 ->
  match find_sub entries v with
  | Some h =>
      exists x,
        List.find (fun x => (ix_type x =? 0x10) && (ix_sub x =? v))
          (table_of entries (blob_start entries)) = Some x /\
        ix_length x = Z.of_nat (length (e_data h)) /\
        entry_bytes (container_of entries) x = e_data h
  | None =>
      List.find (fun x => (ix_type x =? 0x10) && (ix_sub x =? v))
        (table_of entries (blob_start entries)) = None
  end.
Proof.
  intros Hfits Hv. unfold find_sub.
  set (q := fun e => (e_type e =? 16) && entry_sub_is e v).
  set (p := fun x => (ix_type x =? 16) && (ix_sub x =? v)).
  set (T := table_of entries (blob_start entries)).
  assert (Hpq : forall k x e, T !! k = Some x -> entries !! k = Some e -> p x = q e).
  { intros k x e Hx He.
    destruct (table_of_lookup _ _ _ _ Hx) as (e' & He' & _ & Ht & Hs & _).
    assert (e' = e) as -> by congruence.
    unfold p, q. now rewrite Ht, Hs, sub_is_or0. }
  assert (Hrow : forall k e, entries !! k = Some e -> exists x, T !! k = Some x /\
            ix_length x = Z.of_nat (length (e_data e)) /\
            entry_bytes (container_of entries) x = e_data e).
  { intros k e He. destruct (container_row _ _ _ Hfits He) as (x & Hx & _ & _ & _ & _ & _ & Hl & Hb).
    eauto. }
  assert (Hent : forall k x, T !! k = Some x -> exists e, entries !! k = Some e).
  { intros k x Hx. destruct (table_of_lookup _ _ _ _ Hx) as (e & He & _). eauto. }
  pose proof (find_lookup q entries) as Hq.
  pose proof (find_lookup p T) as Hp.
  destruct (List.find q entries) as [h|]; destruct (List.find p T) as [x|].
  - destruct Hq as (k & Hk & Hqh & Hmin). destruct Hp as (k' & Hk' & Hpx & Hmin').
    destruct (Hrow _ _ Hk) as (x0 & Hx0 & Hl0 & Hb0).
    destruct (Hent _ _ Hk') as (e' & He').
    destruct (Nat.lt_trichotomy k k') as [Hlt | [Heq | Hgt]].
    + pose proof (Hmin' _ _ Hlt Hx0) as Hf. rewrite (Hpq _ _ _ Hx0 Hk) in Hf. congruence.
    + subst k'. assert (x0 = x) as -> by congruence. eauto.
    + pose proof (Hmin _ _ Hgt He') as Hf. rewrite <- (Hpq _ _ _ Hk' He') in Hf. congruence.
  - destruct Hq as (k & Hk & Hqh & _).
    destruct (Hrow _ _ Hk) as (x0 & Hx0 & _).
    pose proof (Hp _ _ Hx0) as Hf. rewrite (Hpq _ _ _ Hx0 Hk) in Hf. congruence.
  - destruct Hp as (k' & Hk' & Hpx & _).
    destruct (Hent _ _ Hk') as (e' & He').
    pose proof (Hq _ _ He') as Hf. rewrite <- (Hpq _ _ _ Hk' He') in Hf. congruence.
  - reflexivity.
Qed.

Lemma read_pack_container entries :
  fits entries ->
  read_pack (container_of entries)
    = Returns (Ok (container_of entries,
                   tuple_of <$> table_of entries (blob_start entries))).
Proof.
  intros Hfits. destruct (container_header entries (proj1 Hfits)) as [Hm Hh].
  unfold read_pack. rewrite bool_decide_eq_true_2 by exact Hm. cbn [negb].
  rewrite Hh. cbn [mbind result_bind]. rewrite Nat2Z.id.
  rewrite ToolFacts.read_rows_scan_rows.
  pose proof (scan_pack_container entries Hfits) as Hs. unfold scan_pack in Hs.
  rewrite bool_decide_eq_true_2 in Hs by exact Hm. cbn [negb] in Hs.
  rewrite Hh in Hs. cbn [mbind result_bind] in Hs.
  change (negb (1 =? 1)) with false in Hs. cbv iota in Hs.
  rewrite Nat2Z.id in Hs.
  destruct (scan_rows (container_of entries) (length entries) 0) as [rows|e];
    [|discriminate].
  cbn [mbind result_bind mret result_ret] in Hs. injection Hs as ->. reflexivity.
Qed.

End DecoderFacts.

Module DecoderProps.
Import Struct SysexPack PackIndex ProteusPresetDecode Container PackFacts
       LayerFilters ContainerFacts DecoderFacts.

(** X26: the decoder tool on a container written by [pack].  [read_pack]
    returns the table; the header the tool parses is the data of the record
    the segmenter takes as header (the first record of type 0x10 and subtype
    0x01), read back from its region of the container, and ["assembled_len"]
    is the data length of the record the segmenter takes as assembled (the
    first of type 0x10 and subtype 0xFE); either key is absent when the
    collection holds no such record. *)
Theorem preset_decode_on_packed entries buf :
  pack entries = Ok buf ->
  exists rows,
    read_pack buf = Returns (Ok (buf, rows)) /\
    decode_info buf rows =
      (header ← match find_sub entries 0x01 with
                 | Some h => parsed ← parse_header (e_data h); mret (Some parsed)
                 | None => mret None
                 end;
       mret (mkInfo header
               ((fun a => Z.of_nat (length (e_data a))) <$> find_sub entries 0xFE))).
Proof.
  intros H. apply pack_Ok in H. destruct H as [Hfits ->].
  eexists. split; [now apply read_pack_container|].
  set (T := table_of entries (blob_start entries)).
  unfold decode_info.
  assert (Hm : forall (A : Type) (l : list (Z * Z * Z * Z * Z * Z))
                      (f : Z -> Z -> A) (d : A),
    match l with
    | (_, _, _, _, off, ln) :: _ => f off ln
    | [] => d
    end = match head l with
          | Some (_, _, _, _, off, ln) => f off ln
          | None => d
          end).
  { intros A [|[[[[[? ?] ?] ?] ?] ?] ?] f d; reflexivity. }
  rewrite (Hm _ (List.filter is_hdr (tuple_of <$> T))
             (fun off ln => h ← parse_header
                 (slice (container_of entries) (Z.to_nat off) (Z.to_nat (off + ln)));
                 mret (Some h)) (mret None)).
  rewrite (Hm _ (List.filter is_asm (tuple_of <$> T)) (fun off ln => Some ln) None).
  rewrite !head_filter, !find_fmap.
  change (fun a => is_hdr (tuple_of a))
    with (fun x => (ix_type x =? 0x10) && (ix_sub x =? 0x01)).
  change (fun a => is_asm (tuple_of a))
    with (fun x => (ix_type x =? 0x10) && (ix_sub x =? 0xFE)).
  pose proof (find_table entries 0x01 Hfits ltac:(lia)) as H1.
  pose proof (find_table entries 0xFE Hfits ltac:(lia)) as H2.
  fold T in H1, H2.
  assert (Hasm :
    match tuple_of <$> List.find (fun x => (ix_type x =? 16) && (ix_sub x =? 254)) T with
    | Some (_, _, _, _, _, ln) => Some ln
    | None => None
    end = (fun a => Z.of_nat (length (e_data a))) <$> find_sub entries 0xFE).
  { destruct (find_sub entries 254) as [a|].
    - destruct H2 as (x & -> & Hl & _). cbn. now rewrite Hl.
    - now rewrite H2. }
  rewrite Hasm.
  destruct (find_sub entries 1) as [h|].
  - destruct H1 as (x & -> & Hl & Hb). cbn [fmap option_fmap option_map tuple_of].
    unfold entry_bytes in Hb. rewrite Hb. reflexivity.
  - rewrite H1. reflexivity.
Qed.

Lemma preset_decode_on_packed_witness :
  exists rows,
    read_pack (container_of Examples.preset_3_0)
      = Returns (Ok (container_of Examples.preset_3_0, rows)) /\
    decode_info (container_of Examples.preset_3_0) rows =
      (header ← match find_sub Examples.preset_3_0 0x01 with
                 | Some h => parsed ← parse_header (e_data h); mret (Some parsed)
                 | None => mret None
                 end;
       mret (mkInfo header
               ((fun a => Z.of_nat (length (e_data a)))
                  <$> find_sub Examples.preset_3_0 0xFE))).
Proof. apply preset_decode_on_packed. vm_compute. reflexivity. Defined.

End DecoderProps.

(** ** From the segmenter to the layer-filter dump *)

Module CarveFacts.
Import SysexPack Container Segmenter SegmentFacts LayerFilters.

Lemma filter_all {A} (P : A -> Prop) `{!forall x, Decision (P x)} (l : list A) :
  Forall P l -> filter P l = l.
Proof.
  induction 1 as [|x l Hx _ IH]; [reflexivity|].
  now rewrite filter_cons_True, IH by exact Hx.
Qed.

(** What the segmenter appends when it carves. *)
Lemma segment_assembled_carves entries header assembled hdr :
  find_sub entries 0x01 = Some header ->
  find_sub entries 0xFE = Some assembled ->
  _parse_preset_header_blob (e_data header) = Some hdr ->
  0 < need hdr <= Z.of_nat (length (e_data assembled)) ->
  let tail := slice_tail (e_data assembled) (Z.to_nat (need hdr)) in
  let new := (fun i => layer_filter_entry (max_id entries + 1 + Z.of_nat i)
                         (Z.of_nat i) (slice tail (i * 14) ((i + 1) * 14)))
               <$> seq 0 (Z.to_nat (LayFilt (h_counts hdr))) in
  segment_assembled entries = entries ++ new /\
  Forall (fun e => is_layer_filter e = true) new.
Proof.
  intros Hh Ha Hp Hneed tail new.
  destruct (parse_header_Some _ _ Hp) as (Hlen & Hf & He).
  pose proof (at_range (e_data header) 13) as Rf.
  pose proof (at_range (e_data header) 15) as Re.
  assert (Htail : length tail = Z.to_nat (need hdr)).
  { subst tail. unfold slice_tail. rewrite length_drop. lia. }
  split.
  - unfold segment_assembled. rewrite Hh, Ha, Hp. fold (need hdr).
    destruct ((need hdr =? 0) || (need hdr >? Z.of_nat (length (e_data assembled))))
      eqn:Eg.
    { apply orb_true_iff in Eg. destruct Eg as [Eg|Eg]; lia. }
    rewrite carve_appends. fold tail. f_equal. subst new.
    apply list_fmap_ext. intros k i Hi. apply lookup_seq in Hi as [-> Hi].
    cbn [Nat.add]. rewrite slice_of_prefix by lia.
    reflexivity.
  - subst new. rewrite Forall_fmap. apply Forall_forall. intros i Hi.
    apply elem_of_seq in Hi. cbv [compose].
    unfold is_layer_filter, layer_filter_entry. cbn [e_type e_data].
    change (entry_sub_or0 _) with 0x22. cbn [Z.eqb Pos.eqb andb].
    apply Z.eqb_eq. unfold slice. rewrite length_take, length_drop, Htail.
    unfold need in *. rewrite Hf, He in *. lia.
Qed.

End CarveFacts.

Module CarveProps.
Import SysexPack Container Segmenter PackFacts LayerFilters ContainerFacts
       CarveFacts.

(** X27: the carved layer filters reach the dump.  When the segmenter carves
    (a header that decodes, an assembled record, [0 < need <= len]) and [pack]
    serialises its output, the layer-filter dump of the container returns the
    samples of the layer-filter records that were there before, followed by
    one sample per carved record, in order: id [max id + 1 + i], type 0x10,
    subtype 0x22 and the 14 bytes [tail[14*i : 14*(i+1)]] of the last [need]
    bytes of the assembled data. *)
Theorem dump_finds_carved entries header assembled hdr buf :
  find_sub entries 0x01 = Some header ->
  find_sub entries 0xFE = Some assembled ->
  _parse_preset_header_blob (e_data header) = Some hdr ->
  0 < need hdr <= Z.of_nat (length (e_data assembled)) ->
  pack (segment_assembled entries) = Ok buf ->
  let tail := slice_tail (e_data assembled) (Z.to_nat (need hdr)) in
  DumpLayerFilters.scan_pack buf =
    Ok ((sample_of <$> filter (fun e => is_layer_filter e = true) entries) ++
        ((fun i => let chunk := slice tail (i * 14) ((i + 1) * 14) in
                   DumpLayerFilters.mkSample (max_id entries + 1 + Z.of_nat i)
                     0x10 0x22 chunk (decoded chunk))
           <$> seq 0 (Z.to_nat (LayFilt (h_counts hdr))))).
Proof.
  intros Hh Ha Hp Hneed Hpack tail.
  destruct (segment_assembled_carves _ _ _ _ Hh Ha Hp Hneed) as [Hseg Hall].
  fold tail in Hseg, Hall. rewrite Hseg in Hpack.
  apply pack_Ok in Hpack. destruct Hpack as [Hfits ->].
  rewrite dump_container by exact Hfits.
  rewrite filter_app, fmap_app. do 2 f_equal.
  rewrite filter_all by exact Hall.
  rewrite <- list_fmap_compose. reflexivity.
Qed.

Lemma dump_finds_carved_witness :
  DumpLayerFilters.scan_pack (container_of (segment_assembled Examples.preset_3_0)) =
    Ok ((sample_of <$> filter (fun e => is_layer_filter e = true) Examples.preset_3_0) ++
        ((fun i => let chunk := slice (slice_tail Examples.blob_42 42)
                                  (i * 14) ((i + 1) * 14) in
                   DumpLayerFilters.mkSample (max_id Examples.preset_3_0 + 1 + Z.of_nat i)
                     0x10 0x22 chunk (decoded chunk))
           <$> seq 0 3)).
Proof.
  refine (dump_finds_carved Examples.preset_3_0 Examples.header_3_0
            (mkEntry 1 0x10 0 (Some MetaAssembled) Examples.blob_42)
            (mkPresetHeader 1 0 42 (mkCounts 0 0 0 0 1 0 3 0 0 0)) _ _ _ _ _ _);
    vm_compute; try reflexivity; split; congruence.
Defined.

End CarveProps.

(** ** The layer-filter dump on any buffer with a complete table *)

Module DumpFacts.
Import Struct StructFacts SysexPack PackIndex LayerFilters DumpRows ContainerFacts.

Lemma decode_short (data : list byte) :
  (length data < 6)%nat -> DumpLayerFilters.decode data = Raise IndexError.
Proof.
  intros H.
  destruct data as [|d0 [|d1 [|d2 [|d3 [|d4 [|d5 rest]]]]]]; try reflexivity.
  cbn [length] in H. lia.
Qed.

Lemma field_nonneg (b : list byte) (off n : nat) : 0 <= field b off n.
Proof. unfold field. apply le_value_range. Qed.

Lemma length_picked_region (b : list byte) (x : IndexEntry) :
  0 <= ix_offset x -> ix_length x = 14 ->
  length (entry_bytes b x) = Nat.min 14 (length b - Z.to_nat (ix_offset x)).
Proof.
  intros Ho Hl. unfold entry_bytes, slice. rewrite Hl, length_take, length_drop.
  lia.
Qed.

Lemma dump_rows_cases (b : list byte) (n : nat) : forall i,
  (8 + 18 * (i + n) <= length b)%nat ->
  DumpLayerFilters.scan_rows b n i =
    if existsb (region_short b) (List.filter picked (row_at b <$> seq i n))
    then Raise IndexError
    else Ok (sample_at b <$> List.filter picked (row_at b <$> seq i n)).
Proof.
  induction n as [|n IH]; intros i Hlen; [reflexivity|].
  cbn [DumpLayerFilters.scan_rows seq fmap list_fmap List.filter].
  unfold unpack_from_IHHHII. change (8 + i * DumpLayerFilters.esz)%nat with (8 + i * 18)%nat.
  destruct (length b <? 8 + i * 18 + 18)%nat eqn:E; [apply Nat.ltb_lt in E; lia|].
  cbn [mbind result_bind].
  change ((field b (8 + i * 18 + 4) 2 =? 16) && (field b (8 + i * 18 + 6) 2 =? 34)
          && (field b (8 + i * 18 + 14) 4 =? 14)) with (picked (row_at b i)).
  rewrite (IH (S i)) by lia.
  destruct (picked (row_at b i)) eqn:Ep; [|reflexivity].
  change (slice b (Z.to_nat (field b (8 + i * 18 + 10) 4))
            (Z.to_nat (field b (8 + i * 18 + 10) 4 + field b (8 + i * 18 + 14) 4)))
    with (entry_bytes b (row_at b i)).
  cbn [existsb fmap list_fmap].
  assert (Hl : ix_length (row_at b i) = 14).
  { unfold picked in Ep. apply andb_prop in Ep as [_ Ep]. now apply Z.eqb_eq in Ep. }
  pose proof (length_picked_region b (row_at b i) (field_nonneg _ _ _) Hl) as Hlen'.
  destruct (region_short b (row_at b i)) eqn:Es; unfold region_short in Es.
  - apply Nat.ltb_lt in Es. rewrite decode_short by lia. reflexivity.
  - apply Nat.ltb_ge in Es. rewrite decode_decoded by lia.
    cbn [mbind result_bind orb].
    destruct (existsb (region_short b)
                (List.filter picked (row_at b <$> seq (S i) n))); reflexivity.
Qed.

End DumpFacts.

Module DumpProps.
Import Struct StructFacts SysexPack PackIndex LayerFilters DumpRows ContainerFacts
       DumpFacts.

(** X28: the layer-filter dump on any buffer that starts with the magic, has
    version 1 and holds its whole table.  The rows picked are those of type
    0x10, subtype 0x22 and length 14.  If the region of one of them has fewer
    than 6 bytes inside the buffer, the dump raises [IndexError]; otherwise it
    returns one sample per picked row, in table order, with the bytes of the
    region (cut at the end of the buffer) and their decoding. *)
Theorem dump_on_complete_table (b : list byte) :
  take 4 b = MAGIC -> field b 4 2 = 1 ->
  (8 + 18 * Z.to_nat (field b 6 2) <= length b)%nat ->
  let picks := List.filter picked (row_at b <$> seq 0 (Z.to_nat (field b 6 2))) in
  DumpLayerFilters.scan_pack b =
    if existsb (region_short b) picks then Raise IndexError
    else Ok (sample_at b <$> picks).
Proof.
  intros Hm Hv Hlen picks. unfold DumpLayerFilters.scan_pack.
  rewrite bool_decide_eq_true_2 by exact Hm. cbn [negb].
  unfold unpack_from_HH.
  destruct (length b <? 4 + 4)%nat eqn:E; [apply Nat.ltb_lt in E; lia|].
  cbn [mbind result_bind]. rewrite Hv. change (negb (1 =? 1)) with false. cbv iota.
  change (4 + 2)%nat with 6%nat. now apply dump_rows_cases.
Qed.

Lemma dump_on_complete_table_witness :
  DumpLayerFilters.scan_pack
    (MAGIC ++ [x01; x00; x01; x00]
       ++ [x07; x00; x00; x00; x10; x00; x22; x00; x00; x00;
           xe8; x03; x00; x00; x0e; x00; x00; x00]) = Raise IndexError.
Proof.
  refine (dump_on_complete_table
            (MAGIC ++ [x01; x00; x01; x00]
               ++ [x07; x00; x00; x00; x10; x00; x22; x00; x00; x00;
                   xe8; x03; x00; x00; x0e; x00; x00; x00]) _ _ _);
    vm_compute; (reflexivity || lia).
Defined.

(** X29: decoding one layer-filter record.  [decode] raises [IndexError]
    exactly when the record has fewer than 6 bytes.  Otherwise the first five
    fields are the first five bytes, [tilt] is byte 5 read as a signed
    (two's complement) byte, so it lies in [-128 .. 127] and is congruent to
    the byte modulo 256, and [reserved] holds the bytes from index 6 up to
    index 13, as many of them as the record has. *)
Theorem decode_record (data : list byte) :
  (DumpLayerFilters.decode data = Raise IndexError <-> (length data < 6)%nat) /\
  forall d, DumpLayerFilters.decode data = Ok d ->
    DumpLayerFilters.filterType d = at_ data 0 /\
    DumpLayerFilters.cutoff d = at_ data 1 /\
    DumpLayerFilters.q d = at_ data 2 /\
    DumpLayerFilters.morphIndex d = at_ data 3 /\
    DumpLayerFilters.morphDepth d = at_ data 4 /\
    -128 <= DumpLayerFilters.tilt d < 128 /\
    DumpLayerFilters.tilt d mod 256 = at_ data 5 /\
    DumpLayerFilters.reserved d = take 8 (drop 6 data).
Proof.
  destruct (Nat.lt_ge_cases (length data) 6) as [Hs | Hl].
  - rewrite decode_short by exact Hs. split; [tauto | discriminate].
  - rewrite decode_decoded by exact Hl. split.
    + split; [discriminate | lia].
    + intros d [= <-]. unfold decoded.
      cbn [DumpLayerFilters.filterType DumpLayerFilters.cutoff DumpLayerFilters.q
           DumpLayerFilters.morphIndex DumpLayerFilters.morphDepth
           DumpLayerFilters.tilt DumpLayerFilters.reserved].
      pose proof (SegmentFacts.at_range data 5) as R.
      repeat (split; [reflexivity|]).
      destruct (at_ data 5 <? 128) eqn:E;
        [apply Z.ltb_lt in E | apply Z.ltb_ge in E].
      * split; [lia|]. split; [|reflexivity]. apply Z.mod_small. lia.
      * split; [lia|]. split; [|reflexivity].
        replace (at_ data 5 - 256) with (at_ data 5 + (-1) * 256) by lia.
        rewrite Z.mod_add by lia. apply Z.mod_small. lia.
Qed.

End DumpProps.

(** ** The scraper's filter-parameter decoder *)

Module ScrapeProps.
Import SysexPack SyxToolsRest FilterRequests EmuScrapePresets MidiFacts.

(** X30: the scraper's decoder of a filter-parameter payload.  It returns
    [None] exactly when the payload is not 14 bytes long.  Otherwise it
    returns seven values, each in [0 .. 16383], and splitting them again with
    [u16_to_bytes] gives the fourteen payload bytes back without their top
    bit: the decoder loses nothing of a 7-bit payload. *)
Theorem decode_filter_params_roundtrip (payload : list byte) :
  (decode_filter_params payload = None <-> length payload <> 14%nat) /\
  forall vals, decode_filter_params payload = Some vals ->
    length vals = 7%nat /\
    Forall (fun v => 0 <= v < 16384) vals /\
    (v ← vals; [(u16_to_bytes v).1; (u16_to_bytes v).2])
      = (fun b => byte_to_Z b mod 128) <$> payload.
Proof.
  unfold decode_filter_params.
  destruct (length payload =? 14)%nat eqn:E; cbn [negb].
  - apply Nat.eqb_eq in E. split; [split; [discriminate | congruence]|].
    intros vals [= <-].
    destruct payload as [|b0 [|b1 [|b2 [|b3 [|b4 [|b5 [|b6 [|b7 [|b8 [|b9
      [|b10 [|b11 [|b12 [|b13 [|b14 rest]]]]]]]]]]]]]]]; try discriminate.
    cbn [filter_vals Nat.add]. unfold at_. cbn [nth].
    split; [reflexivity|]. split.
    + repeat constructor; apply midi_u14_range.
    + cbn [mbind list_bind app fmap list_fmap].
      rewrite !u16_to_bytes_midi_u14. reflexivity.
  - apply Nat.eqb_neq in E. split; [tauto | discriminate].
Qed.

End ScrapeProps.
